(** * VibeDeploy: the reaction-to-deployment bridge

    A shallow embedding of the canonical snapshot of [main.go] (the one with
    the allowlist, the gear reaction and the command-output listener),
    together with the parts of Go's [unicode/utf8] and [encoding/json] that
    the program's payloads pass through.

    Go strings are byte strings: they are [string] here.  A [[]byte] is a
    [list N], each element a byte value. *)

From Stdlib Require Import NArith ZArith Ascii String List Bool Lia.
From stdpp Require Import base option list gmap strings.

Set Warnings "-register-all,-clear-no-such-hyp".
Local Open Scope N_scope.

(** ** Bytes *)

Module Bytes.

Definition bytes_of_string (s : string) : list N :=
  List.map N_of_ascii (list_ascii_of_string s).

Definition string_of_bytes (b : list N) : string :=
  string_of_list_ascii (List.map ascii_of_N b).

(** [byte(x)]: conversion of a wider integer to a byte keeps the low 8 bits. *)
Definition byte (x : N) : N := N.land x 255.

Definition in_range (lo hi b : N) : bool := (lo <=? b) && (b <=? hi).

End Bytes.
Import Bytes.

(** ** unicode/utf8 *)

Module utf8.

Definition RuneError : N := 65533.   (* U+FFFD *)
Definition RuneSelf : N := 128.
Definition MaxRune : N := 1114111.   (* U+10FFFF *)
Definition surrogateMin : N := 55296.
Definition surrogateMax : N := 57343.

Definition locb : N := 128.
Definition hicb : N := 191.

(** What the table [first] says about a leading byte. *)
Inductive lead :=
| LeadASCII
| LeadInvalid
| LeadMulti (sz : nat) (lo hi : N).   (* size and accepted range of the second byte *)

Definition first (p0 : N) : lead :=
  if p0 <? 128 then LeadASCII
  else if p0 <? 194 then LeadInvalid                  (* 0x80-0xC1 *)
  else if p0 <? 224 then LeadMulti 2 locb hicb        (* 0xC2-0xDF *)
  else if p0 =? 224 then LeadMulti 3 160 hicb         (* 0xE0 *)
  else if p0 <? 237 then LeadMulti 3 locb hicb        (* 0xE1-0xEC *)
  else if p0 =? 237 then LeadMulti 3 locb 159         (* 0xED *)
  else if p0 <? 240 then LeadMulti 3 locb hicb        (* 0xEE-0xEF *)
  else if p0 =? 240 then LeadMulti 4 144 hicb         (* 0xF0 *)
  else if p0 <? 244 then LeadMulti 4 locb hicb        (* 0xF1-0xF3 *)
  else if p0 =? 244 then LeadMulti 4 locb 143         (* 0xF4 *)
  else LeadInvalid.                                   (* 0xF5-0xFF *)

Definition cont (b : N) : bool := in_range locb hicb b.

(** [DecodeRune p]: the first rune of [p] and its width in bytes;
    [(RuneError, 1)] on an invalid or short encoding, [(RuneError, 0)]
    on empty input. *)
Definition DecodeRune (p : list N) : N * nat :=
  match p with
  | [] => (RuneError, 0%nat)
  | p0 :: p' =>
    match first p0 with
    | LeadASCII => (p0, 1%nat)
    | LeadInvalid => (RuneError, 1%nat)
    | LeadMulti sz lo hi =>
      if (length p <? sz)%nat then (RuneError, 1%nat) else
      match p' with
      | [] => (RuneError, 1%nat)
      | b1 :: p'' =>
        if negb (in_range lo hi b1) then (RuneError, 1%nat)
        else if (sz <=? 2)%nat then
          (N.lor (N.shiftl (N.land p0 31) 6) (N.land b1 63), 2%nat)
        else
        match p'' with
        | [] => (RuneError, 1%nat)
        | b2 :: p''' =>
          if negb (cont b2) then (RuneError, 1%nat)
          else if (sz <=? 3)%nat then
            (N.lor (N.lor (N.shiftl (N.land p0 15) 12)
                          (N.shiftl (N.land b1 63) 6))
                   (N.land b2 63), 3%nat)
          else
          match p''' with
          | [] => (RuneError, 1%nat)
          | b3 :: _ =>
            if negb (cont b3) then (RuneError, 1%nat)
            else
              (N.lor (N.lor (N.lor (N.shiftl (N.land p0 7) 18)
                                   (N.shiftl (N.land b1 63) 12))
                            (N.shiftl (N.land b2 63) 6))
                     (N.land b3 63), 4%nat)
          end
        end
      end
    end
  end.

Definition enc3 (r : N) : list N :=
  [ N.lor 224 (byte (N.shiftr r 12));
    N.lor 128 (N.land (byte (N.shiftr r 6)) 63);
    N.lor 128 (N.land (byte r) 63) ].

(** [EncodeRune r]: the UTF-8 encoding of [r]; surrogates and values
    above [MaxRune] are written as [RuneError]. *)
Definition EncodeRune (r : N) : list N :=
  if r <=? 127 then [byte r]
  else if r <=? 2047 then
    [ N.lor 192 (byte (N.shiftr r 6)); N.lor 128 (N.land (byte r) 63) ]
  else if (MaxRune <? r) || ((surrogateMin <=? r) && (r <=? surrogateMax)) then
    enc3 RuneError
  else if r <=? 65535 then enc3 r
  else
    [ N.lor 240 (byte (N.shiftr r 18));
      N.lor 128 (N.land (byte (N.shiftr r 12)) 63);
      N.lor 128 (N.land (byte (N.shiftr r 6)) 63);
      N.lor 128 (N.land (byte r) 63) ].

(** [Valid p]: [p] consists entirely of valid UTF-8 encoded runes. *)
Fixpoint Valid_loop (fuel : nat) (p : list N) : bool :=
  match fuel with
  | O => match p with [] => true | _ => false end
  | S fuel' =>
    match p with
    | [] => true
    | p0 :: rest =>
      if p0 <? RuneSelf then Valid_loop fuel' rest
      else
        let '(r, size) := DecodeRune p in
        if (size =? 1)%nat then false
        else Valid_loop fuel' (drop size p)
    end
  end.

Definition Valid (p : list N) : bool := Valid_loop (length p) p.

Definition ValidString (s : string) : bool := Valid (bytes_of_string s).

End utf8.

(** ** unicode/utf16 *)

Module utf16.

Definition surr1 : N := 55296.   (* 0xd800 *)
Definition surr2 : N := 56320.   (* 0xdc00 *)
Definition surr3 : N := 57344.   (* 0xe000 *)
Definition surrSelf : N := 65536.

Definition IsSurrogate (r : N) : bool := (surr1 <=? r) && (r <? surr3).

(** [DecodeRune r1 r2]: the code point of a surrogate pair, or U+FFFD
    when the pair is not valid.  [r2 = None] stands for the rune -1. *)
Definition DecodeRune (r1 : N) (r2 : option N) : N :=
  match r2 with
  | Some r2 =>
    if (surr1 <=? r1) && (r1 <? surr2) && (surr2 <=? r2) && (r2 <? surr3)
    then N.lor (N.shiftl (r1 - surr1) 10) (r2 - surr2) + surrSelf
    else utf8.RuneError
  | None => utf8.RuneError
  end.

End utf16.

(** ** encoding/json *)

Module json.

(** A JSON text as a tree.  A number keeps its literal. *)
Inductive value :=
| JNull
| JBool (b : bool)
| JNumber (lit : list N)
| JString (s : string)
| JArray (elems : list value)
| JObject (members : list (string * value)).

(** Character codes. *)
Definition c_quote : N := 34.      (* double quote *)
Definition c_bslash : N := 92.     (* backslash *)
Definition c_slash : N := 47.
Definition c_lbrace : N := 123.
Definition c_rbrace : N := 125.
Definition c_lbrack : N := 91.
Definition c_rbrack : N := 93.
Definition c_colon : N := 58.
Definition c_comma : N := 44.
Definition c_minus : N := 45.
Definition c_plus : N := 43.
Definition c_dot : N := 46.
Definition c_0 : N := 48.
Definition c_9 : N := 57.
Definition c_u : N := 117.

(** *** Encoding *)

(** [hex[n]] for ["0123456789abcdef"]. *)
Definition hex (n : N) : N := if n <? 10 then 48 + n else 87 + n.

(** [htmlSafeSet[b]], for [b < utf8.RuneSelf]: every printable ASCII
    character and DEL, except the double quote, the backslash and the
    HTML characters <, > and &. *)
Definition htmlSafeSet (b : N) : bool :=
  (32 <=? b) && negb (b =? 34) && negb (b =? 38) && negb (b =? 60)
  && negb (b =? 62) && negb (b =? 92).

Definition escape_ascii (b : N) : list N :=
  if (b =? c_bslash) || (b =? c_quote) then [c_bslash; b]
  else if b =? 8 then [c_bslash; 98]         (* \b *)
  else if b =? 12 then [c_bslash; 102]       (* \f *)
  else if b =? 10 then [c_bslash; 110]       (* \n *)
  else if b =? 13 then [c_bslash; 114]       (* \r *)
  else if b =? 9 then [c_bslash; 116]        (* \t *)
  else [c_bslash; c_u; c_0; c_0; hex (N.shiftr b 4); hex (N.land b 15)].

(** The loop of [appendString], with [escapeHTML] set as [Marshal] has
    it; [src] is what is left of the source from index [i]. *)
Fixpoint appendString_loop (fuel : nat) (src : list N) : list N :=
  match fuel with
  | O => []
  | S fuel' =>
    match src with
    | [] => []
    | b :: rest =>
      if b <? utf8.RuneSelf then
        (if htmlSafeSet b then [b] else escape_ascii b)
          ++ appendString_loop fuel' rest
      else
        let '(c, size) := utf8.DecodeRune src in
        if (c =? utf8.RuneError) && (size =? 1)%nat then
          [c_bslash; c_u; 102; 102; 102; 100]          (* the escape of U+FFFD *)
            ++ appendString_loop fuel' (drop size src)
        else if (c =? 8232) || (c =? 8233) then        (* U+2028, U+2029 *)
          [c_bslash; c_u; 50; 48; 50; hex (N.land c 15)]
            ++ appendString_loop fuel' (drop size src)
        else
          take size src ++ appendString_loop fuel' (drop size src)
    end
  end.

Definition appendString (src : string) : list N :=
  let b := bytes_of_string src in
  c_quote :: appendString_loop (length b) b ++ [c_quote].

(** The encoding of a tree: compact, members in the order of the list
    (the order of the fields of a struct). *)
Fixpoint render (v : value) : list N :=
  match v with
  | JNull => bytes_of_string "null"
  | JBool true => bytes_of_string "true"
  | JBool false => bytes_of_string "false"
  | JNumber lit => lit
  | JString s => appendString s
  | JArray elems =>
    let fix go (l : list value) : list N :=
      match l with
      | [] => []
      | [x] => render x
      | x :: l' => render x ++ c_comma :: go l'
      end in
    c_lbrack :: go elems ++ [c_rbrack]
  | JObject members =>
    let fix go (l : list (string * value)) : list N :=
      match l with
      | [] => []
      | [(k, x)] => appendString k ++ c_colon :: render x
      | (k, x) :: l' => appendString k ++ c_colon :: render x ++ c_comma :: go l'
      end in
    c_lbrace :: go members ++ [c_rbrace]
  end.

(** A Go map is encoded with its keys sorted (byte-wise). *)
Fixpoint insert_sorted (kv : string * value) (l : list (string * value))
  : list (string * value) :=
  match l with
  | [] => [kv]
  | kv' :: l' =>
    if String.leb (fst kv) (fst kv') then kv :: l
    else kv' :: insert_sorted kv l'
  end.

Definition sort_members (l : list (string * value)) : list (string * value) :=
  fold_right insert_sorted [] l.

Fixpoint sort_keys (v : value) : value :=
  match v with
  | JArray elems => JArray (List.map sort_keys elems)
  | JObject members =>
    JObject (sort_members (List.map (fun kv => (fst kv, sort_keys (snd kv))) members))
  | _ => v
  end.

(** *** Decoding: the scanner *)

Definition maxNestingDepth : N := 10000.

Definition isSpace (c : N) : bool :=
  (c =? 32) || (c =? 9) || (c =? 13) || (c =? 10).

Fixpoint skip_ws (s : list N) : list N :=
  match s with
  | c :: s' => if isSpace c then skip_ws s' else s
  | [] => []
  end.

Definition isDigit (c : N) : bool := in_range c_0 c_9 c.

Definition hexval (c : N) : option N :=
  if in_range 48 57 c then Some (c - 48)
  else if in_range 97 102 c then Some (c - 97 + 10)
  else if in_range 65 70 c then Some (c - 65 + 10)
  else None.

(** [getu4 s]: the value of the escape \uXXXX at the start of [s];
    [None] stands for -1. *)
Definition getu4 (s : list N) : option N :=
  match s with
  | b :: u :: h1 :: h2 :: h3 :: h4 :: _ =>
    if (b =? c_bslash) && (u =? c_u) then
      match hexval h1, hexval h2, hexval h3, hexval h4 with
      | Some d1, Some d2, Some d3, Some d4 =>
        Some (((d1 * 16 + d2) * 16 + d3) * 16 + d4)
      | _, _, _, _ => None
      end
    else None
  | _ => None
  end.

(** The escapes the scanner accepts after a backslash, other than [u]. *)
Definition unescape (c : N) : option N :=
  if (c =? c_quote) || (c =? c_bslash) || (c =? c_slash) then Some c
  else if c =? 98 then Some 8
  else if c =? 102 then Some 12
  else if c =? 110 then Some 10
  else if c =? 114 then Some 13
  else if c =? 116 then Some 9
  else None.

(** A string literal from just after its opening quote: the scanner's
    string states and [unquoteBytes] in one pass.  The result is the
    unquoted text and what follows the closing quote.  Text that is not
    UTF-8 is coerced: each offending byte becomes U+FFFD. *)
Fixpoint unquote_loop (fuel : nat) (s : list N) : option (list N * list N) :=
  match fuel with
  | O => None
  | S fuel' =>
    match s with
    | [] => None
    | c :: r =>
      if c =? c_quote then Some ([], r)
      else if c =? c_bslash then
        match r with
        | [] => None
        | e :: r' =>
          if e =? c_u then
            match getu4 s with
            | None => None
            | Some rr =>
              let r6 := drop 6 s in
              if utf16.IsSurrogate rr then
                let dec := utf16.DecodeRune rr (getu4 r6) in
                if negb (dec =? utf8.RuneError) then
                  '(t, rest) ← unquote_loop fuel' (drop 6 r6);
                  Some (utf8.EncodeRune dec ++ t, rest)
                else
                  '(t, rest) ← unquote_loop fuel' r6;
                  Some (utf8.EncodeRune utf8.RuneError ++ t, rest)
              else
                '(t, rest) ← unquote_loop fuel' r6;
                Some (utf8.EncodeRune rr ++ t, rest)
            end
          else
            match unescape e with
            | None => None
            | Some b =>
              '(t, rest) ← unquote_loop fuel' r';
              Some (b :: t, rest)
            end
        end
      else if c <? 32 then None
      else if c <? utf8.RuneSelf then
        '(t, rest) ← unquote_loop fuel' r;
        Some (c :: t, rest)
      else
        let '(rr, size) := utf8.DecodeRune s in
        '(t, rest) ← unquote_loop fuel' (drop size s);
        Some (utf8.EncodeRune rr ++ t, rest)
    end
  end.

Definition unquote (s : list N) : option (string * list N) :=
  '(t, rest) ← unquote_loop (length s) s;
  Some (string_of_bytes t, rest).

Fixpoint scan_digits (s : list N) : list N * list N :=
  match s with
  | c :: s' =>
    if isDigit c then let '(d, r) := scan_digits s' in (c :: d, r)
    else ([], s)
  | [] => ([], [])
  end.

(** A number literal: an optional minus sign; a zero, or a non-zero digit
    and more digits; an optional fraction (a dot and at least one digit);
    an optional exponent (e or E, an optional sign, at least one digit). *)
Definition scan_number (s : list N) : option (list N * list N) :=
  let '(sign, s1) :=
    match s with
    | c :: s' => if c =? c_minus then ([c], s') else ([], s)
    | [] => ([], s)
    end in
  '(int, s2) ←
    match s1 with
    | c :: s' =>
      if c =? c_0 then Some ([c], s')
      else if isDigit c then let '(d, r) := scan_digits s' in Some (c :: d, r)
      else None
    | [] => None
    end;
  '(frac, s3) ←
    match s2 with
    | c :: s' =>
      if c =? c_dot then
        match scan_digits s' with
        | ([], _) => None
        | (d, r) => Some (c :: d, r)
        end
      else Some ([], s2)
    | [] => Some ([], s2)
    end;
  '(exp, s4) ←
    match s3 with
    | c :: s' =>
      if (c =? 101) || (c =? 69) then
        let '(sg, s'') :=
          match s' with
          | c' :: t => if (c' =? c_plus) || (c' =? c_minus) then ([c'], t) else ([], s')
          | [] => ([], s')
          end in
        match scan_digits s'' with
        | ([], _) => None
        | (d, r) => Some (c :: sg ++ d, r)
        end
      else Some ([], s3)
    | [] => Some ([], s3)
    end;
  Some (sign ++ int ++ frac ++ exp, s4).

Definition strip_prefix (p s : list N) : option (list N) :=
  if decide (take (length p) s = p) then Some (drop (length p) s) else None.

(** One JSON value at the start of [s] (after white space) and the rest
    of the input.  [depth] counts the arrays and objects that are open. *)
Fixpoint parse_value (fuel : nat) (depth : N) (s : list N) : option (value * list N) :=
  match fuel with
  | O => None
  | S fuel' =>
    match skip_ws s with
    | [] => None
    | c :: r =>
      if c =? c_lbrace then
        if maxNestingDepth <? N.succ depth then None
        else match skip_ws r with
             | c' :: r' =>
               if c' =? c_rbrace then Some (JObject [], r')
               else '(ms, rest) ← parse_members fuel' (N.succ depth) r; Some (JObject ms, rest)
             | [] => None
             end
      else if c =? c_lbrack then
        if maxNestingDepth <? N.succ depth then None
        else match skip_ws r with
             | c' :: r' =>
               if c' =? c_rbrack then Some (JArray [], r')
               else '(es, rest) ← parse_elements fuel' (N.succ depth) r; Some (JArray es, rest)
             | [] => None
             end
      else if c =? c_quote then
        '(t, rest) ← unquote r; Some (JString t, rest)
      else if (c =? c_minus) || isDigit c then
        '(lit, rest) ← scan_number (c :: r); Some (JNumber lit, rest)
      else if c =? 116 then
        rest ← strip_prefix (bytes_of_string "true") (c :: r); Some (JBool true, rest)
      else if c =? 102 then
        rest ← strip_prefix (bytes_of_string "false") (c :: r); Some (JBool false, rest)
      else if c =? 110 then
        rest ← strip_prefix (bytes_of_string "null") (c :: r); Some (JNull, rest)
      else None
    end
  end
(** The elements of an array, up to and including the closing bracket. *)
with parse_elements (fuel : nat) (depth : N) (s : list N) : option (list value * list N) :=
  match fuel with
  | O => None
  | S fuel' =>
    '(v, r) ← parse_value fuel' depth s;
    match skip_ws r with
    | c :: r' =>
      if c =? c_comma then
        '(vs, rest) ← parse_elements fuel' depth r'; Some (v :: vs, rest)
      else if c =? c_rbrack then Some ([v], r')
      else None
    | [] => None
    end
  end
(** The members of an object, up to and including the closing brace. *)
with parse_members (fuel : nat) (depth : N) (s : list N)
  : option (list (string * value) * list N) :=
  match fuel with
  | O => None
  | S fuel' =>
    match skip_ws s with
    | c :: r =>
      if c =? c_quote then
        '(k, r1) ← unquote r;
        match skip_ws r1 with
        | c1 :: r2 =>
          if c1 =? c_colon then
            '(v, r3) ← parse_value fuel' depth r2;
            match skip_ws r3 with
            | c3 :: r4 =>
              if c3 =? c_comma then
                '(ms, rest) ← parse_members fuel' depth r4; Some ((k, v) :: ms, rest)
              else if c3 =? c_rbrace then Some ([(k, v)], r4)
              else None
            | [] => None
            end
          else None
        | [] => None
        end
      else None
    | [] => None
    end
  end.

(** [checkValid] and the decoding into a tree: one value, with nothing
    but white space after it. *)
Definition parse (data : list N) : option value :=
  '(v, rest) ← parse_value (2 * length data + 2) 0 data;
  match skip_ws rest with
  | [] => Some v
  | _ => None
  end.

End json.

(** *** Decoding: from a tree into Go values *)

Module decode.
Import json.

(** [foldRune]: the least rune of the orbit of [r] under simple case
    folding.  Struct field names here are ASCII, and only two runes
    outside ASCII fold into it: U+017F (long s) and U+212A (Kelvin sign).
    Every other non-ASCII rune is left as it is, which does not change
    whether a folded key equals a folded ASCII name. *)
Definition foldRune (r : N) : N :=
  if r =? 383 then 83 else if r =? 8490 then 75 else r.

Fixpoint appendFoldedName (fuel : nat) (s : list N) : list N :=
  match fuel with
  | O => []
  | S fuel' =>
    match s with
    | [] => []
    | c :: r =>
      if c <? utf8.RuneSelf then
        (if in_range 97 122 c then c - 32 else c) :: appendFoldedName fuel' r
      else
        let '(rn, n) := utf8.DecodeRune s in
        utf8.EncodeRune (foldRune rn) ++ appendFoldedName fuel' (drop n s)
    end
  end.

Definition foldName (name : string) : list N :=
  let b := bytes_of_string name in appendFoldedName (length b) b.

(** The field a key selects: an exact match of the name first, then the
    first field whose folded name is the folded key. *)
Definition find_field (names : list string) (key : string) : option string :=
  match List.find (String.eqb key) names with
  | Some f => Some f
  | None => List.find (fun f => bool_decide (foldName f = foldName key)) names
  end.

Definition into_string (v : value) (old : string) : option string :=
  match v with
  | JString s => Some s
  | JNull => Some old
  | _ => None
  end.

Definition into_bool (v : value) (old : bool) : option bool :=
  match v with
  | JBool b => Some b
  | JNull => Some old
  | _ => None
  end.

Fixpoint digits_value (acc : Z) (s : list N) : option Z :=
  match s with
  | [] => Some acc
  | c :: s' =>
    if isDigit c then digits_value (acc * 10 + Z.of_N (c - c_0))%Z s' else None
  end.

(** [strconv.ParseInt(lit, 10, 64)] on a number literal. *)
Definition ParseInt (lit : list N) : option Z :=
  let '(neg, ds) :=
    match lit with
    | c :: s' => if c =? c_minus then (true, s') else (false, lit)
    | [] => (false, [])
    end in
  match ds with
  | [] => None
  | _ =>
    n ← digits_value 0%Z ds;
    let z : Z := if (neg : bool) then (- n)%Z else n in
    if ((- 2 ^ 63 <=? z) && (z <? 2 ^ 63))%Z then Some z else None
  end.

Definition into_int (v : value) (old : Z) : option Z :=
  match v with
  | JNumber lit => ParseInt lit
  | JNull => Some old
  | _ => None
  end.

(** A struct: every member whose key selects a field is decoded into
    that field, in the order of the text; other members are skipped. *)
Definition into_struct {T : Type} (names : list string)
    (set : string → value → T → option T) (v : value) (old : T) : option T :=
  match v with
  | JObject members =>
    fold_left (fun acc kv =>
                 t ← acc;
                 match find_field names (fst kv) with
                 | Some f => set f (snd kv) t
                 | None => Some t
                 end) members (Some old)
  | JNull => Some old
  | _ => None
  end.

(** A pointer to a struct: null sets it to nil; an object is decoded into
    what it points to, after allocating a zero value if it is nil. *)
Definition into_pointer {T : Type} (zero : T) (dec : value → T → option T)
    (v : value) (old : option T) : option (option T) :=
  match v with
  | JNull => Some None
  | JObject _ => Some <$> dec v (default zero old)
  | _ => None
  end.

(** The elements of an array, the i-th decoded into the i-th element the
    slice already has, or into a zero value.  The backing array beyond the
    length of the slice is not modelled: an element that an object repeating
    the same key three times would find there starts from the zero value. *)
Fixpoint into_elems {T : Type} (zero : T) (dec : value → T → option T)
    (elems : list value) (old : list T) : option (list T) :=
  match elems with
  | [] => Some []
  | e :: elems' =>
    x ← dec e (hd zero old);
    xs ← into_elems zero dec elems' (tl old);
    Some (x :: xs)
  end.

(** A slice that is only read by length and index: null and an absent
    key leave or make it empty. *)
Definition into_slice {T : Type} (zero : T) (dec : value → T → option T)
    (v : value) (old : list T) : option (list T) :=
  match v with
  | JArray elems => into_elems zero dec elems old
  | JNull => Some []
  | _ => None
  end.

(** A slice whose nil-ness shows in its encoding: [None] is the nil slice. *)
Definition into_nilable_slice {T : Type} (zero : T) (dec : value → T → option T)
    (v : value) (old : option (list T)) : option (option (list T)) :=
  match v with
  | JArray elems => Some <$> into_elems zero dec elems (default [] old)
  | JNull => Some None
  | _ => None
  end.

(** [Unmarshal(data, &x)] with [x] a zero value: [None] when it returns
    an error (a syntax error, or a value of the wrong type for a field). *)
Definition Unmarshal {T : Type} (dec : value → T → option T) (zero : T)
    (data : list N) : option T :=
  v ← parse data; dec v zero.

End decode.

(** ** The program's types *)

Local Open Scope string_scope.
Local Open Scope N_scope.
Local Open Scope list_scope.

Inductive LogLevel := DEBUG | INFO | WARN | ERROR.

(** The [iota] values of the levels. *)
Definition LogLevel_rank (l : LogLevel) : N :=
  match l with DEBUG => 0 | INFO => 1 | WARN => 2 | ERROR => 3 end.

Module Config.
Record t := mk {
  RedisAddr : string;
  RedisPassword : string;
  SlackToken : string;
  BaseDir : string;
  RedisPubSub : string;
  RedisListName : string;
  RedisOutputChannel : string;
  RedisReactionList : string;
  LogLevel : LogLevel;
  AllowedReposConfig : string
}.
End Config.

Definition RocketReaction : string := "rocket".
Definition GearReaction : string := "gear".
Definition VibeDeployType : string := "vibe-deploy".
Definition DeploymentCommand : string := "docker compose up -d".

Module ReactionEvent.
(** The anonymous struct types of the fields [Event], [Event.Item] and
    of the elements of [Authorizations]. *)
Record item := mkItem {
  Item_Type : string;
  Channel : string;
  Ts : string
}.
Record event := mkEvent {
  Type_ : string;
  User : string;
  Reaction : string;
  Item : item
}.
Record authorization := mkAuthorization {
  UserID : string;
  IsBot : bool
}.
Record t := mk {
  Event : event;
  Authorizations : list authorization
}.

Definition zero_item : item := mkItem "" "" "".
Definition zero_event : event := mkEvent "" "" "" zero_item.
Definition zero_authorization : authorization := mkAuthorization "" false.
Definition zero : t := mk zero_event [].
End ReactionEvent.

Module PRMetadata.
Record t := mk {
  PRNumber : Z;
  Repository : string;
  PRUrl : string;
  Author : string;
  Branch : string;
  EventAction : string
}.
Definition zero : t := mk 0%Z "" "" "" "" "".
End PRMetadata.

Module AllowedReposConfig.
Record t := mk { AllowedRepos : list string }.
End AllowedReposConfig.

Module CommandMetadata.
Record t := mk {
  Channel : string;
  Ts : string
}.
Definition zero : t := mk "" "".
End CommandMetadata.

Module PoppitCommand.
(** [Commands] is a slice: [None] is nil.  [Metadata] is a pointer. *)
Record t := mk {
  Repo : string;
  Branch : string;
  Type_ : string;
  Dir : string;
  Commands : option (list string);
  Metadata : option CommandMetadata.t
}.
Definition zero : t := mk "" "" "" "" None None.
End PoppitCommand.

Module CommandOutput.
Record t := mk {
  Metadata : option CommandMetadata.t;
  Type_ : string;
  Command : string;
  Output : string
}.
Definition zero : t := mk None "" "" "".
End CommandOutput.

Module SlackReaction.
Record t := mk {
  Reaction : string;
  Channel : string;
  Ts : string;
  Remove : bool
}.
End SlackReaction.

(** ** The JSON form of the program's types, from their struct tags *)

Module wire.
Import json decode.

Definition set_item (f : string) (v : value) (x : ReactionEvent.item)
  : option ReactionEvent.item :=
  let '(ReactionEvent.mkItem ty ch ts) := x in
  if String.eqb f "type" then s ← into_string v ty; Some (ReactionEvent.mkItem s ch ts)
  else if String.eqb f "channel" then s ← into_string v ch; Some (ReactionEvent.mkItem ty s ts)
  else if String.eqb f "ts" then s ← into_string v ts; Some (ReactionEvent.mkItem ty ch s)
  else Some x.

Definition into_item : value → ReactionEvent.item → option ReactionEvent.item :=
  into_struct ["type"; "channel"; "ts"] set_item.

Definition set_event (f : string) (v : value) (x : ReactionEvent.event)
  : option ReactionEvent.event :=
  let '(ReactionEvent.mkEvent ty us re it) := x in
  if String.eqb f "type" then s ← into_string v ty; Some (ReactionEvent.mkEvent s us re it)
  else if String.eqb f "user" then s ← into_string v us; Some (ReactionEvent.mkEvent ty s re it)
  else if String.eqb f "reaction" then s ← into_string v re; Some (ReactionEvent.mkEvent ty us s it)
  else if String.eqb f "item" then i ← into_item v it; Some (ReactionEvent.mkEvent ty us re i)
  else Some x.

Definition into_event : value → ReactionEvent.event → option ReactionEvent.event :=
  into_struct ["type"; "user"; "reaction"; "item"] set_event.

Definition set_authorization (f : string) (v : value) (x : ReactionEvent.authorization)
  : option ReactionEvent.authorization :=
  let '(ReactionEvent.mkAuthorization uid bot) := x in
  if String.eqb f "user_id" then s ← into_string v uid; Some (ReactionEvent.mkAuthorization s bot)
  else if String.eqb f "is_bot" then b ← into_bool v bot; Some (ReactionEvent.mkAuthorization uid b)
  else Some x.

Definition into_authorization
  : value → ReactionEvent.authorization → option ReactionEvent.authorization :=
  into_struct ["user_id"; "is_bot"] set_authorization.

Definition set_ReactionEvent (f : string) (v : value) (x : ReactionEvent.t)
  : option ReactionEvent.t :=
  let '(ReactionEvent.mk ev auths) := x in
  if String.eqb f "event" then e ← into_event v ev; Some (ReactionEvent.mk e auths)
  else if String.eqb f "authorizations" then
    a ← into_slice ReactionEvent.zero_authorization into_authorization v auths;
    Some (ReactionEvent.mk ev a)
  else Some x.

Definition into_ReactionEvent : value → ReactionEvent.t → option ReactionEvent.t :=
  into_struct ["event"; "authorizations"] set_ReactionEvent.

Definition Unmarshal_ReactionEvent (data : list N) : option ReactionEvent.t :=
  Unmarshal into_ReactionEvent ReactionEvent.zero data.

Definition set_PRMetadata (f : string) (v : value) (x : PRMetadata.t)
  : option PRMetadata.t :=
  let '(PRMetadata.mk n repo url author branch action) := x in
  if String.eqb f "pr_number" then z ← into_int v n; Some (PRMetadata.mk z repo url author branch action)
  else if String.eqb f "repository" then s ← into_string v repo; Some (PRMetadata.mk n s url author branch action)
  else if String.eqb f "pr_url" then s ← into_string v url; Some (PRMetadata.mk n repo s author branch action)
  else if String.eqb f "author" then s ← into_string v author; Some (PRMetadata.mk n repo url s branch action)
  else if String.eqb f "branch" then s ← into_string v branch; Some (PRMetadata.mk n repo url author s action)
  else if String.eqb f "event_action" then s ← into_string v action; Some (PRMetadata.mk n repo url author branch s)
  else Some x.

Definition into_PRMetadata : value → PRMetadata.t → option PRMetadata.t :=
  into_struct ["pr_number"; "repository"; "pr_url"; "author"; "branch"; "event_action"]
              set_PRMetadata.

Definition Unmarshal_PRMetadata (data : list N) : option PRMetadata.t :=
  Unmarshal into_PRMetadata PRMetadata.zero data.

Definition set_CommandMetadata (f : string) (v : value) (x : CommandMetadata.t)
  : option CommandMetadata.t :=
  let '(CommandMetadata.mk ch ts) := x in
  if String.eqb f "channel" then s ← into_string v ch; Some (CommandMetadata.mk s ts)
  else if String.eqb f "ts" then s ← into_string v ts; Some (CommandMetadata.mk ch s)
  else Some x.

Definition into_CommandMetadata : value → CommandMetadata.t → option CommandMetadata.t :=
  into_struct ["channel"; "ts"] set_CommandMetadata.

Definition set_CommandOutput (f : string) (v : value) (x : CommandOutput.t)
  : option CommandOutput.t :=
  let '(CommandOutput.mk md ty cmd out) := x in
  if String.eqb f "metadata" then
    m ← into_pointer CommandMetadata.zero into_CommandMetadata v md;
    Some (CommandOutput.mk m ty cmd out)
  else if String.eqb f "type" then s ← into_string v ty; Some (CommandOutput.mk md s cmd out)
  else if String.eqb f "command" then s ← into_string v cmd; Some (CommandOutput.mk md ty s out)
  else if String.eqb f "output" then s ← into_string v out; Some (CommandOutput.mk md ty cmd s)
  else Some x.

Definition into_CommandOutput : value → CommandOutput.t → option CommandOutput.t :=
  into_struct ["metadata"; "type"; "command"; "output"] set_CommandOutput.

Definition Unmarshal_CommandOutput (data : list N) : option CommandOutput.t :=
  Unmarshal into_CommandOutput CommandOutput.zero data.

Definition set_PoppitCommand (f : string) (v : value) (x : PoppitCommand.t)
  : option PoppitCommand.t :=
  let '(PoppitCommand.mk repo branch ty dir cmds md) := x in
  if String.eqb f "repo" then s ← into_string v repo; Some (PoppitCommand.mk s branch ty dir cmds md)
  else if String.eqb f "branch" then s ← into_string v branch; Some (PoppitCommand.mk repo s ty dir cmds md)
  else if String.eqb f "type" then s ← into_string v ty; Some (PoppitCommand.mk repo branch s dir cmds md)
  else if String.eqb f "dir" then s ← into_string v dir; Some (PoppitCommand.mk repo branch ty s cmds md)
  else if String.eqb f "commands" then
    c ← into_nilable_slice "" into_string v cmds;
    Some (PoppitCommand.mk repo branch ty dir c md)
  else if String.eqb f "metadata" then
    m ← into_pointer CommandMetadata.zero into_CommandMetadata v md;
    Some (PoppitCommand.mk repo branch ty dir cmds m)
  else Some x.

Definition into_PoppitCommand : value → PoppitCommand.t → option PoppitCommand.t :=
  into_struct ["repo"; "branch"; "type"; "dir"; "commands"; "metadata"] set_PoppitCommand.

Definition Unmarshal_PoppitCommand (data : list N) : option PoppitCommand.t :=
  Unmarshal into_PoppitCommand PoppitCommand.zero data.

(** Encoding: the fields in the order of the struct, under their tag
    names; an [omitempty] field is left out when it is nil or false. *)
Definition CommandMetadata_to_json (m : CommandMetadata.t) : value :=
  JObject [("channel", JString (CommandMetadata.Channel m));
           ("ts", JString (CommandMetadata.Ts m))].

Definition PoppitCommand_to_json (c : PoppitCommand.t) : value :=
  JObject ([("repo", JString (PoppitCommand.Repo c));
            ("branch", JString (PoppitCommand.Branch c));
            ("type", JString (PoppitCommand.Type_ c));
            ("dir", JString (PoppitCommand.Dir c));
            ("commands", match PoppitCommand.Commands c with
                         | None => JNull
                         | Some l => JArray (List.map JString l)
                         end)]
           ++ match PoppitCommand.Metadata c with
              | None => []
              | Some m => [("metadata", CommandMetadata_to_json m)]
              end).

Definition Marshal_PoppitCommand (c : PoppitCommand.t) : list N :=
  render (PoppitCommand_to_json c).

Definition SlackReaction_to_json (r : SlackReaction.t) : value :=
  JObject ([("reaction", JString (SlackReaction.Reaction r));
            ("channel", JString (SlackReaction.Channel r));
            ("ts", JString (SlackReaction.Ts r))]
           ++ if SlackReaction.Remove r then [("remove", JBool true)] else []).

Definition Marshal_SlackReaction (r : SlackReaction.t) : list N :=
  render (SlackReaction_to_json r).

(** A [map[string]interface{}] that was itself decoded from JSON: its
    entries as a list, encoded with the keys of every map sorted. *)
Definition Marshal_map (m : list (string * value)) : list N :=
  render (sort_keys (JObject m)).

End wire.

(** ** The outside world *)

(** An [error] is its message. *)
Definition error := string.

Module slack.
Record GetConversationHistoryParameters := mkParams {
  ChannelID : string;
  Latest : string;
  Inclusive : bool;
  Limit : Z;
  IncludeAllMetadata : bool
}.
(** [EventPayload] is a [map[string]interface{}] decoded from the
    response of the API: the list of its entries, which a map holds under
    distinct keys.  A number of the map is a float64; it stands here as the
    literal that [json.Marshal] writes for it. *)
Record SlackMetadata := mkMetadata {
  EventType : string;
  EventPayload : list (string * json.value)
}.
Record Message := mkMessage { Metadata : SlackMetadata }.
Record GetConversationHistoryResponse := mkResponse { Messages : list Message }.

(** The client, as the answer it gives to [GetConversationHistory]. *)
Definition Client : Type :=
  GetConversationHistoryParameters → GetConversationHistoryResponse * option error.
End slack.

Module os.
(** What a path names, as [Stat] and [ReadFile] see it. *)
Inductive entry :=
| NotExist
| Unreadable (err : error)
| File (data : list N).

Definition FileSystem : Type := string → entry.

(** [os.IsNotExist(err)] for the error of [os.Stat(path)]. *)
Definition Stat_IsNotExist (fs : FileSystem) (path : string) : bool :=
  match fs path with NotExist => true | _ => false end.

Definition ReadFile (fs : FileSystem) (path : string) : list N * option error :=
  match fs path with
  | File data => (data, None)
  | Unreadable err => ([], Some err)
  | NotExist => ([], Some "no such file or directory")
  end.
End os.

(** One call of [RPush] on the Redis client. *)
Record RPushCall := mkRPush {
  rp_key : string;
  rp_payload : list N;
  rp_ok : bool
}.

(** The Redis server behind the shared client.  [redis_script] says for
    each coming [RPush] whether it succeeds; once it is used up every call
    succeeds.  [redis_calls] is every [RPush] issued so far, in order. *)
Record Redis := mkRedis {
  redis_script : list bool;
  redis_calls : list RPushCall;
  redis_lists : gmap string (list (list N))
}.

Definition Redis_RPush (key : string) (payload : list N) (r : Redis)
  : option error * Redis :=
  let ok := hd true (redis_script r) in
  (if ok then None else Some "redis: connection refused",
   mkRedis (tl (redis_script r))
           (redis_calls r ++ [mkRPush key payload ok])
           (if ok then <[key := default [] (redis_lists r !! key) ++ [payload]]> (redis_lists r)
            else redis_lists r)).

(** The state the program runs in: the log and the Redis server. *)
Record World := mkWorld {
  currentLogLevel : LogLevel;
  log_lines : list (LogLevel * string);
  redis : Redis
}.

Definition M (A : Type) : Type := World → A * World.

Definition ret {A : Type} (x : A) : M A := fun w => (x, w).

Definition bind {A B : Type} (m : M A) (k : A → M B) : M B :=
  fun w => let '(x, w') := m w in k x w'.

#[global] Instance M_ret : MRet M := @ret.
#[global] Instance M_bind : MBind M := fun A B k m => bind m k.

(** The world after running [m]. *)
Definition exec {A : Type} (m : M A) (w : World) : World := snd (m w).

(** [log.Printf] of a line at [level], when the current level lets it
    through.  A line is kept as its format string. *)
Definition logAt (level : LogLevel) (format : string) : M unit :=
  fun w =>
    if LogLevel_rank (currentLogLevel w) <=? LogLevel_rank level then
      (tt, mkWorld (currentLogLevel w) (log_lines w ++ [(level, format)]) (redis w))
    else (tt, w).

Definition logDebug : string → M unit := logAt DEBUG.
Definition logInfo : string → M unit := logAt INFO.
Definition logWarn : string → M unit := logAt WARN.
Definition logError : string → M unit := logAt ERROR.

(** [redisClient.RPush(ctx, key, payload).Err()] *)
Definition RPush (key : string) (payload : list N) : M (option error) :=
  fun w =>
    let '(err, r) := Redis_RPush key payload (redis w) in
    (err, mkWorld (currentLogLevel w) (log_lines w) r).

(** ** The program *)

(** [yaml.Unmarshal] into an [AllowedReposConfig]. *)
Definition yaml_decoder : Type := list N → AllowedReposConfig.t * option error.

(** The set built by the loop [allowedRepos[repo] = true]. *)
Definition repos_to_map (repos : list string) : gmap string bool :=
  fold_left (fun m repo => <[repo := true]> m) repos ∅.

Definition loadAllowedRepos (yaml_Unmarshal : yaml_decoder) (fs : os.FileSystem)
    (configPath : string) : M (option (gmap string bool) * option error) :=
  if String.eqb configPath "" then
    logInfo "No allowed repos config specified, allowing all repositories";;
    ret (None, None)
  else if os.Stat_IsNotExist fs configPath then
    logInfo "Allowed repos config file not found at %s, allowing all repositories";;
    ret (None, None)
  else
    match os.ReadFile fs configPath with
    | (_, Some err) => ret (None, Some ("failed to read allowed repos config: " +:+ err))
    | (data, None) =>
      match yaml_Unmarshal data with
      | (_, Some err) => ret (None, Some ("failed to parse allowed repos config: " +:+ err))
      | (config, None) =>
        let allowedRepos := repos_to_map (AllowedReposConfig.AllowedRepos config) in
        logInfo "Loaded %d allowed repositories from config";;
        ret (Some allowedRepos, None)
      end
    end.

(** [allowedRepos] is a [map[string]bool]; [None] is the nil map. *)
Definition isRepoAllowed (repo : string) (allowedRepos : option (gmap string bool)) : bool :=
  match allowedRepos with
  | None => true
  | Some m => default false (m !! repo)
  end.

Definition getMessageMetadata (slackClient : slack.Client) (channel timestamp : string)
    : option PRMetadata.t * option error :=
  let historyParams := slack.mkParams channel timestamp true 1%Z true in
  match slackClient historyParams with
  | (_, Some err) => (None, Some ("failed to get conversation history: " +:+ err))
  | (history, None) =>
    match slack.Messages history with
    | [] => (None, Some "no messages found")
    | message :: _ =>
      match slack.EventPayload (slack.Metadata message) with
      | [] => (None, None)
      | payload =>
        (* Marshal cannot fail on a map that was decoded from JSON *)
        let metadataJSON := wire.Marshal_map payload in
        match wire.Unmarshal_PRMetadata metadataJSON with
        | None => (None, Some "failed to parse PR metadata: json: cannot unmarshal")
        | Some metadata =>
          if String.eqb (PRMetadata.Repository metadata) ""
             || String.eqb (PRMetadata.Branch metadata) ""
          then (None, None)
          else (Some metadata, None)
        end
      end
    end
  end.

Definition createPoppitCommand (metadata : PRMetadata.t) (config : Config.t)
    (channel timestamp : string) : PoppitCommand.t :=
  let dir := Config.BaseDir config +:+ "/" +:+ PRMetadata.Repository metadata in
  PoppitCommand.mk
    (PRMetadata.Repository metadata)
    (PRMetadata.Branch metadata)
    VibeDeployType
    dir
    (Some [ "git fetch origin";
            "git checkout " +:+ PRMetadata.Branch metadata;
            "git pull";
            "docker compose build";
            "docker compose down";
            DeploymentCommand;
            "git checkout main" ])
    (Some (CommandMetadata.mk channel timestamp)).

Definition publishPoppitCommand (cmd : PoppitCommand.t) (config : Config.t)
    : M (option error) :=
  let payload := wire.Marshal_PoppitCommand cmd in
  err ← RPush (Config.RedisListName config) payload;
  match err with
  | Some e => ret (Some ("failed to push to Redis list: " +:+ e))
  | None => ret None
  end.

Definition publishSlackReaction (channel timestamp reaction : string) (remove : bool)
    (config : Config.t) : M (option error) :=
  let slackReaction := SlackReaction.mk reaction channel timestamp remove in
  let payload := wire.Marshal_SlackReaction slackReaction in
  err ← RPush (Config.RedisReactionList config) payload;
  match err with
  | Some e => ret (Some ("failed to push to Redis list: " +:+ e))
  | None => ret None
  end.

(** The loop over [event.Authorizations]: is the reaction the bot's own? *)
Definition fromBot (event : ReactionEvent.t) : bool :=
  existsb (fun auth =>
             ReactionEvent.IsBot auth
             && String.eqb (ReactionEvent.UserID auth)
                           (ReactionEvent.User (ReactionEvent.Event event)))
          (ReactionEvent.Authorizations event).

Definition processReactionEvent (payload : string) (slackClient : slack.Client)
    (config : Config.t) (allowedRepos : option (gmap string bool)) : M unit :=
  match wire.Unmarshal_ReactionEvent (bytes_of_string payload) with
  | None => logError "Error parsing reaction event: %v"
  | Some event =>
    let ev := ReactionEvent.Event event in
    let channel := ReactionEvent.Channel (ReactionEvent.Item ev) in
    let ts := ReactionEvent.Ts (ReactionEvent.Item ev) in
    if negb (String.eqb (ReactionEvent.Reaction ev) RocketReaction) then
      logDebug "Ignoring reaction: %s (not %s)"
    else if negb (String.eqb (ReactionEvent.Item_Type (ReactionEvent.Item ev)) "message") then
      logDebug "Ignoring item type: %s (not message)"
    else if fromBot event then
      logInfo "Ignoring %s reaction from bot user %s on message %s in channel %s"
    else
      logInfo "Processing %s reaction on message %s in channel %s";;
      match getMessageMetadata slackClient channel ts with
      | (_, Some err) => logError "Error getting message metadata: %v"
      | (None, None) => logDebug "No PR metadata found in message, skipping"
      | (Some metadata, None) =>
        logInfo "Found PR metadata: %s #%d (branch: %s)";;
        if negb (isRepoAllowed (PRMetadata.Repository metadata) allowedRepos) then
          logInfo "Repository %s is not in the allowed list, ignoring reaction"
        else
          err ← publishSlackReaction channel ts GearReaction false config;
          match err with
          | Some _ => logError "Error publishing gear reaction: %v"
          | None => logInfo "Published gear reaction for channel %s, message %s"
          end;;
          let poppitCmd := createPoppitCommand metadata config channel ts in
          err ← publishPoppitCommand poppitCmd config;
          match err with
          | Some _ => logError "Error publishing Poppit command: %v"
          | None => logInfo "Successfully published Poppit command for %s branch %s"
          end
      end
  end.

Definition processCommandOutput (payload : string) (config : Config.t) : M unit :=
  match wire.Unmarshal_CommandOutput (bytes_of_string payload) with
  | None => logError "Error parsing command output: %v"
  | Some output =>
    if negb (String.eqb (CommandOutput.Type_ output) VibeDeployType) then
      logDebug "Ignoring command output type: %s (not %s)"
    else if negb (String.eqb (CommandOutput.Command output) DeploymentCommand) then
      logDebug "Ignoring command: %s (not %s)"
    else
      match CommandOutput.Metadata output with
      | None =>
        logWarn "Command output missing metadata (channel and timestamp required), cannot send reaction"
      | Some md =>
        let channel := CommandMetadata.Channel md in
        let ts := CommandMetadata.Ts md in
        logInfo "Processing completion for %s in channel %s, message %s";;
        err ← publishSlackReaction channel ts GearReaction true config;
        match err with
        | Some _ => logError "Error removing gear reaction: %v"
        | None => logInfo "Removed gear reaction for channel %s, message %s"
        end;;
        err ← publishSlackReaction channel ts RocketReaction false config;
        match err with
        | Some _ => logError "Error publishing rocket reaction: %v"
        | None => logInfo "Successfully published rocket reaction for channel %s, message %s"
        end
      end
  end.

(** ** Configuration and log levels *)

(** [LogLevel.String] on the four levels. *)
Definition LogLevel_String (l : LogLevel) : string :=
  match l with
  | DEBUG => "DEBUG"
  | INFO => "INFO"
  | WARN => "WARN"
  | ERROR => "ERROR"
  end.

Module strings.

(** Is every byte of [s] below [utf8.RuneSelf]? *)
Definition isASCII (s : string) : bool :=
  forallb (fun b => b <? utf8.RuneSelf) (bytes_of_string s).

(** An ASCII letter a-z becomes A-Z. *)
Definition upper_byte (c : ascii) : ascii :=
  if in_range 97 122 (N_of_ascii c) then ascii_of_N (N_of_ascii c - 32) else c.

Fixpoint map_bytes (f : ascii → ascii) (s : string) : string :=
  match s with
  | EmptyString => EmptyString
  | String c s' => String (f c) (map_bytes f s')
  end.

(** [strings.ToUpper]: a string that is all ASCII has its letters a-z
    replaced by A-Z; any other string goes through
    [strings.Map(unicode.ToUpper, s)], which is the argument [unicode_upper]. *)
Definition ToUpper (unicode_upper : string → string) (s : string) : string :=
  if isASCII s then map_bytes upper_byte s else unicode_upper s.

End strings.

Definition parseLogLevel (unicode_upper : string → string) (level : string) : LogLevel :=
  let upper := strings.ToUpper unicode_upper level in
  if String.eqb upper "DEBUG" then DEBUG
  else if String.eqb upper "INFO" then INFO
  else if String.eqb upper "WARN" then WARN
  else if String.eqb upper "ERROR" then ERROR
  else INFO.

(** The environment, as [os.Getenv] reads it: the empty string for a
    variable that is not set. *)
Definition environ : Type := string → string.

Definition getEnv (env : environ) (key defaultValue : string) : string :=
  let value := env key in
  if negb (String.eqb value "") then value else defaultValue.

Definition loadConfig (unicode_upper : string → string) (env : environ) : Config.t :=
  let logLevel := parseLogLevel unicode_upper (getEnv env "LOG_LEVEL" "INFO") in
  Config.mk
    (getEnv env "REDIS_ADDR" "localhost:6379")
    (getEnv env "REDIS_PASSWORD" "")
    (getEnv env "SLACK_BOT_TOKEN" "")
    (getEnv env "BASE_DIR" "/app/repos")
    (getEnv env "REDIS_PUBSUB_CHANNEL" "slack-relay-reaction-added")
    (getEnv env "REDIS_LIST_NAME" "poppit-commands")
    (getEnv env "REDIS_OUTPUT_CHANNEL" "poppit:command-output")
    (getEnv env "REDIS_REACTION_LIST" "slack_reactions")
    logLevel
    (getEnv env "ALLOWED_REPOS_CONFIG" "").

(** ** The two loops *)

(** One round of the [select] of a loop: the context is done, or the
    subscription delivers a message, which may be nil. *)
Inductive delivery :=
| Done
| Received (msg : option string).

(** The [for] loop of [listenForCommandOutput], over the rounds of its
    [select]; when the rounds are used up the loop is left waiting. *)
Fixpoint listenForCommandOutput_loop (config : Config.t) (rounds : list delivery)
    : M unit :=
  match rounds with
  | [] => ret tt
  | Done :: _ => logInfo "Command output listener context cancelled, exiting"
  | Received None :: rounds' => listenForCommandOutput_loop config rounds'
  | Received (Some payload) :: rounds' =>
    logDebug "Received command output message from channel: %s";;
    processCommandOutput payload config;;
    listenForCommandOutput_loop config rounds'
  end.

Definition listenForCommandOutput (config : Config.t) (rounds : list delivery) : M unit :=
  logInfo "Subscribed to Redis channel: %s";;
  listenForCommandOutput_loop config rounds.

(** The [for] loop at the end of [main]. *)
Fixpoint main_loop (slackClient : slack.Client) (config : Config.t)
    (allowedRepos : option (gmap string bool)) (rounds : list delivery) : M unit :=
  match rounds with
  | [] => ret tt
  | Done :: _ => logInfo "Context cancelled, exiting"
  | Received None :: rounds' => main_loop slackClient config allowedRepos rounds'
  | Received (Some payload) :: rounds' =>
    logDebug "Received message from channel: %s";;
    processReactionEvent payload slackClient config allowedRepos;;
    main_loop slackClient config allowedRepos rounds'
  end.

(** ** Start-up *)

(** How the start of [main] ends: in [log.Fatal], or with what the loops
    are then given. *)
Inductive started :=
| Fatal (msg : string)
| Ready (config : Config.t) (allowedRepos : option (gmap string bool))
        (slackClient : slack.Client).

(** [currentLogLevel = level] *)
Definition setLogLevel (level : LogLevel) : M unit :=
  fun w => (tt, mkWorld level (log_lines w) (redis w)).

(** [main] up to the point where it starts its goroutines and enters its
    loop.  [Ping] is the answer of Redis to the ping and [slack_New] is
    [slack.New]. *)
Definition main_startup (unicode_upper : string → string) (env : environ)
    (yaml_Unmarshal : yaml_decoder) (fs : os.FileSystem)
    (Ping : option error) (slack_New : string → slack.Client) : M started :=
  let config := loadConfig unicode_upper env in
  setLogLevel (Config.LogLevel config);;
  if String.eqb (Config.SlackToken config) "" then
    ret (Fatal "SLACK_BOT_TOKEN environment variable is required")
  else
    '(allowedRepos, err) ← loadAllowedRepos yaml_Unmarshal fs (Config.AllowedReposConfig config);
    match err with
    | Some e => ret (Fatal ("Failed to load allowed repos configuration: " +:+ e))
    | None =>
      match Ping with
      | Some e => ret (Fatal ("Failed to connect to Redis: " +:+ e))
      | None =>
        logInfo "Connected to Redis at %s";;
        let slackClient := slack_New (Config.SlackToken config) in
        logInfo "Subscribed to Redis channel: %s (log level: %s)";;
        ret (Ready config allowedRepos slackClient)
      end
    end.

(** The world [w] with the coming outcomes of [RPush] replaced. *)
Definition with_script (script : list bool) (w : World) : World :=
  mkWorld (currentLogLevel w) (log_lines w)
          (mkRedis script (redis_calls (redis w)) (redis_lists (redis w))).

(** What a call of [RPush] asked for, without its outcome. *)
Definition rp_request (c : RPushCall) : string * list N := (rp_key c, rp_payload c).

(** ** Sample inputs *)

Module Sample.
Import json.

Definition config : Config.t :=
  Config.mk "localhost:6379" "" "xoxb-token" "/app/repos" "slack-relay-reaction-added"
            "poppit-commands" "poppit:command-output" "slack_reactions" INFO "".

Definition world : World := mkWorld INFO [] (mkRedis [] [] ∅).

(** A world whose next [RPush] fails. *)
Definition world_redis_down : World := mkWorld INFO [] (mkRedis [false] [] ∅).

Definition reaction_json (user reaction item_type : string)
    (auths : list (string * bool)) : value :=
  JObject [("event", JObject [("type", JString "reaction_added");
                              ("user", JString user);
                              ("reaction", JString reaction);
                              ("item", JObject [("type", JString item_type);
                                                ("channel", JString "C1");
                                                ("ts", JString "100.1")])]);
           ("authorizations",
            JArray (List.map (fun a => JObject [("user_id", JString (fst a));
                                                ("is_bot", JBool (snd a))]) auths))].

Definition payload_of (v : value) : string := string_of_bytes (render v).

(** A rocket on a message, by a user. *)
Definition rocket_payload : string :=
  payload_of (reaction_json "U1" "rocket" "message" [("B1", true)]).

Definition rocket_event : ReactionEvent.t :=
  ReactionEvent.mk
    (ReactionEvent.mkEvent "reaction_added" "U1" "rocket"
       (ReactionEvent.mkItem "message" "C1" "100.1"))
    [ReactionEvent.mkAuthorization "B1" true].

(** A rocket on a message, by the bot itself. *)
Definition bot_payload : string :=
  payload_of (reaction_json "B1" "rocket" "message" [("B1", true)]).

Definition bot_event : ReactionEvent.t :=
  ReactionEvent.mk
    (ReactionEvent.mkEvent "reaction_added" "B1" "rocket"
       (ReactionEvent.mkItem "message" "C1" "100.1"))
    [ReactionEvent.mkAuthorization "B1" true].

Definition pr_metadata : PRMetadata.t :=
  PRMetadata.mk 42 "org/app" "" "" "feat/x" "".

(** A chat API that answers with one message carrying [payload]. *)
Definition slack_with (payload : list (string * value)) : slack.Client :=
  fun _ => (slack.mkResponse [slack.mkMessage (slack.mkMetadata "pr_event" payload)], None).

Definition pr_slack : slack.Client :=
  slack_with [("pr_number", JNumber (bytes_of_string "42"));
              ("repository", JString "org/app");
              ("branch", JString "feat/x")].

(** A message of another application: its metadata has a repository
    member that is an object. *)
Definition foreign_slack : slack.Client :=
  slack_with [("repository", JObject [("name", JString "app")])].

(** A completion notice of the executor. *)
Definition notice_json (ty command output : string) : value :=
  JObject [("metadata", JObject [("channel", JString "C1"); ("ts", JString "100.1")]);
           ("type", JString ty);
           ("command", JString command);
           ("output", JString output)].

Definition notice_payload : string :=
  payload_of (notice_json "vibe-deploy" "docker compose up -d" "Container app  Started").

Definition notice : CommandOutput.t :=
  CommandOutput.mk (Some (CommandMetadata.mk "C1" "100.1")) "vibe-deploy"
                   "docker compose up -d" "Container app  Started".

Definition failed_notice_payload : string :=
  payload_of (notice_json "vibe-deploy" "docker compose up -d" "Error: port is already allocated").

Definition failed_notice : CommandOutput.t :=
  CommandOutput.mk (Some (CommandMetadata.mk "C1" "100.1")) "vibe-deploy"
                   "docker compose up -d" "Error: port is already allocated".

End Sample.

Module SampleFiles.
(** A file system with an allowlist file at [/etc/vibedeploy/allowed.yaml]. *)
Definition fs : os.FileSystem :=
  fun path =>
    if String.eqb path "/etc/vibedeploy/allowed.yaml"
    then os.File (bytes_of_string "allowed_repos: []")
    else os.NotExist.

(** A YAML decoder that finds no repository in that file. *)
Definition yaml_Unmarshal : yaml_decoder :=
  fun data => (AllowedReposConfig.mk [], None).
End SampleFiles.

(** ** Exhaustive checks over byte ranges *)

Module Exhaust.

(** The [n] values from [lo] on. *)
Definition N_range (lo : N) (n : nat) : list N :=
  List.map (fun i => lo + N.of_nat i) (seq 0 n).

Fixpoint eqb_bytes (a b : list N) : bool :=
  match a, b with
  | [], [] => true
  | x :: a', y :: b' => (x =? y) && eqb_bytes a' b'
  | _, _ => false
  end.

(** Decoding [bs] as one rune of its full width and encoding the rune
    gives [bs] back, whenever [bs] decodes at its full width. *)
Definition reencodes (bs : list N) : bool :=
  let '(c, size) := utf8.DecodeRune bs in
  negb (size =? length bs)%nat || eqb_bytes (utf8.EncodeRune c) bs.

Definition conts : list N := N_range 128 64.

Definition check2 : bool :=
  forallb (fun p0 => forallb (fun b1 => reencodes [p0; b1]) conts) (N_range 194 30).

Definition check3 : bool :=
  forallb (fun p0 =>
    forallb (fun b1 =>
      forallb (fun b2 => reencodes [p0; b1; b2]) conts) conts) (N_range 224 16).

(** An escaped ASCII byte reads back as itself. *)
Definition check_hex : bool :=
  forallb (fun b =>
    bool_decide (json.getu4 [json.c_bslash; json.c_u; json.c_0; json.c_0;
                             json.hex (N.shiftr b 4); json.hex (N.land b 15)]
                 = Some b)) (N_range 0 128).

End Exhaust.

(** ** What a round trip through JSON does to a value *)

Module Coerce.
Import json.

(** The text read back from the encoding of [src]: every byte that is
    not part of a valid UTF-8 sequence is replaced by U+FFFD. *)
Fixpoint coerce_loop (fuel : nat) (src : list N) : list N :=
  match fuel with
  | O => []
  | S fuel' =>
    match src with
    | [] => []
    | b :: rest =>
      if b <? utf8.RuneSelf then b :: coerce_loop fuel' rest
      else
        let '(c, size) := utf8.DecodeRune src in
        if (c =? utf8.RuneError) && (size =? 1)%nat then
          utf8.EncodeRune utf8.RuneError ++ coerce_loop fuel' (drop size src)
        else take size src ++ coerce_loop fuel' (drop size src)
    end
  end.

Definition coerce_bytes (b : list N) : list N := coerce_loop (length b) b.

Definition coerce (s : string) : string :=
  string_of_bytes (coerce_bytes (bytes_of_string s)).

Fixpoint coerce_value (v : value) : value :=
  match v with
  | JString s => JString (coerce s)
  | JArray elems => JArray (List.map coerce_value elems)
  | JObject members =>
    JObject (List.map (fun kv => (coerce (fst kv), coerce_value (snd kv))) members)
  | _ => v
  end.

(** Trees without number literals. *)
Fixpoint number_free (v : value) : bool :=
  match v with
  | JNumber _ => false
  | JArray elems => forallb number_free elems
  | JObject members => forallb (fun kv => number_free (snd kv)) members
  | _ => true
  end.

(** The number of nodes of a tree, and how deep its arrays and objects nest. *)
Fixpoint size (v : value) : nat :=
  match v with
  | JArray elems => S (list_sum (List.map (fun x => S (size x)) elems))
  | JObject members => S (list_sum (List.map (fun kv => S (size (snd kv))) members))
  | _ => 1
  end.

Fixpoint height (v : value) : N :=
  match v with
  | JArray elems => N.succ (fold_right N.max 0 (List.map height elems))
  | JObject members =>
    N.succ (fold_right N.max 0 (List.map (fun kv => height (snd kv)) members))
  | _ => 0
  end.

(** The text between the brackets of an array and between the braces
    of an object, as [render] writes them. *)
Fixpoint render_elems (l : list value) : list N :=
  match l with
  | [] => []
  | [x] => render x
  | x :: l' => render x ++ c_comma :: render_elems l'
  end.

Fixpoint render_members (l : list (string * value)) : list N :=
  match l with
  | [] => []
  | [(k, x)] => appendString k ++ c_colon :: render x
  | (k, x) :: l' => appendString k ++ c_colon :: render x ++ c_comma :: render_members l'
  end.

Definition coerce_CommandMetadata (m : CommandMetadata.t) : CommandMetadata.t :=
  CommandMetadata.mk (coerce (CommandMetadata.Channel m)) (coerce (CommandMetadata.Ts m)).

Definition coerce_PoppitCommand (c : PoppitCommand.t) : PoppitCommand.t :=
  PoppitCommand.mk
    (coerce (PoppitCommand.Repo c))
    (coerce (PoppitCommand.Branch c))
    (coerce (PoppitCommand.Type_ c))
    (coerce (PoppitCommand.Dir c))
    (List.map coerce <$> PoppitCommand.Commands c)
    (coerce_CommandMetadata <$> PoppitCommand.Metadata c).

End Coerce.


Module ExhaustRunes.

(** [f] holds of the [n] values from [lo] on. *)
Definition forallb_step (f : N → bool) (st : bool * N) : bool * N :=
  (fst st && f (snd st), N.succ (snd st)).

Definition forallb_from (f : N → bool) (lo n : N) : bool :=
  fst (N.iter n (forallb_step f) (true, lo)).

(** The encoding of a rune outside ASCII is a sequence of two to four
    bytes above 127 that decodes at its full width. *)
Definition encodes_well (r : N) : bool :=
  let bs := utf8.EncodeRune r in
  (2 <=? length bs)%nat
  && (snd (utf8.DecodeRune bs) =? length bs)%nat
  && forallb (fun b => (128 <=? b) && (b <? 256)) bs.

End ExhaustRunes.

Module Validity.
Import json.

(** Every string of a tree, keys included, is valid UTF-8. *)
Fixpoint strings_valid (v : value) : bool :=
  match v with
  | JString s => utf8.ValidString s
  | JArray elems => forallb strings_valid elems
  | JObject members =>
    forallb (fun kv => utf8.ValidString (fst kv) && strings_valid (snd kv)) members
  | _ => true
  end.

End Validity.

(** ** Vocabulary of the further properties *)

(** [w'] is [w] with more behind it: the same log level, and the log, the
    calls of [RPush] and every Redis list of [w] extended at their ends. *)
Definition extends (w w' : World) : Prop :=
  currentLogLevel w' = currentLogLevel w
  ∧ log_lines w `prefix_of` log_lines w'
  ∧ redis_calls (redis w) `prefix_of` redis_calls (redis w')
  ∧ ∀ key, default [] (redis_lists (redis w) !! key)
           `prefix_of` default [] (redis_lists (redis w') !! key).

(** A computation that only appends. *)
Definition appends {A : Type} (m : M A) : Prop := ∀ w, extends w (snd (m w)).

(** The lines of [lines] that [log.Printf] gets to see when the current
    level is [level]. *)
Definition visible (level : LogLevel) (lines : list (LogLevel * string))
  : list (LogLevel * string) :=
  List.filter (fun line => LogLevel_rank level <=? LogLevel_rank (fst line)) lines.

(** The world [w] with [lines] offered to the log. *)
Definition logged (lines : list (LogLevel * string)) (w : World) : World :=
  mkWorld (currentLogLevel w) (log_lines w ++ visible (currentLogLevel w) lines) (redis w).

(** The world [w] after an [RPush]. *)
Definition pushed (key : string) (payload : list N) (w : World) : World :=
  mkWorld (currentLogLevel w) (log_lines w) (snd (Redis_RPush key payload (redis w))).

(** The lines the log of [w'] has after those of [w]. *)
Definition new_lines (w w' : World) : list (LogLevel * string) :=
  drop (length (log_lines w)) (log_lines w').

(** The world [w] logging at [level]. *)
Definition with_level (level : LogLevel) (w : World) : World :=
  mkWorld level (log_lines w) (redis w).

(** Does the allowlist file at [configPath] make [loadAllowedRepos] fail? *)
Definition allowlist_unusable (yaml_Unmarshal : yaml_decoder) (fs : os.FileSystem)
    (configPath : string) : Prop :=
  configPath ≠ ""
  ∧ ((∃ err, fs configPath = os.Unreadable err)
     ∨ ∃ data cfg err, fs configPath = os.File data
                       ∧ yaml_Unmarshal data = (cfg, Some err)).

(** The payloads a loop gets to handle: those delivered before the
    context is done. *)
Fixpoint served (rounds : list delivery) : list string :=
  match rounds with
  | [] => []
  | Done :: _ => []
  | Received None :: rounds' => served rounds'
  | Received (Some payload) :: rounds' => payload :: served rounds'
  end.

(** Is [payload] the notice of a go-live, with a correlation block? *)
Definition announces (payload : string) : bool :=
  match wire.Unmarshal_CommandOutput (bytes_of_string payload) with
  | None => false
  | Some output =>
    String.eqb (CommandOutput.Type_ output) VibeDeployType
    && String.eqb (CommandOutput.Command output) DeploymentCommand
    && bool_decide (is_Some (CommandOutput.Metadata output))
  end.

(** Does [payload] pass every gate of [processReactionEvent]? *)
Definition deploys (slackClient : slack.Client)
    (allowedRepos : option (gmap string bool)) (payload : string) : bool :=
  match wire.Unmarshal_ReactionEvent (bytes_of_string payload) with
  | None => false
  | Some event =>
    let ev := ReactionEvent.Event event in
    String.eqb (ReactionEvent.Reaction ev) RocketReaction
    && String.eqb (ReactionEvent.Item_Type (ReactionEvent.Item ev)) "message"
    && negb (fromBot event)
    && match getMessageMetadata slackClient
               (ReactionEvent.Channel (ReactionEvent.Item ev))
               (ReactionEvent.Ts (ReactionEvent.Item ev)) with
       | (Some metadata, None) => isRepoAllowed (PRMetadata.Repository metadata) allowedRepos
       | _ => false
       end
  end.

(** The channel and ts of an item are valid UTF-8. *)
Definition item_valid (x : ReactionEvent.item) : Prop :=
  utf8.ValidString (ReactionEvent.Channel x) = true
  ∧ utf8.ValidString (ReactionEvent.Ts x) = true.

(** The channel and ts of a correlation block are valid UTF-8. *)
Definition block_valid (m : CommandMetadata.t) : Prop :=
  utf8.ValidString (CommandMetadata.Channel m) = true
  ∧ utf8.ValidString (CommandMetadata.Ts m) = true.

(** ** More sample inputs *)

Module Scenario.
Import json.

(** A thumbs-up on a message. *)
Definition thumbsup_payload : string :=
  Sample.payload_of (Sample.reaction_json "U1" "thumbsup" "message" []).

Definition thumbsup_event : ReactionEvent.t :=
  ReactionEvent.mk
    (ReactionEvent.mkEvent "reaction_added" "U1" "thumbsup"
       (ReactionEvent.mkItem "message" "C1" "100.1"))
    [].

(** The event of [Sample.rocket_payload] with another type. *)
Definition removed_payload : string :=
  Sample.payload_of
    (JObject [("event", JObject [("type", JString "reaction_removed");
                                 ("user", JString "U1");
                                 ("reaction", JString "rocket");
                                 ("item", JObject [("type", JString "message");
                                                   ("channel", JString "C1");
                                                   ("ts", JString "100.1")])]);
              ("authorizations",
               JArray [JObject [("user_id", JString "B1"); ("is_bot", JBool true)]])]).

Definition removed_event : ReactionEvent.t :=
  ReactionEvent.mk
    (ReactionEvent.mkEvent "reaction_removed" "U1" "rocket"
       (ReactionEvent.mkItem "message" "C1" "100.1"))
    [ReactionEvent.mkAuthorization "B1" true].

(** The notice of the build step of a deployment. *)
Definition build_notice_payload : string :=
  Sample.payload_of (Sample.notice_json "vibe-deploy" "docker compose build" "Built").

Definition build_notice : CommandOutput.t :=
  CommandOutput.mk (Some (CommandMetadata.mk "C1" "100.1")) "vibe-deploy"
                   "docker compose build" "Built".

(** The notice of a go-live that carries no correlation block. *)
Definition bare_notice_payload : string :=
  Sample.payload_of
    (JObject [("type", JString "vibe-deploy");
              ("command", JString "docker compose up -d");
              ("output", JString "Container app  Started")]).

Definition bare_notice : CommandOutput.t :=
  CommandOutput.mk None "vibe-deploy" "docker compose up -d" "Container app  Started".

(** An empty world that logs at [level] and whose coming pushes go as
    [script] says. *)
Definition world_with (level : LogLevel) (script : list bool) : World :=
  mkWorld level [] (mkRedis script [] ∅).

(** An environment with a token and a level, and one with nothing set. *)
Definition env : environ :=
  fun key =>
    if String.eqb key "SLACK_BOT_TOKEN" then "xoxb-token"
    else if String.eqb key "LOG_LEVEL" then "debug"
    else "".

Definition empty_env : environ := fun _ => "".

(** A file system whose allowlist file cannot be read. *)
Definition locked_fs : os.FileSystem :=
  fun path =>
    if String.eqb path "/etc/vibedeploy/allowed.yaml"
    then os.Unreadable "permission denied"
    else os.NotExist.

(** A file system with an allowlist file that lists two repositories. *)
Definition listing_fs : os.FileSystem :=
  fun path =>
    if String.eqb path "/etc/vibedeploy/allowed.yaml"
    then os.File (bytes_of_string "allowed_repos: [org/app, org/api]")
    else os.NotExist.

(** An environment that names that file. *)
Definition env_with_allowlist : environ :=
  fun key =>
    if String.eqb key "SLACK_BOT_TOKEN" then "xoxb-token"
    else if String.eqb key "ALLOWED_REPOS_CONFIG" then "/etc/vibedeploy/allowed.yaml"
    else "".

(** A YAML decoder that finds the two repositories of that file. *)
Definition yaml_two : yaml_decoder :=
  fun data => (AllowedReposConfig.mk ["org/app"; "org/api"], None).

End Scenario.

(** * Properties *)

(** ** Running the program: what logging and publishing do to Redis *)

Section Running.

Lemma logAt_redis level format w :
  redis (snd (logAt level format w)) = redis w.
Proof. unfold logAt. by destruct (_ <=? _). Qed.

Lemma exec_bind {A B : Type} (m : M A) (k : A → M B) w :
  exec (x ← m; k x) w = exec (k (fst (m w))) (snd (m w)).
Proof. unfold exec, mbind, M_bind, bind. by destruct (m w). Qed.

Lemma exec_logAt_redis level format w :
  redis (exec (logAt level format) w) = redis w.
Proof. apply logAt_redis. Qed.

Lemma exec_log_redis (err : option error) l1 f1 l2 f2 w :
  redis (exec (match err with Some _ => logAt l1 f1 | None => logAt l2 f2 end) w)
  = redis w.
Proof. destruct err; apply exec_logAt_redis. Qed.

Lemma RPush_redis key payload w :
  redis (snd (RPush key payload w)) = snd (Redis_RPush key payload (redis w)).
Proof. unfold RPush. by destruct (Redis_RPush _ _ _). Qed.

Lemma publishSlackReaction_redis channel ts reaction remove config w :
  redis (snd (publishSlackReaction channel ts reaction remove config w))
  = snd (Redis_RPush (Config.RedisReactionList config)
           (wire.Marshal_SlackReaction (SlackReaction.mk reaction channel ts remove))
           (redis w)).
Proof.
  unfold publishSlackReaction, mbind, M_bind, bind.
  rewrite <- RPush_redis.
  destruct (RPush _ _ w) as [[e|] w']; reflexivity.
Qed.

Lemma publishPoppitCommand_redis cmd config w :
  redis (snd (publishPoppitCommand cmd config w))
  = snd (Redis_RPush (Config.RedisListName config) (wire.Marshal_PoppitCommand cmd)
           (redis w)).
Proof.
  unfold publishPoppitCommand, mbind, M_bind, bind.
  rewrite <- RPush_redis.
  destruct (RPush _ _ w) as [[e|] w']; reflexivity.
Qed.

(** The two publishes of an accepted reaction. *)
Lemma deploy_redis metadata config channel ts w :
  redis (exec (err ← publishSlackReaction channel ts GearReaction false config;
               match err with
               | Some _ => logError "Error publishing gear reaction: %v"
               | None => logInfo "Published gear reaction for channel %s, message %s"
               end;;
               let poppitCmd := createPoppitCommand metadata config channel ts in
               err ← publishPoppitCommand poppitCmd config;
               match err with
               | Some _ => logError "Error publishing Poppit command: %v"
               | None => logInfo "Successfully published Poppit command for %s branch %s"
               end) w)
  = snd (Redis_RPush (Config.RedisListName config)
           (wire.Marshal_PoppitCommand (createPoppitCommand metadata config channel ts))
           (snd (Redis_RPush (Config.RedisReactionList config)
                   (wire.Marshal_SlackReaction (SlackReaction.mk GearReaction channel ts false))
                   (redis w)))).
Proof.
  rewrite exec_bind, exec_bind. cbv zeta. rewrite exec_bind.
  unfold logError, logInfo. rewrite exec_log_redis.
  rewrite publishPoppitCommand_redis.
  f_equal. f_equal.
  destruct (fst (publishSlackReaction _ _ _ _ _ _)); rewrite logAt_redis;
    apply publishSlackReaction_redis.
Qed.

End Running.

Section ReactionPipeline.

Variables (slackClient : slack.Client) (config : Config.t)
          (allowedRepos : option (gmap string bool)).

(** What the two publishes of an accepted reaction leave in Redis. *)
Local Abbreviation deployed metadata channel ts r :=
  (snd (Redis_RPush (Config.RedisListName config)
          (wire.Marshal_PoppitCommand (createPoppitCommand metadata config channel ts))
          (snd (Redis_RPush (Config.RedisReactionList config)
                  (wire.Marshal_SlackReaction (SlackReaction.mk GearReaction channel ts false))
                  r)))).

(** The Redis side of [processReactionEvent], gate by gate. *)
Lemma processReactionEvent_redis payload w :
  redis (exec (processReactionEvent payload slackClient config allowedRepos) w)
  = match wire.Unmarshal_ReactionEvent (bytes_of_string payload) with
    | None => redis w
    | Some event =>
      let ev := ReactionEvent.Event event in
      let channel := ReactionEvent.Channel (ReactionEvent.Item ev) in
      let ts := ReactionEvent.Ts (ReactionEvent.Item ev) in
      if negb (String.eqb (ReactionEvent.Reaction ev) RocketReaction) then redis w
      else if negb (String.eqb (ReactionEvent.Item_Type (ReactionEvent.Item ev)) "message")
      then redis w
      else if fromBot event then redis w
      else match getMessageMetadata slackClient channel ts with
           | (Some metadata, None) =>
             if isRepoAllowed (PRMetadata.Repository metadata) allowedRepos
             then deployed metadata channel ts (redis w)
             else redis w
           | _ => redis w
           end
    end.
Proof.
  unfold processReactionEvent, logError, logDebug, logInfo.
  destruct (wire.Unmarshal_ReactionEvent _) as [event|]; [|apply exec_logAt_redis].
  cbv zeta.
  destruct (negb (String.eqb (ReactionEvent.Reaction _) _)); [apply exec_logAt_redis|].
  destruct (negb (String.eqb (ReactionEvent.Item_Type _) _)); [apply exec_logAt_redis|].
  destruct (fromBot event); [apply exec_logAt_redis|].
  rewrite exec_bind.
  destruct (getMessageMetadata _ _ _) as [[metadata|] [err|]];
    try (rewrite exec_logAt_redis; apply logAt_redis).
  rewrite exec_bind.
  destruct (isRepoAllowed _ _); simpl negb; cbv iota.
  - pose proof (deploy_redis metadata config) as H.
    unfold logError, logInfo in H. rewrite H.
    by rewrite !logAt_redis.
  - rewrite exec_logAt_redis. by rewrite !logAt_redis.
Qed.

(** A reaction that passes every gate leads to the two publishes. *)
Lemma processReactionEvent_accept payload event metadata w :
  wire.Unmarshal_ReactionEvent (bytes_of_string payload) = Some event →
  ReactionEvent.Reaction (ReactionEvent.Event event) = RocketReaction →
  ReactionEvent.Item_Type (ReactionEvent.Item (ReactionEvent.Event event)) = "message" →
  fromBot event = false →
  getMessageMetadata slackClient
    (ReactionEvent.Channel (ReactionEvent.Item (ReactionEvent.Event event)))
    (ReactionEvent.Ts (ReactionEvent.Item (ReactionEvent.Event event)))
    = (Some metadata, None) →
  isRepoAllowed (PRMetadata.Repository metadata) allowedRepos = true →
  redis (exec (processReactionEvent payload slackClient config allowedRepos) w)
  = deployed metadata
      (ReactionEvent.Channel (ReactionEvent.Item (ReactionEvent.Event event)))
      (ReactionEvent.Ts (ReactionEvent.Item (ReactionEvent.Event event)))
      (redis w).
Proof.
  intros Hdec Hre Hty Hbot Hmd Hallow.
  rewrite processReactionEvent_redis, Hdec. cbv zeta.
  rewrite Hre, Hty, Hbot, Hmd, Hallow. by rewrite !String.eqb_refl.
Qed.

(** Whatever the event, Redis is either untouched or has received the
    two publishes of a reaction that passed every gate. *)
Lemma processReactionEvent_cases payload w :
  redis (exec (processReactionEvent payload slackClient config allowedRepos) w) = redis w
  ∨ ∃ event metadata,
      wire.Unmarshal_ReactionEvent (bytes_of_string payload) = Some event
      ∧ ReactionEvent.Reaction (ReactionEvent.Event event) = RocketReaction
      ∧ ReactionEvent.Item_Type (ReactionEvent.Item (ReactionEvent.Event event)) = "message"
      ∧ fromBot event = false
      ∧ getMessageMetadata slackClient
          (ReactionEvent.Channel (ReactionEvent.Item (ReactionEvent.Event event)))
          (ReactionEvent.Ts (ReactionEvent.Item (ReactionEvent.Event event)))
        = (Some metadata, None)
      ∧ isRepoAllowed (PRMetadata.Repository metadata) allowedRepos = true
      ∧ redis (exec (processReactionEvent payload slackClient config allowedRepos) w)
        = deployed metadata
            (ReactionEvent.Channel (ReactionEvent.Item (ReactionEvent.Event event)))
            (ReactionEvent.Ts (ReactionEvent.Item (ReactionEvent.Event event)))
            (redis w).
Proof.
  rewrite processReactionEvent_redis.
  destruct (wire.Unmarshal_ReactionEvent _) as [event|] eqn:Hdec; [|by left].
  cbv zeta.
  destruct (String.eqb (ReactionEvent.Reaction _) _) eqn:Hre; [|by left].
  destruct (String.eqb (ReactionEvent.Item_Type _) _) eqn:Hty; [|by left].
  simpl negb. cbv iota.
  destruct (fromBot event) eqn:Hbot; [by left|].
  destruct (getMessageMetadata _ _ _) as [[metadata|] [err|]] eqn:Hmd; try by left.
  destruct (isRepoAllowed _ _) eqn:Hallow; [|by left].
  right. exists event, metadata.
  apply String.eqb_eq in Hre, Hty. done.
Qed.

End ReactionPipeline.

(** ** What [RPush] leaves in Redis *)

Lemma Redis_RPush_calls key payload r :
  redis_calls (snd (Redis_RPush key payload r))
  = redis_calls r ++ [mkRPush key payload (hd true (redis_script r))].
Proof. reflexivity. Qed.

Lemma Redis_RPush_script key payload r :
  redis_script (snd (Redis_RPush key payload r)) = tl (redis_script r).
Proof. reflexivity. Qed.

Lemma Redis_RPush_lists_ok key payload r :
  hd true (redis_script r) = true →
  redis_lists (snd (Redis_RPush key payload r))
  = <[key := default [] (redis_lists r !! key) ++ [payload]]> (redis_lists r).
Proof. intros H. unfold Redis_RPush. simpl. by rewrite H. Qed.

Lemma Redis_RPush_lists_other key key' payload r :
  key ≠ key' →
  redis_lists (snd (Redis_RPush key payload r)) !! key' = redis_lists r !! key'.
Proof.
  intros Hne. unfold Redis_RPush. simpl.
  destruct (hd true _); [by rewrite lookup_insert_ne|done].
Qed.

(** Two publishes in a row, as the calls they add. *)
Lemma two_pushes_calls k1 p1 k2 p2 r :
  redis_calls (snd (Redis_RPush k2 p2 (snd (Redis_RPush k1 p1 r))))
  = redis_calls r ++ [mkRPush k1 p1 (hd true (redis_script r));
                      mkRPush k2 p2 (hd true (tl (redis_script r)))].
Proof. rewrite !Redis_RPush_calls, Redis_RPush_script. by rewrite <- app_assoc. Qed.

(** The requests of two publishes do not depend on how the pushes go. *)
Lemma two_pushes_requests k1 p1 k2 p2 r :
  rp_request <$> redis_calls (snd (Redis_RPush k2 p2 (snd (Redis_RPush k1 p1 r))))
  = (rp_request <$> redis_calls r) ++ [(k1, p1); (k2, p2)].
Proof. rewrite two_pushes_calls. by rewrite fmap_app. Qed.

(** ** The Metadata Resolver *)

Lemma getMessageMetadata_required slackClient channel ts metadata err :
  getMessageMetadata slackClient channel ts = (Some metadata, err) →
  err = None
  ∧ PRMetadata.Repository metadata ≠ ""
  ∧ PRMetadata.Branch metadata ≠ "".
Proof.
  unfold getMessageMetadata.
  destruct (slackClient _) as [history [e|]]; [done|].
  destruct (slack.Messages history) as [|message ?]; [done|].
  destruct (slack.EventPayload _) as [|kv payload]; [done|].
  destruct (wire.Unmarshal_PRMetadata _) as [md|]; [|done].
  destruct (String.eqb (PRMetadata.Repository md) "") eqn:Hr; [done|].
  destruct (String.eqb (PRMetadata.Branch md) "") eqn:Hb; [done|].
  simpl. intros [= <- <-].
  apply String.eqb_neq in Hr, Hb. done.
Qed.

(** ** The bot's own reactions *)

Lemma fromBot_true event :
  fromBot event = true ↔
  ∃ auth, In auth (ReactionEvent.Authorizations event)
          ∧ ReactionEvent.IsBot auth = true
          ∧ ReactionEvent.UserID auth = ReactionEvent.User (ReactionEvent.Event event).
Proof.
  unfold fromBot. rewrite existsb_exists.
  split; intros (auth & Hin & H); exists auth; split; try done.
  - apply andb_true_iff in H as [Hb Hu]. by apply String.eqb_eq in Hu.
  - destruct H as [-> ->]. by rewrite String.eqb_refl.
Qed.

(** ** The allowlist *)

Lemma repos_to_map_lookup repos repo :
  repos_to_map repos !! repo = if bool_decide (repo ∈ repos) then Some true else None.
Proof.
  unfold repos_to_map.
  assert (∀ (m : gmap string bool),
            fold_left (fun m repo => <[repo := true]> m) repos m !! repo
            = if bool_decide (repo ∈ repos) then Some true else m !! repo) as H.
  { induction repos as [|x repos IH]; intros m; cbn [fold_left].
    - rewrite bool_decide_eq_false_2; [done|]. apply not_elem_of_nil.
    - rewrite IH. repeat case_bool_decide; try done.
      + exfalso. apply H0. by apply list_elem_of_further.
      + apply elem_of_cons in H0 as [->|?]; [|done].
        apply lookup_insert_eq.
      + rewrite lookup_insert_ne; [done|].
        intros ->. apply H0, list_elem_of_here. }
  rewrite H. by rewrite lookup_empty.
Qed.

Lemma isRepoAllowed_loaded repos repo :
  isRepoAllowed repo (Some (repos_to_map repos)) = true ↔ repo ∈ repos.
Proof.
  unfold isRepoAllowed. rewrite repos_to_map_lookup.
  case_bool_decide; simpl; split; done.
Qed.

(** ** The reaction pipeline *)

(** C1.  A rocket reaction on a message, not the bot's own, whose message
    resolves to PR metadata (so with a repository and a branch) that the
    allowlist lets through: processing it issues exactly two pushes, the gear
    reaction and then one deployment command.  The command has the repo and
    branch of the metadata, the type tag "vibe-deploy", the directory
    base_dir/repository, and the seven instructions in order.  When its push
    succeeds the command is the new last element of the command list. *)
Theorem C1_accepted_reaction_enqueues_one_command
    (payload : string) (event : ReactionEvent.t) (metadata : PRMetadata.t)
    (slackClient : slack.Client) (config : Config.t)
    (allowedRepos : option (gmap string bool)) (w : World) :
  let item := ReactionEvent.Item (ReactionEvent.Event event) in
  let channel := ReactionEvent.Channel item in
  let ts := ReactionEvent.Ts item in
  wire.Unmarshal_ReactionEvent (bytes_of_string payload) = Some event →
  ReactionEvent.Reaction (ReactionEvent.Event event) = "rocket" →
  ReactionEvent.Item_Type item = "message" →
  fromBot event = false →
  getMessageMetadata slackClient channel ts = (Some metadata, None) →
  isRepoAllowed (PRMetadata.Repository metadata) allowedRepos = true →
  let r := redis w in
  let r' := redis (exec (processReactionEvent payload slackClient config allowedRepos) w) in
  ∃ (cmd : PoppitCommand.t) (ok1 ok2 : bool),
    redis_calls r'
    = redis_calls r
      ++ [mkRPush (Config.RedisReactionList config)
                  (wire.Marshal_SlackReaction (SlackReaction.mk "gear" channel ts false)) ok1;
          mkRPush (Config.RedisListName config) (wire.Marshal_PoppitCommand cmd) ok2]
    ∧ PRMetadata.Repository metadata ≠ ""
    ∧ PRMetadata.Branch metadata ≠ ""
    ∧ PoppitCommand.Repo cmd = PRMetadata.Repository metadata
    ∧ PoppitCommand.Branch cmd = PRMetadata.Branch metadata
    ∧ PoppitCommand.Type_ cmd = "vibe-deploy"
    ∧ PoppitCommand.Dir cmd = Config.BaseDir config +:+ "/" +:+ PRMetadata.Repository metadata
    ∧ PoppitCommand.Commands cmd
      = Some [ "git fetch origin";
               "git checkout " +:+ PRMetadata.Branch metadata;
               "git pull";
               "docker compose build";
               "docker compose down";
               "docker compose up -d";
               "git checkout main" ]
    ∧ (ok2 = true →
       redis_lists r' !! Config.RedisListName config
       = Some (default [] (redis_lists (snd (Redis_RPush (Config.RedisReactionList config)
                 (wire.Marshal_SlackReaction (SlackReaction.mk "gear" channel ts false)) r))
                 !! Config.RedisListName config)
               ++ [wire.Marshal_PoppitCommand cmd])).
Proof.
  intros item channel ts Hdec Hre Hty Hbot Hmd Hallow r r'.
  exists (createPoppitCommand metadata config channel ts),
         (hd true (redis_script r)), (hd true (tl (redis_script r))).
  pose proof (processReactionEvent_accept slackClient config allowedRepos
                payload event metadata w Hdec Hre Hty Hbot Hmd Hallow) as Hrun.
  fold item channel ts r r' in Hrun.
  destruct (getMessageMetadata_required _ _ _ _ _ Hmd) as (_ & Hrepo & Hbranch).
  split; [|repeat split; try done].
  - rewrite Hrun. apply two_pushes_calls.
  - intros Hok. rewrite Hrun.
    rewrite Redis_RPush_lists_ok; [apply lookup_insert_eq|].
    by rewrite Redis_RPush_script.
Qed.

Lemma C1_witness :
  ∃ (cmd : PoppitCommand.t) (ok1 ok2 : bool),
    redis_calls (redis (exec (processReactionEvent Sample.rocket_payload Sample.pr_slack
                                Sample.config None) Sample.world))
    = redis_calls (redis Sample.world)
      ++ [mkRPush "slack_reactions"
                  (wire.Marshal_SlackReaction (SlackReaction.mk "gear" "C1" "100.1" false)) ok1;
          mkRPush "poppit-commands" (wire.Marshal_PoppitCommand cmd) ok2]
    ∧ PoppitCommand.Dir cmd = "/app/repos/org/app"
    ∧ PoppitCommand.Commands cmd
      = Some [ "git fetch origin"; "git checkout feat/x"; "git pull";
               "docker compose build"; "docker compose down";
               "docker compose up -d"; "git checkout main" ].
Proof.
  destruct (C1_accepted_reaction_enqueues_one_command
              Sample.rocket_payload Sample.rocket_event Sample.pr_metadata
              Sample.pr_slack Sample.config None Sample.world)
    as (cmd & ok1 & ok2 & Hcalls & _ & _ & _ & _ & _ & Hdir & Hcmds & _);
    try (vm_compute; reflexivity).
  exists cmd, ok1, ok2. split; [exact Hcalls|]. split; [exact Hdir|exact Hcmds].
Defined.

(** C3.  Whatever the payload, the chat API, the configuration and the
    state of Redis, processing one reaction event either publishes nothing
    or issues exactly two pushes: first the add-gear mutation for (channel,
    ts), then the command whose correlation block is that same (channel,
    ts); the outcome of the first push, which may be a failure, is free.
    What is published does not depend on how the pushes go. *)
Theorem C3_gear_precedes_command
    (payload : string) (slackClient : slack.Client) (config : Config.t)
    (allowedRepos : option (gmap string bool)) (w : World) :
  let run w := redis (exec (processReactionEvent payload slackClient config allowedRepos) w) in
  (run w = redis w
   ∨ ∃ (cmd : PoppitCommand.t) (channel ts : string) (ok2 : bool),
       redis_calls (run w)
       = redis_calls (redis w)
         ++ [mkRPush (Config.RedisReactionList config)
                     (wire.Marshal_SlackReaction (SlackReaction.mk "gear" channel ts false))
                     (hd true (redis_script (redis w)));
             mkRPush (Config.RedisListName config) (wire.Marshal_PoppitCommand cmd) ok2]
       ∧ PoppitCommand.Metadata cmd = Some (CommandMetadata.mk channel ts))
  ∧ ∀ script : list bool,
      drop (length (redis_calls (redis w))) (rp_request <$> redis_calls (run (with_script script w)))
      = drop (length (redis_calls (redis w))) (rp_request <$> redis_calls (run w)).
Proof.
  intros run. split.
  - destruct (processReactionEvent_cases slackClient config allowedRepos payload w)
      as [H|(event & metadata & _ & _ & _ & _ & _ & _ & H)]; [by left|].
    right. eexists _, _, _, _. subst run. cbv beta. rewrite H.
    split; [apply two_pushes_calls|reflexivity].
  - intros script. subst run. cbv beta.
    rewrite !processReactionEvent_redis.
    destruct (wire.Unmarshal_ReactionEvent _) as [event|]; [|done].
    cbv zeta.
    repeat (match goal with |- context [if ?b then _ else _] => destruct b end; try done).
    destruct (getMessageMetadata _ _ _) as [[metadata|] [err|]]; try done.
    destruct (isRepoAllowed _ _); [|done].
    rewrite !two_pushes_requests.
    replace (length (redis_calls (redis w)))
      with (length (rp_request <$> redis_calls (redis w))) by apply length_fmap.
    change (redis_calls (redis (with_script script w))) with (redis_calls (redis w)).
    by rewrite !drop_app_length.
Qed.

(** C4.  A decoded reaction event whose reaction is not "rocket", or whose
    item is not a message, or whose user is listed in the authorizations of
    the payload with is_bot set, leaves Redis as it was: no push is issued,
    so neither a command nor a reaction mutation goes out. *)
Theorem C4_rejected_reaction_publishes_nothing
    (payload : string) (event : ReactionEvent.t)
    (slackClient : slack.Client) (config : Config.t)
    (allowedRepos : option (gmap string bool)) (w : World) :
  wire.Unmarshal_ReactionEvent (bytes_of_string payload) = Some event →
  ReactionEvent.Reaction (ReactionEvent.Event event) ≠ "rocket"
  ∨ ReactionEvent.Item_Type (ReactionEvent.Item (ReactionEvent.Event event)) ≠ "message"
  ∨ (∃ auth, In auth (ReactionEvent.Authorizations event)
             ∧ ReactionEvent.IsBot auth = true
             ∧ ReactionEvent.UserID auth = ReactionEvent.User (ReactionEvent.Event event)) →
  let r' := redis (exec (processReactionEvent payload slackClient config allowedRepos) w) in
  r' = redis w
  ∧ redis_calls r' = redis_calls (redis w)
  ∧ redis_lists r' = redis_lists (redis w).
Proof.
  intros Hdec Hrej r'.
  assert (r' = redis w) as ->; [|done].
  subst r'. rewrite processReactionEvent_redis, Hdec. cbv zeta.
  destruct (String.eqb (ReactionEvent.Reaction _) _) eqn:Hre; [|done].
  destruct (String.eqb (ReactionEvent.Item_Type _) _) eqn:Hty; [|done].
  destruct (fromBot event) eqn:Hbot; [done|].
  exfalso. apply String.eqb_eq in Hre, Hty.
  destruct Hrej as [H|[H|H]]; [by apply H | by apply H |].
  apply fromBot_true in H. congruence.
Qed.

Lemma C4_witness :
  redis (exec (processReactionEvent Sample.bot_payload Sample.pr_slack Sample.config None)
              Sample.world)
  = redis Sample.world.
Proof.
  apply (C4_rejected_reaction_publishes_nothing
           Sample.bot_payload Sample.bot_event Sample.pr_slack Sample.config None Sample.world).
  - vm_compute. reflexivity.
  - right. right. exists (ReactionEvent.mkAuthorization "B1" true).
    split; [left; reflexivity|]. split; reflexivity.
Defined.

(** C6.  With no set loaded every repository is permitted.  With a set
    loaded a repository is permitted exactly when the map holds [true] for
    that very string; for the set built from a list of repositories, exactly
    when the string is one of the list.  A reaction whose resolved
    repository the loaded set does not permit issues no push at all: no
    command and no gear mutation. *)
Theorem C6_allowlist_gate :
  (∀ repo : string, isRepoAllowed repo None = true)
  ∧ (∀ (m : gmap string bool) (repo : string),
       isRepoAllowed repo (Some m) = true ↔ m !! repo = Some true)
  ∧ (∀ (repos : list string) (repo : string),
       isRepoAllowed repo (Some (repos_to_map repos)) = true ↔ repo ∈ repos)
  ∧ (∀ (payload : string) (event : ReactionEvent.t) (metadata : PRMetadata.t)
       (slackClient : slack.Client) (config : Config.t) (m : gmap string bool) (w : World),
       wire.Unmarshal_ReactionEvent (bytes_of_string payload) = Some event →
       getMessageMetadata slackClient
         (ReactionEvent.Channel (ReactionEvent.Item (ReactionEvent.Event event)))
         (ReactionEvent.Ts (ReactionEvent.Item (ReactionEvent.Event event)))
       = (Some metadata, None) →
       m !! PRMetadata.Repository metadata ≠ Some true →
       let r' := redis (exec (processReactionEvent payload slackClient config (Some m)) w) in
       r' = redis w ∧ redis_calls r' = redis_calls (redis w)).
Proof.
  assert (∀ (m : gmap string bool) (repo : string),
            isRepoAllowed repo (Some m) = true ↔ m !! repo = Some true) as Hmem.
  { intros m repo. unfold isRepoAllowed.
    destruct (m !! repo) as [[|]|]; simpl; split; done. }
  split; [done|]. split; [exact Hmem|]. split; [exact isRepoAllowed_loaded|].
  intros payload event metadata slackClient config m w Hdec Hmd Hout r'.
  assert (r' = redis w) as ->; [|done].
  subst r'. rewrite processReactionEvent_redis, Hdec. cbv zeta. rewrite Hmd.
  destruct (isRepoAllowed _ _) eqn:Hallow.
  - by apply Hmem in Hallow.
  - by repeat (match goal with |- context [if ?b then _ else _] => destruct b end).
Qed.

Lemma C6_witness :
  redis_calls (redis (exec (processReactionEvent Sample.rocket_payload Sample.pr_slack
                              Sample.config (Some (repos_to_map ["org/other"])))
                           Sample.world))
  = redis_calls (redis Sample.world).
Proof.
  destruct C6_allowlist_gate as (_ & _ & _ & H).
  apply (H Sample.rocket_payload Sample.rocket_event Sample.pr_metadata).
  - vm_compute. reflexivity.
  - vm_compute. reflexivity.
  - rewrite repos_to_map_lookup. vm_compute. discriminate.
Defined.

(** C8.  When the path of the allowlist file is set, the file is there and
    its YAML holds an empty [allowed_repos], [loadAllowedRepos] returns the
    empty set, not nil, and no error; [isRepoAllowed] then denies every
    repository.  With the path unset or the file absent it returns nil, and
    every repository is permitted. *)
Theorem C8_empty_allowlist_denies_all
    (yaml_Unmarshal : yaml_decoder) (fs : os.FileSystem) (w : World) :
  (∀ (configPath : string) (data : list N),
     configPath ≠ "" →
     fs configPath = os.File data →
     yaml_Unmarshal data = (AllowedReposConfig.mk [], None) →
     fst (loadAllowedRepos yaml_Unmarshal fs configPath w) = (Some ∅, None)
     ∧ ∀ repo : string, isRepoAllowed repo (Some ∅) = false)
  ∧ (fst (loadAllowedRepos yaml_Unmarshal fs "" w) = (None, None))
  ∧ (∀ configPath : string,
       fs configPath = os.NotExist →
       fst (loadAllowedRepos yaml_Unmarshal fs configPath w) = (None, None))
  ∧ (∀ repo : string, isRepoAllowed repo None = true).
Proof.
  assert (∀ (l : LogLevel) (f : string) (x : option (gmap string bool) * option error),
            fst ((logAt l f;; mret x) w) = x) as Hlog.
  { intros l f x. unfold logAt, mbind, M_bind, bind, mret, M_ret, ret.
    by destruct (_ <=? _). }
  split; [|split; [|split]].
  - intros configPath data Hset Hfile Hyaml. split; [|done].
    unfold loadAllowedRepos.
    apply String.eqb_neq in Hset. rewrite Hset.
    unfold os.Stat_IsNotExist, os.ReadFile. rewrite Hfile, Hyaml.
    apply Hlog.
  - unfold loadAllowedRepos. rewrite String.eqb_refl. apply Hlog.
  - intros configPath Hfile.
    unfold loadAllowedRepos, os.Stat_IsNotExist. rewrite Hfile.
    destruct (String.eqb configPath ""); apply Hlog.
  - done.
Qed.

Lemma C8_witness :
  fst (loadAllowedRepos SampleFiles.yaml_Unmarshal SampleFiles.fs
         "/etc/vibedeploy/allowed.yaml" Sample.world)
  = (Some ∅, None)
  ∧ isRepoAllowed "org/app" (Some ∅) = false.
Proof.
  destruct (C8_empty_allowlist_denies_all SampleFiles.yaml_Unmarshal SampleFiles.fs Sample.world)
    as (H & _).
  destruct (H "/etc/vibedeploy/allowed.yaml" (bytes_of_string "allowed_repos: []"))
    as [Hload Hdeny]; [discriminate|reflexivity|reflexivity|].
  split; [exact Hload|apply Hdeny].
Defined.

(** C9.  The synthesized command always carries a correlation block, made
    of the channel and the ts it was given, and its JSON form has the
    metadata member although the field is [omitempty].  In the pipeline
    the block is that of the item of the reaction event: processing an
    event either issues no push, or the command it pushes was synthesized
    from the channel and ts of the event. *)
Theorem C9_command_carries_correlation :
  (∀ (metadata : PRMetadata.t) (config : Config.t) (channel ts : string),
     let cmd := createPoppitCommand metadata config channel ts in
     PoppitCommand.Metadata cmd = Some (CommandMetadata.mk channel ts)
     ∧ ∃ members,
         wire.PoppitCommand_to_json cmd
         = json.JObject (members ++ [("metadata",
                                      json.JObject [("channel", json.JString channel);
                                                    ("ts", json.JString ts)])]))
  ∧ (∀ (payload : string) (slackClient : slack.Client) (config : Config.t)
       (allowedRepos : option (gmap string bool)) (w : World),
       let r' := redis (exec (processReactionEvent payload slackClient config allowedRepos) w) in
       r' = redis w
       ∨ ∃ (event : ReactionEvent.t) (metadata : PRMetadata.t) (first : RPushCall) (ok : bool),
           let item := ReactionEvent.Item (ReactionEvent.Event event) in
           let cmd := createPoppitCommand metadata config
                        (ReactionEvent.Channel item) (ReactionEvent.Ts item) in
           wire.Unmarshal_ReactionEvent (bytes_of_string payload) = Some event
           ∧ redis_calls r'
             = redis_calls (redis w)
               ++ [first; mkRPush (Config.RedisListName config) (wire.Marshal_PoppitCommand cmd) ok]
           ∧ PoppitCommand.Metadata cmd
             = Some (CommandMetadata.mk (ReactionEvent.Channel item) (ReactionEvent.Ts item))).
Proof.
  split.
  - intros metadata config channel ts cmd. split; [reflexivity|].
    eexists. unfold wire.PoppitCommand_to_json. subst cmd. simpl PoppitCommand.Metadata.
    cbv iota. reflexivity.
  - intros payload slackClient config allowedRepos w r'.
    destruct (processReactionEvent_cases slackClient config allowedRepos payload w)
      as [H|(event & metadata & Hdec & _ & _ & _ & _ & _ & H)]; [by left|].
    right. exists event, metadata. eexists _, _. cbv zeta.
    split; [exact Hdec|]. split; [|reflexivity].
    subst r'. rewrite H. apply two_pushes_calls.
Qed.

(** ** The completion listener *)

(** The Redis side of [processCommandOutput], gate by gate. *)
Lemma processCommandOutput_redis payload config w :
  redis (exec (processCommandOutput payload config) w)
  = match wire.Unmarshal_CommandOutput (bytes_of_string payload) with
    | None => redis w
    | Some output =>
      if negb (String.eqb (CommandOutput.Type_ output) VibeDeployType) then redis w
      else if negb (String.eqb (CommandOutput.Command output) DeploymentCommand) then redis w
      else match CommandOutput.Metadata output with
           | None => redis w
           | Some md =>
             snd (Redis_RPush (Config.RedisReactionList config)
                    (wire.Marshal_SlackReaction
                       (SlackReaction.mk RocketReaction (CommandMetadata.Channel md)
                                         (CommandMetadata.Ts md) false))
                    (snd (Redis_RPush (Config.RedisReactionList config)
                            (wire.Marshal_SlackReaction
                               (SlackReaction.mk GearReaction (CommandMetadata.Channel md)
                                                 (CommandMetadata.Ts md) true))
                            (redis w))))
           end
    end.
Proof.
  unfold processCommandOutput, logError, logDebug, logInfo, logWarn.
  destruct (wire.Unmarshal_CommandOutput _) as [output|]; [|apply exec_logAt_redis].
  destruct (negb (String.eqb (CommandOutput.Type_ _) _)); [apply exec_logAt_redis|].
  destruct (negb (String.eqb (CommandOutput.Command _) _)); [apply exec_logAt_redis|].
  destruct (CommandOutput.Metadata output) as [md|]; [|apply exec_logAt_redis].
  cbv zeta. rewrite !exec_bind, exec_log_redis.
  rewrite publishSlackReaction_redis. f_equal. f_equal.
  destruct (fst (publishSlackReaction _ _ _ _ _ _)); rewrite logAt_redis;
    rewrite publishSlackReaction_redis; by rewrite logAt_redis.
Qed.

(** C2.  For a decoded completion notice: when its type is "vibe-deploy",
    its command is "docker compose up -d" and its correlation block is
    present, the handler issues exactly two pushes on the reaction list, in
    order (gear, remove) then (rocket, add), both with the channel and ts of
    the notice; when one of the three fails it issues none.  So two pushes
    are issued if and only if the three conditions hold. *)
Theorem C2_completion_reflects_status
    (payload : string) (output : CommandOutput.t) (config : Config.t) (w : World) :
  wire.Unmarshal_CommandOutput (bytes_of_string payload) = Some output →
  let r := redis w in
  let r' := redis (exec (processCommandOutput payload config) w) in
  let matching :=
    CommandOutput.Type_ output = "vibe-deploy"
    ∧ CommandOutput.Command output = "docker compose up -d"
    ∧ CommandOutput.Metadata output ≠ None in
  (matching →
   ∃ md, CommandOutput.Metadata output = Some md
         ∧ redis_calls r'
           = redis_calls r
             ++ [mkRPush (Config.RedisReactionList config)
                   (wire.Marshal_SlackReaction
                      (SlackReaction.mk "gear" (CommandMetadata.Channel md)
                                        (CommandMetadata.Ts md) true))
                   (hd true (redis_script r));
                 mkRPush (Config.RedisReactionList config)
                   (wire.Marshal_SlackReaction
                      (SlackReaction.mk "rocket" (CommandMetadata.Channel md)
                                        (CommandMetadata.Ts md) false))
                   (hd true (tl (redis_script r)))])
  ∧ (¬ matching → r' = r ∧ redis_calls r' = redis_calls r)
  ∧ (matching ↔ length (redis_calls r') = (length (redis_calls r) + 2)%nat).
Proof.
  intros Hdec r r' matching.
  assert (r' = match CommandOutput.Metadata output with
               | Some md =>
                 if String.eqb (CommandOutput.Type_ output) VibeDeployType
                    && String.eqb (CommandOutput.Command output) DeploymentCommand
                 then snd (Redis_RPush (Config.RedisReactionList config)
                             (wire.Marshal_SlackReaction
                                (SlackReaction.mk RocketReaction (CommandMetadata.Channel md)
                                                  (CommandMetadata.Ts md) false))
                             (snd (Redis_RPush (Config.RedisReactionList config)
                                     (wire.Marshal_SlackReaction
                                        (SlackReaction.mk GearReaction (CommandMetadata.Channel md)
                                                          (CommandMetadata.Ts md) true))
                                     r)))
                 else r
               | None => r
               end) as Hrun.
  { subst r'. rewrite processCommandOutput_redis, Hdec.
    destruct (String.eqb (CommandOutput.Type_ _) _),
             (String.eqb (CommandOutput.Command _) _),
             (CommandOutput.Metadata output); reflexivity. }
  assert (¬ matching → r' = r) as Hno.
  { intros Hnot. rewrite Hrun.
    destruct (CommandOutput.Metadata output) as [md|]; [|done].
    destruct (String.eqb (CommandOutput.Type_ _) _) eqn:Hty; [|done].
    destruct (String.eqb (CommandOutput.Command _) _) eqn:Hcmd; [|done].
    exfalso. apply Hnot. apply String.eqb_eq in Hty, Hcmd. done. }
  split; [|split; [|split]].
  - intros (Hty & Hcmd & Hmd).
    destruct (CommandOutput.Metadata output) as [md|]; [|done].
    exists md. split; [done|].
    rewrite Hrun, Hty, Hcmd. change (String.eqb _ _ && String.eqb _ _) with true.
    cbv iota. apply two_pushes_calls.
  - intros Hnot. by rewrite (Hno Hnot).
  - intros (Hty & Hcmd & Hmd).
    destruct (CommandOutput.Metadata output) as [md|]; [|done].
    rewrite Hrun, Hty, Hcmd. change (String.eqb _ _ && String.eqb _ _) with true.
    cbv iota. rewrite two_pushes_calls, length_app. reflexivity.
  - intros Hlen.
    destruct (CommandOutput.Metadata output) as [md|] eqn:Hmd.
    + destruct (String.eqb (CommandOutput.Type_ output) VibeDeployType) eqn:Hty;
        [destruct (String.eqb (CommandOutput.Command output) DeploymentCommand) eqn:Hcmd|].
      * apply String.eqb_eq in Hty, Hcmd. done.
      * rewrite Hrun in Hlen. simpl in Hlen. lia.
      * rewrite Hrun in Hlen. simpl in Hlen. lia.
    + rewrite Hrun in Hlen. lia.
Qed.

Lemma C2_witness :
  ∃ md, CommandOutput.Metadata Sample.notice = Some md
        ∧ redis_calls (redis (exec (processCommandOutput Sample.notice_payload Sample.config)
                                   Sample.world))
          = [mkRPush "slack_reactions"
               (wire.Marshal_SlackReaction (SlackReaction.mk "gear" "C1" "100.1" true)) true;
             mkRPush "slack_reactions"
               (wire.Marshal_SlackReaction (SlackReaction.mk "rocket" "C1" "100.1" false)) true].
Proof.
  destruct (C2_completion_reflects_status
              Sample.notice_payload Sample.notice Sample.config Sample.world)
    as (Hyes & _); [vm_compute; reflexivity|].
  destruct Hyes as (md & Hmd & Hcalls); [by repeat split|].
  exists md. split; [exact Hmd|].
  injection Hmd as <-. exact Hcalls.
Defined.

(** C10.  Two decoded completion notices with the same type, command and
    correlation block leave the same world behind, whatever their output
    texts are: the same pushes with the same outcomes, the same lists, the
    same log.  In particular a matching notice always ends with the push of
    an added rocket, also when its output reports a failure. *)
Theorem C10_output_text_is_ignored
    (payload1 payload2 : string) (output1 output2 : CommandOutput.t)
    (config : Config.t) (w : World) :
  wire.Unmarshal_CommandOutput (bytes_of_string payload1) = Some output1 →
  wire.Unmarshal_CommandOutput (bytes_of_string payload2) = Some output2 →
  CommandOutput.Type_ output1 = CommandOutput.Type_ output2 →
  CommandOutput.Command output1 = CommandOutput.Command output2 →
  CommandOutput.Metadata output1 = CommandOutput.Metadata output2 →
  exec (processCommandOutput payload1 config) w = exec (processCommandOutput payload2 config) w
  ∧ redis_calls (redis (exec (processCommandOutput payload1 config) w))
    = redis_calls (redis (exec (processCommandOutput payload2 config) w))
  ∧ ∀ md, CommandOutput.Type_ output1 = "vibe-deploy" →
          CommandOutput.Command output1 = "docker compose up -d" →
          CommandOutput.Metadata output1 = Some md →
          ∃ ok, last (redis_calls (redis (exec (processCommandOutput payload2 config) w)))
                = Some (mkRPush (Config.RedisReactionList config)
                          (wire.Marshal_SlackReaction
                             (SlackReaction.mk "rocket" (CommandMetadata.Channel md)
                                               (CommandMetadata.Ts md) false)) ok).
Proof.
  intros Hdec1 Hdec2 Hty Hcmd Hmd.
  assert (exec (processCommandOutput payload1 config) w
          = exec (processCommandOutput payload2 config) w) as Heq.
  { unfold processCommandOutput. rewrite Hdec1, Hdec2, Hty, Hcmd, Hmd. reflexivity. }
  split; [exact Heq|]. split; [by rewrite Heq|].
  intros md Hty1 Hcmd1 Hmd1.
  rewrite processCommandOutput_redis, Hdec2, <- Hty, <- Hcmd, <- Hmd, Hty1, Hcmd1, Hmd1.
  change (negb (String.eqb "vibe-deploy" VibeDeployType)) with false.
  change (negb (String.eqb "docker compose up -d" DeploymentCommand)) with false.
  cbv iota. rewrite two_pushes_calls.
  eexists.
  match goal with
  | |- last (?l ++ [?a; ?b]) = _ =>
    replace (l ++ [a; b]) with ((l ++ [a]) ++ [b]) by (by rewrite <- app_assoc)
  end.
  apply last_snoc.
Qed.

Lemma C10_witness :
  exec (processCommandOutput Sample.notice_payload Sample.config) Sample.world
  = exec (processCommandOutput Sample.failed_notice_payload Sample.config) Sample.world.
Proof.
  apply (C10_output_text_is_ignored
           Sample.notice_payload Sample.failed_notice_payload
           Sample.notice Sample.failed_notice Sample.config Sample.world);
    vm_compute; reflexivity.
Defined.

(** ** The outcomes of the Metadata Resolver *)

(** C5, as stated, fails: the message of [Sample.foreign_slack] is fetched
    without a transport failure and is not missing, its metadata has a
    [repository] member that is not a string, and the resolver answers with
    a hard error, not with "no metadata". *)
Lemma C5_counterexample :
  ¬ (∀ (slackClient : slack.Client) (channel ts : string) (err : error),
       snd (getMessageMetadata slackClient channel ts) = Some err →
       snd (slackClient (slack.mkParams channel ts true 1%Z true)) ≠ None
       ∨ slack.Messages (fst (slackClient (slack.mkParams channel ts true 1%Z true))) = []).
Proof.
  intros H.
  destruct (H Sample.foreign_slack "C1" "100.1"
              "failed to parse PR metadata: json: cannot unmarshal") as [Hc|Hc].
  - vm_compute. reflexivity.
  - apply Hc. reflexivity.
  - discriminate Hc.
Qed.

(** C5, amended.  The resolver has three outcomes.  A hard error: the chat
    API failed, or it returned no message, or the first message has a
    metadata payload that does not decode into [PRMetadata] (a member that
    selects a field has a value of another JSON type).  "No metadata" (nil,
    nil): the API answered with a message whose payload is empty, or decodes
    but leaves the repository or the branch empty.  Metadata: the payload
    decodes and has both. *)
Theorem C5_resolver_outcomes (slackClient : slack.Client) (channel ts : string) :
  let answer := slackClient (slack.mkParams channel ts true 1%Z true) in
  let result := getMessageMetadata slackClient channel ts in
  let payload := match slack.Messages (fst answer) with
                 | message :: _ => slack.EventPayload (slack.Metadata message)
                 | [] => []
                 end in
  let decoded := wire.Unmarshal_PRMetadata (wire.Marshal_map payload) in
  ((∃ err, result = (None, Some err))
   ↔ snd answer ≠ None
     ∨ slack.Messages (fst answer) = []
     ∨ (payload ≠ [] ∧ decoded = None))
  ∧ (result = (None, None)
     ↔ snd answer = None
       ∧ slack.Messages (fst answer) ≠ []
       ∧ (payload = []
          ∨ ∃ md, decoded = Some md
                  ∧ (PRMetadata.Repository md = "" ∨ PRMetadata.Branch md = "")))
  ∧ (∀ md, result = (Some md, None)
           ↔ snd answer = None
             ∧ slack.Messages (fst answer) ≠ []
             ∧ payload ≠ []
             ∧ decoded = Some md
             ∧ PRMetadata.Repository md ≠ ""
             ∧ PRMetadata.Branch md ≠ "")
  ∧ (∀ md err, result ≠ (Some md, Some err)).
Proof.
  intros answer result payload decoded.
  subst result decoded payload. unfold getMessageMetadata. fold answer.
  destruct answer as [history [e|]]; simpl fst; simpl snd; [naive_solver|].
  destruct (slack.Messages history) as [|message rest]; [naive_solver|].
  destruct (slack.EventPayload (slack.Metadata message)) as [|kv payload] eqn:Hp;
    [naive_solver|].
  destruct (wire.Unmarshal_PRMetadata _) as [md|]; [|naive_solver].
  destruct (String.eqb (PRMetadata.Repository md) "") eqn:Hr;
    [|destruct (String.eqb (PRMetadata.Branch md) "") eqn:Hb]; simpl orb; cbv iota.
  - apply String.eqb_eq in Hr. naive_solver.
  - apply String.eqb_eq in Hb. naive_solver.
  - apply String.eqb_neq in Hr, Hb. naive_solver.
Qed.

(** ** UTF-8: decoding a rune and encoding it again *)

Section UTF8.
Import Exhaust.

Lemma N_range_In lo n x :
  lo <= x → x < lo + N.of_nat n → In x (N_range lo n).
Proof.
  intros Hlo Hhi. unfold N_range. apply in_map_iff.
  exists (N.to_nat (x - lo)). split; [lia|].
  apply in_seq. lia.
Qed.

Lemma eqb_bytes_eq a b : eqb_bytes a b = true → a = b.
Proof.
  revert b. induction a as [|x a IH]; intros [|y b]; simpl; try done.
  intros [Hx Hab]%andb_true_iff. apply N.eqb_eq in Hx. f_equal; auto.
Qed.

Lemma check2_ok : check2 = true.
Proof. vm_compute. reflexivity. Qed.

Lemma check3_ok : check3 = true.
Proof. vm_compute. reflexivity. Qed.

Lemma check_hex_ok : check_hex = true.
Proof. vm_compute. reflexivity. Qed.

End UTF8.

Section DecodeRune.
Import Exhaust ExhaustRunes utf8.

Lemma in_range_true lo hi b : in_range lo hi b = true ↔ lo <= b ∧ b <= hi.
Proof. unfold in_range. rewrite andb_true_iff, !N.leb_le. done. Qed.

Lemma first_cases p0 :
  match first p0 with
  | LeadASCII => p0 < 128
  | LeadInvalid => 128 <= p0
  | LeadMulti sz lo hi =>
    128 <= lo ∧ hi <= 191
    ∧ (sz = 2%nat ∧ 194 <= p0 < 224 ∨ sz = 3%nat ∧ 224 <= p0 < 240
       ∨ sz = 4%nat ∧ 240 <= p0 < 245)
  end.
Proof.
  unfold first, locb, hicb.
  repeat match goal with
         | |- context [?a <? ?b] => destruct (N.ltb_spec a b)
         | |- context [?a =? ?b] => destruct (N.eqb_spec a b)
         end; lia.
Qed.

(** Linear arithmetic with division and remainder by constants. *)
Local Ltac dlia := zify; Z.to_euclidean_division_equations; lia.

Lemma land_shiftl_low a k b : b < 2 ^ k → N.land (N.shiftl a k) b = 0.
Proof.
  intros Hb. apply N.bits_inj. intros n. rewrite N.land_spec, N.bits_0.
  destruct (N.lt_ge_cases n k) as [Hn|Hn].
  - by rewrite N.shiftl_spec_low.
  - destruct (N.eq_dec b 0) as [->|Hnz].
    + rewrite N.bits_0. apply andb_false_r.
    + rewrite (N.bits_above_log2 b n); [apply andb_false_r|].
      apply N.lt_le_trans with k; [|exact Hn].
      apply N.log2_lt_pow2; lia.
Qed.

(** Bits that do not overlap: or is addition. *)
Lemma lor_disjoint_add a b k : a mod 2 ^ k = 0 → b < 2 ^ k → N.lor a b = a + b.
Proof.
  intros Ha Hb.
  assert (a = N.shiftl (a / 2 ^ k) k) as ->.
  { rewrite N.shiftl_mul_pow2.
    pose proof (N.div_mod a (2 ^ k) ltac:(apply N.pow_nonzero; lia)). lia. }
  rewrite <- N.lxor_lor by by apply land_shiftl_low.
  by rewrite <- N.add_nocarry_lxor by by apply land_shiftl_low.
Qed.

Lemma land_7 x : N.land x 7 = x mod 8.
Proof. change 7 with (N.ones 3). apply N.land_ones. Qed.

Lemma land_63 x : N.land x 63 = x mod 64.
Proof. change 63 with (N.ones 6). apply N.land_ones. Qed.

Lemma byte_mod x : byte x = x mod 256.
Proof. unfold byte. change 255 with (N.ones 8). apply N.land_ones. Qed.

Lemma lor_240 y : y < 16 → N.lor 240 y = 240 + y.
Proof. intros. by apply (lor_disjoint_add 240 y 4). Qed.

Lemma lor_128 y : y < 64 → N.lor 128 y = 128 + y.
Proof. intros. by apply (lor_disjoint_add 128 y 6). Qed.

(** The rune of a four-byte sequence, as a sum. *)
Lemma rune4_sum p0 b1 b2 b3 :
  N.lor (N.lor (N.lor (N.shiftl (N.land p0 7) 18) (N.shiftl (N.land b1 63) 12))
               (N.shiftl (N.land b2 63) 6))
        (N.land b3 63)
  = p0 mod 8 * 262144 + b1 mod 64 * 4096 + b2 mod 64 * 64 + b3 mod 64.
Proof.
  rewrite land_7, !land_63, !N.shiftl_mul_pow2.
  change (2 ^ 18) with 262144. change (2 ^ 12) with 4096. change (2 ^ 6) with 64.
  set (h := p0 mod 8). set (x1 := b1 mod 64). set (x2 := b2 mod 64). set (x3 := b3 mod 64).
  assert (x1 < 64 ∧ x2 < 64 ∧ x3 < 64) as (H1 & H2 & H3) by (subst x1 x2 x3; dlia).
  rewrite (lor_disjoint_add (h * 262144) (x1 * 4096) 18);
    [|change (2 ^ 18) with 262144; dlia..].
  rewrite (lor_disjoint_add (h * 262144 + x1 * 4096) (x2 * 64) 12);
    [|change (2 ^ 12) with 4096; dlia..].
  rewrite (lor_disjoint_add (h * 262144 + x1 * 4096 + x2 * 64) x3 6);
    [|change (2 ^ 6) with 64; dlia..].
  reflexivity.
Qed.

(** The four bytes [EncodeRune] writes for a rune above U+FFFF. *)
Lemma EncodeRune_four r :
  65536 <= r → r <= MaxRune →
  EncodeRune r = [ 240 + r / 262144; 128 + r / 4096 mod 64;
                   128 + r / 64 mod 64; 128 + r mod 64 ].
Proof.
  intros Hlo Hhi. unfold MaxRune in Hhi. unfold EncodeRune, MaxRune, surrogateMin, surrogateMax.
  destruct (N.leb_spec r 127); [lia|].
  destruct (N.leb_spec r 2047); [lia|].
  destruct (N.ltb_spec 1114111 r); [lia|].
  destruct (N.leb_spec 55296 r); [|lia].
  destruct (N.leb_spec r 57343); [lia|].
  destruct (N.leb_spec r 65535); [lia|].
  simpl orb. cbv iota.
  rewrite !byte_mod, !land_63.
  rewrite !N.shiftr_div_pow2.
  change (2 ^ 18) with 262144. change (2 ^ 12) with 4096. change (2 ^ 6) with 64.
  rewrite lor_240 by dlia. rewrite !lor_128 by dlia.
  f_equal; [dlia|f_equal; [dlia|f_equal; [dlia|f_equal; dlia]]].
Qed.

Lemma reencodes_four p0 b1 b2 b3 :
  240 <= p0 <= 244 → 128 <= b1 <= 191 → 128 <= b2 <= 191 → 128 <= b3 <= 191 →
  (p0 = 240 → 144 <= b1) → (p0 = 244 → b1 <= 143) →
  EncodeRune (N.lor (N.lor (N.lor (N.shiftl (N.land p0 7) 18) (N.shiftl (N.land b1 63) 12))
                           (N.shiftl (N.land b2 63) 6))
                    (N.land b3 63))
  = [p0; b1; b2; b3].
Proof.
  intros Hp0 Hb1 Hb2 Hb3 Hlow Hhigh. rewrite rune4_sum.
  assert (p0 mod 8 = p0 - 240) as -> by dlia.
  assert (b1 mod 64 = b1 - 128) as -> by dlia.
  assert (b2 mod 64 = b2 - 128) as -> by dlia.
  assert (b3 mod 64 = b3 - 128) as -> by dlia.
  rewrite EncodeRune_four; [|unfold MaxRune; lia..].
  f_equal; [dlia|f_equal; [dlia|f_equal; [dlia|f_equal; dlia]]].
Qed.

Lemma in_range_intro lo hi b : lo <= b → b <= hi → in_range lo hi b = true.
Proof. intros. apply in_range_true. done. Qed.

Lemma first_four p0 lo hi :
  first p0 = LeadMulti 4 lo hi →
  (p0 = 240 ∧ lo = 144 ∧ hi = 191)
  ∨ (241 <= p0 <= 243 ∧ lo = 128 ∧ hi = 191)
  ∨ (p0 = 244 ∧ lo = 128 ∧ hi = 143).
Proof.
  unfold first, locb, hicb.
  repeat match goal with
         | |- context [?a <? ?b] => destruct (N.ltb_spec a b)
         | |- context [?a =? ?b] => destruct (N.eqb_spec a b)
         end; intros [= <- <-] || intros [=]; lia.
Qed.

(** Four bytes in the ranges of the table decode at full width. *)
Lemma DecodeRune_four_size p0 b1 b2 b3 :
  240 <= p0 <= 244 → 128 <= b1 <= 191 → 128 <= b2 <= 191 → 128 <= b3 <= 191 →
  (p0 = 240 → 144 <= b1) → (p0 = 244 → b1 <= 143) →
  snd (DecodeRune [p0; b1; b2; b3]) = 4%nat.
Proof.
  intros Hp0 Hb1 Hb2 Hb3 Hlow Hhigh.
  assert (cont b2 = true ∧ cont b3 = true) as [Hc2 Hc3].
  { unfold cont, locb, hicb. split; apply in_range_intro; lia. }
  assert (p0 = 240 ∨ p0 = 241 ∨ p0 = 242 ∨ p0 = 243 ∨ p0 = 244)
    as [->|[->|[->|[->| ->]]]] by lia;
    unfold DecodeRune;
    match goal with
    | |- context [first ?p] => let f := eval vm_compute in (first p) in change (first p) with f
    end;
    cbn [length Nat.ltb Nat.leb];
    rewrite in_range_intro by lia; rewrite Hc2, Hc3; reflexivity.
Qed.

Lemma encodes_well_four r : 65536 <= r → r <= MaxRune → encodes_well r = true.
Proof.
  intros Hlo Hhi. unfold encodes_well. rewrite EncodeRune_four by done.
  unfold MaxRune in Hhi.
  rewrite DecodeRune_four_size by dlia.
  cbn [length Nat.leb Nat.eqb andb forallb].
  repeat (rewrite (proj2 (N.leb_le _ _)) by dlia).
  repeat (rewrite (proj2 (N.ltb_lt _ _)) by dlia).
  reflexivity.
Qed.

Lemma check_encode_small_ok : forallb_from encodes_well 128 (65536 - 128) = true.
Proof. vm_compute. reflexivity. Qed.

Lemma eqb_bytes_refl a : eqb_bytes a a = true.
Proof. induction a as [|x a IH]; [done|]. simpl. by rewrite N.eqb_refl. Qed.

(** What [DecodeRune] returns on input that does not start with ASCII. *)
Lemma DecodeRune_cases p0 rest :
  128 <= p0 →
  DecodeRune (p0 :: rest) = (RuneError, 1%nat)
  ∨ ∃ c bs rest',
      p0 :: rest = bs ++ rest'
      ∧ (2 <= length bs <= 4)%nat
      ∧ (∀ t, DecodeRune (bs ++ t) = (c, length bs))
      ∧ reencodes bs = true
      ∧ Forall (fun b => 128 <= b < 256) bs.
Proof.
  intros Hp0.
  pose proof (first_cases p0) as Hf.
  unfold DecodeRune at 1. 
  destruct (first p0) as [| |sz lo hi] eqn:Hfirst; [lia|by left|].
  destruct Hf as (Hlo & Hhi & Hsz).
  destruct rest as [|b1 rest].
  { left. by destruct (_ <? _)%nat. }
  destruct (length (p0 :: b1 :: rest) <? sz)%nat eqn:Hlen; [by left|].
  destruct (in_range lo hi b1) eqn:Hb1; [|by left]. simpl negb. cbv iota.
  apply in_range_true in Hb1.
  destruct (sz <=? 2)%nat eqn:Hsz2.
  { right. exists (N.lor (N.shiftl (N.land p0 31) 6) (N.land b1 63)), [p0; b1], rest.
    assert (sz = 2%nat) as -> by (apply Nat.leb_le in Hsz2; lia).
    assert (∀ t, DecodeRune ([p0; b1] ++ t) = (N.lor (N.shiftl (N.land p0 31) 6) (N.land b1 63), 2%nat)) as Hdec.
    { intros t. simpl. rewrite Hfirst. simpl.
      replace (in_range lo hi b1) with true by (symmetry; by apply in_range_true). done. }
    repeat split; try done; try (simpl; lia).
    - unfold reencodes. rewrite <- (app_nil_r [p0; b1]), Hdec. simpl.
      generalize check2_ok. unfold check2. rewrite forallb_forall. intros H.
      specialize (H p0). rewrite forallb_forall in H.
      pose proof (H ltac:(apply N_range_In; lia) b1 ltac:(apply N_range_In; lia)) as Hre.
      unfold reencodes in Hre. rewrite <- (app_nil_r [p0; b1]), Hdec in Hre. exact Hre.
    - repeat constructor; lia. }
  destruct rest as [|b2 rest].
  { apply Nat.ltb_ge in Hlen. apply Nat.leb_gt in Hsz2. simpl in Hlen. lia. }
  destruct (cont b2) eqn:Hb2; [|by left]. simpl negb. cbv iota.
  pose proof Hb2 as Hb2'. apply in_range_true in Hb2'. unfold locb, hicb in Hb2'.
  destruct (sz <=? 3)%nat eqn:Hsz3.
  { right. eexists _, [p0; b1; b2], rest.
    assert (sz = 3%nat) as -> by (apply Nat.leb_le in Hsz3; apply Nat.leb_gt in Hsz2; lia).
    assert (∀ t, DecodeRune ([p0; b1; b2] ++ t)
                 = (N.lor (N.lor (N.shiftl (N.land p0 15) 12) (N.shiftl (N.land b1 63) 6))
                          (N.land b2 63), 3%nat)) as Hdec.
    { intros t. simpl. rewrite Hfirst. simpl.
      replace (in_range lo hi b1) with true by (symmetry; by apply in_range_true).
      rewrite Hb2. done. }
    split; [reflexivity|]. split; [simpl; lia|]. split; [exact Hdec|]. split.
    - generalize check3_ok. unfold check3. rewrite forallb_forall. intros H.
      specialize (H p0 ltac:(apply N_range_In; lia)). rewrite forallb_forall in H.
      specialize (H b1 ltac:(apply N_range_In; lia)). rewrite forallb_forall in H.
      exact (H b2 ltac:(apply N_range_In; lia)).
    - repeat constructor; lia. }
  destruct rest as [|b3 rest].
  { apply Nat.ltb_ge in Hlen. apply Nat.leb_gt in Hsz3. simpl in Hlen. lia. }
  destruct (cont b3) eqn:Hb3; [|by left]. simpl negb. cbv iota.
  pose proof Hb3 as Hb3'. apply in_range_true in Hb3'. unfold locb, hicb in Hb3'.
  right. eexists _, [p0; b1; b2; b3], rest.
  assert (sz = 4%nat) as -> by (apply Nat.leb_gt in Hsz3; lia).
  assert (∀ t, DecodeRune ([p0; b1; b2; b3] ++ t)
               = (N.lor (N.lor (N.lor (N.shiftl (N.land p0 7) 18)
                                      (N.shiftl (N.land b1 63) 12))
                               (N.shiftl (N.land b2 63) 6))
                        (N.land b3 63), 4%nat)) as Hdec.
  { intros t. simpl. rewrite Hfirst. simpl.
    replace (in_range lo hi b1) with true by (symmetry; by apply in_range_true).
    rewrite Hb2, Hb3. done. }
  split; [reflexivity|]. split; [simpl; lia|]. split; [exact Hdec|]. split.
  - pose proof (Hdec []) as Hd. rewrite app_nil_r in Hd.
    unfold reencodes. rewrite Hd. cbn [length Nat.eqb negb orb].
    destruct (first_four _ _ _ Hfirst) as [(-> & -> & ->)|[(? & -> & ->)|(-> & -> & ->)]];
      (rewrite reencodes_four; [apply eqb_bytes_refl|lia..]).
  - repeat constructor; lia.
Qed.

Lemma reencodes_eq bs c :
  reencodes bs = true →
  (∀ t, DecodeRune (bs ++ t) = (c, length bs)) →
  EncodeRune c = bs.
Proof.
  intros Hre Hdec. unfold reencodes in Hre.
  rewrite <- (app_nil_r bs) in Hre at 1. rewrite Hdec in Hre.
  rewrite Nat.eqb_refl in Hre. simpl in Hre. by apply eqb_bytes_eq.
Qed.

End DecodeRune.

(** ** Strings: writing a literal and reading it back *)

Section Quote.
Import Exhaust utf8 json Coerce.

Lemma byte_small b : b < 256 → byte b = b.
Proof.
  intros H. unfold byte. change 255 with (N.ones 8).
  rewrite N.land_ones. apply N.mod_small. exact H.
Qed.

Lemma EncodeRune_ascii b : b < 128 → EncodeRune b = [b].
Proof.
  intros H. unfold EncodeRune.
  destruct (N.leb_spec b 127); [|lia]. rewrite byte_small; [done|lia].
Qed.

Lemma getu4_escaped b t :
  b < 128 →
  getu4 (c_bslash :: c_u :: c_0 :: c_0 :: hex (N.shiftr b 4) :: hex (N.land b 15) :: t)
  = Some b.
Proof.
  intros H.
  generalize check_hex_ok. unfold check_hex. rewrite forallb_forall. intros Hall.
  specialize (Hall b ltac:(apply N_range_In; lia)).
  apply bool_decide_eq_true in Hall. exact Hall.
Qed.

(** One step of [unquote_loop], by the kind of the next character. *)
Lemma unquote_end f r : unquote_loop (S f) (c_quote :: r) = Some ([], r).
Proof. reflexivity. Qed.

Lemma unquote_plain f c r :
  32 <= c → c < 128 → c ≠ c_quote → c ≠ c_bslash →
  unquote_loop (S f) (c :: r)
  = '(t, rest) ← unquote_loop f r; Some (c :: t, rest).
Proof.
  intros H32 H128 Hq Hb. cbn [unquote_loop].
  destruct (N.eqb_spec c c_quote); [done|].
  destruct (N.eqb_spec c c_bslash); [done|].
  destruct (N.ltb_spec c 32); [lia|].
  unfold RuneSelf. destruct (N.ltb_spec c 128); [done|lia].
Qed.

Lemma unquote_escape f e b r :
  e ≠ c_u → unescape e = Some b →
  unquote_loop (S f) (c_bslash :: e :: r)
  = '(t, rest) ← unquote_loop f r; Some (b :: t, rest).
Proof.
  intros Hu He. cbn [unquote_loop].
  change (c_bslash =? c_quote) with false. change (c_bslash =? c_bslash) with true.
  cbv iota. destruct (N.eqb_spec e c_u); [done|]. by rewrite He.
Qed.

Lemma unquote_u f h1 h2 h3 h4 rr r :
  getu4 (c_bslash :: c_u :: h1 :: h2 :: h3 :: h4 :: r) = Some rr →
  utf16.IsSurrogate rr = false →
  unquote_loop (S f) (c_bslash :: c_u :: h1 :: h2 :: h3 :: h4 :: r)
  = '(t, rest) ← unquote_loop f r; Some (EncodeRune rr ++ t, rest).
Proof.
  intros Hg Hs. cbn [unquote_loop].
  change (c_bslash =? c_quote) with false. change (c_bslash =? c_bslash) with true.
  change (c_u =? c_u) with true. cbv iota.
  rewrite Hg, Hs. reflexivity.
Qed.

Lemma unquote_multi f c r rr size :
  128 <= c → DecodeRune (c :: r) = (rr, size) →
  unquote_loop (S f) (c :: r)
  = '(t, rest) ← unquote_loop f (drop size (c :: r)); Some (EncodeRune rr ++ t, rest).
Proof.
  intros Hc Hd. cbn [unquote_loop].
  destruct (N.eqb_spec c c_quote) as [->|_]; [unfold c_quote in Hc; lia|].
  destruct (N.eqb_spec c c_bslash) as [->|_]; [unfold c_bslash in Hc; lia|].
  destruct (N.ltb_spec c 32); [lia|].
  unfold RuneSelf. destruct (N.ltb_spec c 128); [lia|].
  rewrite Hd. reflexivity.
Qed.

Lemma htmlSafeSet_true b :
  htmlSafeSet b = true → 32 <= b ∧ b ≠ c_quote ∧ b ≠ c_bslash.
Proof.
  unfold htmlSafeSet, c_quote, c_bslash.
  rewrite !andb_true_iff, !negb_true_iff, !N.eqb_neq, N.leb_le. tauto.
Qed.

(** Reading back an escaped ASCII character. *)
Lemma unquote_escape_ascii f b r :
  b < 128 →
  unquote_loop (S f) (escape_ascii b ++ r)
  = '(t, rest) ← unquote_loop f r; Some (b :: t, rest).
Proof.
  intros Hb. unfold escape_ascii.
  destruct (N.eqb_spec b c_bslash) as [->|?]; [reflexivity|].
  destruct (N.eqb_spec b c_quote) as [->|?]; [reflexivity|].
  simpl orb. cbv iota.
  repeat match goal with
         | |- context [if ?x =? ?y then _ else _] =>
           destruct (N.eqb_spec x y) as [->|?]; [reflexivity|]
         end.
  simpl app.
  rewrite (unquote_u f _ _ _ _ b); [| by apply getu4_escaped |].
  - by rewrite EncodeRune_ascii.
  - unfold utf16.IsSurrogate, utf16.surr1.
    destruct (N.leb_spec 55296 b); [lia|done].
Qed.

(** Reading back the encoding of a string gives the coerced string. *)
Lemma unquote_appendString_loop n :
  ∀ src, (length src <= n)%nat →
  ∀ fuel rest, (length (appendString_loop n src) < fuel)%nat →
  unquote_loop fuel (appendString_loop n src ++ c_quote :: rest)
  = Some (coerce_loop n src, rest).
Proof.
  induction n as [|n IH]; intros src Hlen fuel rest Hfuel.
  { destruct src; [|simpl in Hlen; lia]. destruct fuel; [simpl in Hfuel; lia|]. reflexivity. }
  destruct src as [|b src].
  { destruct fuel; [simpl in Hfuel; lia|]. reflexivity. }
  destruct fuel as [|fuel]; [lia|].
  simpl in Hlen.
  cbn [appendString_loop coerce_loop] in *.
  unfold RuneSelf in *.
  destruct (N.ltb_spec b 128) as [Hb|Hb].
  - (* ASCII *)
    destruct (htmlSafeSet b) eqn:Hsafe.
    + apply htmlSafeSet_true in Hsafe as (? & ? & ?).
      simpl app. rewrite unquote_plain by done.
      rewrite IH; [done|lia|]. simpl in Hfuel. lia.
    + rewrite <- app_assoc, unquote_escape_ascii by done.
      rewrite IH; [done|lia|].
      rewrite length_app in Hfuel.
      assert (0 < length (escape_ascii b))%nat; [|lia].
      unfold escape_ascii.
      repeat match goal with
             | |- context [if ?c then _ else _] => destruct c
             end; simpl; lia.
  - (* the start of a multi-byte sequence, or a stray byte *)
    destruct (DecodeRune_cases b src Hb)
      as [Hd|(c & bs & rest' & Hsplit & Hbs & Hdec & Hre & Hhigh)].
    + rewrite Hd in *. change ((RuneError =? RuneError) && (1 =? 1)%nat) with true in *.
      cbv iota in *. simpl app.
      rewrite (unquote_u fuel _ _ _ _ RuneError); [|reflexivity|reflexivity].
      change (drop 1 (b :: src)) with (drop 0 src) in *. rewrite drop_0 in *.
      rewrite IH; [done|lia|].
      simpl in Hfuel. lia.
    + pose proof (reencodes_eq bs c Hre Hdec) as Henc.
      rewrite Hsplit, Hdec in *.
      assert (length bs <> 1)%nat as Hne by lia.
      apply Nat.eqb_neq in Hne. rewrite Hne, andb_false_r in *.
      rewrite take_app_length, drop_app_length in *.
      assert (length rest' <= n)%nat as Hrest.
      { apply (f_equal (@length N)) in Hsplit.
        rewrite length_app in Hsplit. simpl in Hsplit. lia. }
      destruct ((c =? 8232) || (c =? 8233)) eqn:Hsep.
      * (* U+2028 and U+2029 are written as escapes *)
        simpl app. rewrite (unquote_u fuel _ _ _ _ c).
        -- rewrite IH; [by rewrite Henc|lia|].
           simpl in Hfuel. lia.
        -- apply orb_true_iff in Hsep as [->%N.eqb_eq| ->%N.eqb_eq]; reflexivity.
        -- apply orb_true_iff in Hsep as [->%N.eqb_eq| ->%N.eqb_eq]; reflexivity.
      * (* any other sequence is copied *)
        destruct bs as [|b0 bs']; [simpl in Hbs; lia|].
        injection Hsplit as <- Hsrc.
        rewrite <- app_assoc. simpl app at 1.
        rewrite (unquote_multi fuel b _ c (length (b :: bs'))); [|done|].
        2:{ rewrite app_comm_cons. apply Hdec. }
        rewrite app_comm_cons, drop_app_length.
        rewrite IH; [by rewrite Henc|lia|].
        rewrite length_app in Hfuel. simpl in Hfuel. lia.
Qed.

End Quote.

(** ** Trees: writing a value and parsing it back *)

Section Parse.
Import utf8 json Coerce.

Lemma unquote_appendString s :
  ∃ body, appendString s = c_quote :: body
          ∧ ∀ rest, unquote (body ++ rest) = Some (coerce s, rest).
Proof.
  exists (appendString_loop (length (bytes_of_string s)) (bytes_of_string s) ++ [c_quote]).
  split; [reflexivity|]. intros rest'.
  unfold unquote. rewrite <- app_assoc. simpl app.
  rewrite unquote_appendString_loop; [reflexivity|lia|].
  rewrite length_app. simpl. lia.
Qed.

(** An induction principle that reaches inside arrays and objects. *)
Lemma value_ind_nested (P : value → Prop) :
  P JNull → (∀ b, P (JBool b)) → (∀ lit, P (JNumber lit)) → (∀ s, P (JString s)) →
  (∀ elems, Forall P elems → P (JArray elems)) →
  (∀ members, Forall (fun kv => P (snd kv)) members → P (JObject members)) →
  ∀ v, P v.
Proof.
  intros Hnull Hbool Hnum Hstr Harr Hobj.
  fix IH 1. intros [| b | lit | s | elems | members].
  - exact Hnull.
  - apply Hbool.
  - apply Hnum.
  - apply Hstr.
  - apply Harr. induction elems as [|x elems IHl]; constructor; [apply IH|exact IHl].
  - apply Hobj. induction members as [|[k x] members IHl]; constructor; [apply IH|exact IHl].
Qed.

Lemma render_array elems :
  render (JArray elems) = c_lbrack :: render_elems elems ++ [c_rbrack].
Proof.
  reflexivity.
Qed.

Lemma render_object members :
  render (JObject members) = c_lbrace :: render_members members ++ [c_rbrace].
Proof.
  reflexivity.
Qed.

(** The first character of an encoding. *)
Lemma render_head v :
  number_free v = true →
  ∃ c tl, render v = c :: tl
          ∧ (c = c_lbrace ∨ c = c_lbrack ∨ c = c_quote ∨ c = 116 ∨ c = 102 ∨ c = 110).
Proof.
  destruct v as [| [|] | lit | s | elems | members]; intros Hnf; try done.
  - eexists _, _. split; [reflexivity|]. naive_solver.
  - eexists _, _. split; [reflexivity|]. naive_solver.
  - eexists _, _. split; [reflexivity|]. naive_solver.
  - eexists _, _. split; [reflexivity|]. naive_solver.
  - rewrite render_array. eexists _, _. split; [reflexivity|]. naive_solver.
  - rewrite render_object. eexists _, _. split; [reflexivity|]. naive_solver.
Qed.

Lemma skip_ws_start c l :
  c = c_lbrace ∨ c = c_lbrack ∨ c = c_quote ∨ c = 116 ∨ c = 102 ∨ c = 110 →
  skip_ws (c :: l) = c :: l.
Proof. intros [->|[->|[->|[->|[->| ->]]]]]; reflexivity. Qed.

Lemma parse_value_string f d r :
  parse_value (S f) d (c_quote :: r) = '(t, rest) ← unquote r; Some (JString t, rest).
Proof. reflexivity. Qed.

Lemma parse_value_array f d c r :
  c = c_lbrace ∨ c = c_lbrack ∨ c = c_quote ∨ c = 116 ∨ c = 102 ∨ c = 110 →
  N.succ d <= maxNestingDepth →
  parse_value (S f) d (c_lbrack :: c :: r)
  = '(es, rest) ← parse_elements f (N.succ d) (c :: r); Some (JArray es, rest).
Proof.
  intros Hc Hd. cbn [parse_value].
  change (skip_ws (c_lbrack :: c :: r)) with (c_lbrack :: c :: r). cbv iota.
  change (c_lbrack =? c_lbrace) with false. change (c_lbrack =? c_lbrack) with true.
  cbv iota. destruct (N.ltb_spec maxNestingDepth (N.succ d)); [lia|].
  rewrite skip_ws_start by done.
  destruct Hc as [->|[->|[->|[->|[->| ->]]]]]; reflexivity.
Qed.

Lemma parse_value_object f d r :
  N.succ d <= maxNestingDepth →
  parse_value (S f) d (c_lbrace :: c_quote :: r)
  = '(ms, rest) ← parse_members f (N.succ d) (c_quote :: r); Some (JObject ms, rest).
Proof.
  intros Hd. cbn [parse_value].
  change (skip_ws (c_lbrace :: c_quote :: r)) with (c_lbrace :: c_quote :: r). cbv iota.
  change (c_lbrace =? c_lbrace) with true. cbv iota.
  destruct (N.ltb_spec maxNestingDepth (N.succ d)); [lia|].
  reflexivity.
Qed.

Lemma parse_value_empty f d rest :
  N.succ d <= maxNestingDepth →
  parse_value (S f) d (c_lbrack :: c_rbrack :: rest) = Some (JArray [], rest)
  ∧ parse_value (S f) d (c_lbrace :: c_rbrace :: rest) = Some (JObject [], rest).
Proof.
  intros Hd. cbn [parse_value].
  change (skip_ws (c_lbrack :: c_rbrack :: rest)) with (c_lbrack :: c_rbrack :: rest).
  change (skip_ws (c_lbrace :: c_rbrace :: rest)) with (c_lbrace :: c_rbrace :: rest).
  cbv iota.
  change (c_lbrack =? c_lbrace) with false. change (c_lbrack =? c_lbrack) with true.
  change (c_lbrace =? c_lbrace) with true. cbv iota.
  destruct (N.ltb_spec maxNestingDepth (N.succ d)); [lia|].
  split; reflexivity.
Qed.

Lemma fold_max_le (l : list N) x : In x l → x <= fold_right N.max 0 l.
Proof.
  induction l as [|y l IH]; simpl; [done|].
  intros [->|H]; [lia|]. specialize (IH H). lia.
Qed.

(** Parsing the encoding of a tree gives the coerced tree. *)
Lemma parse_value_render v :
  number_free v = true →
  ∀ fuel depth rest,
    (size v <= fuel)%nat →
    depth + height v <= maxNestingDepth →
    parse_value fuel depth (render v ++ rest) = Some (coerce_value v, rest).
Proof.
  induction v as [| b | lit | s | elems IH | members IH] using value_ind_nested;
    intros Hnf fuel depth rest Hfuel Hdepth;
    (destruct fuel as [|fuel]; [simpl in Hfuel; lia|]).
  - reflexivity.
  - destruct b; reflexivity.
  - done.
  - change (render (JString s)) with (appendString s).
    destruct (unquote_appendString s) as (body & -> & Hbody).
    simpl app. rewrite parse_value_string, Hbody. reflexivity.
  - (* arrays *)
    rewrite render_array. simpl app. rewrite <- app_assoc. simpl app.
    cbn [height] in Hdepth. cbn [number_free] in Hnf. cbn [size] in Hfuel.
    destruct elems as [|x elems].
    { apply parse_value_empty. lia. }
    assert (∀ l, Forall (fun x =>
                number_free x = true →
                ∀ fuel depth rest,
                  (size x <= fuel)%nat →
                  depth + height x <= maxNestingDepth →
                  parse_value fuel depth (render x ++ rest) = Some (coerce_value x, rest)) l →
              forallb number_free l = true →
              l ≠ [] →
              ∀ fuel rest,
                (list_sum (List.map (fun x => S (size x)) l) <= fuel)%nat →
                N.succ depth + fold_right N.max 0 (List.map height l) <= maxNestingDepth →
                parse_elements fuel (N.succ depth) (render_elems l ++ c_rbrack :: rest)
                = Some (List.map coerce_value l, rest)) as Helems.
    { clear. induction l as [|x l IHl]; [done|].
      intros HP Hnf _ fuel rest Hfuel Hdepth.
      apply Forall_cons in HP as [Hx HP].
      cbn [forallb] in Hnf. apply andb_true_iff in Hnf as [Hnfx Hnf].
      cbn [List.map list_sum fold_right] in Hfuel, Hdepth.
      pose proof (N.le_max_l (height x) (fold_right N.max 0 (List.map height l))).
      pose proof (N.le_max_r (height x) (fold_right N.max 0 (List.map height l))).
      destruct fuel as [|fuel]; [simpl in Hfuel; lia|].
      cbn [parse_elements].
      destruct l as [|y l].
      - cbn [render_elems]. rewrite Hx; [|done|unfold list_sum in *; cbn [List.map fold_right snd] in *; lia|lia].
        reflexivity.
      - change (render_elems (x :: y :: l))
          with (render x ++ c_comma :: render_elems (y :: l)).
        rewrite <- app_assoc. simpl app.
        rewrite Hx; [|done|unfold list_sum in *; cbn [List.map fold_right snd] in *; lia|lia].
        cbn [mbind option_bind]. 
        change (skip_ws (c_comma :: ?r)) with (c_comma :: r).
        cbv iota. change (c_comma =? c_comma) with true. cbv iota.
        rewrite IHl; [reflexivity|done|done|done|unfold list_sum in *; cbn [List.map fold_right snd] in *; lia|lia]. }
    destruct (render_head x) as (c & tl & Hhead & Hc).
    { cbn [forallb] in Hnf. by apply andb_true_iff in Hnf as [? _]. }
    specialize (Helems (x :: elems) IH Hnf ltac:(done) fuel rest).
    assert (render_elems (x :: elems) = c :: tl ++ match elems with
                                                   | [] => []
                                                   | _ => c_comma :: render_elems elems
                                                   end) as Hre.
    { destruct elems; cbn [render_elems]; rewrite Hhead; [by rewrite app_nil_r|done]. }
    rewrite Hre in *. simpl app in *.
    rewrite parse_value_array; [|done|lia].
    rewrite Helems; [reflexivity|unfold list_sum in *; cbn [List.map fold_right snd] in *; lia|lia].
  - (* objects *)
    rewrite render_object. simpl app. rewrite <- app_assoc. simpl app.
    cbn [height] in Hdepth. cbn [number_free] in Hnf. cbn [size] in Hfuel.
    destruct members as [|[k x] members].
    { apply parse_value_empty. lia. }
    assert (∀ l, Forall (fun kv =>
                number_free (snd kv) = true →
                ∀ fuel depth rest,
                  (size (snd kv) <= fuel)%nat →
                  depth + height (snd kv) <= maxNestingDepth →
                  parse_value fuel depth (render (snd kv) ++ rest)
                  = Some (coerce_value (snd kv), rest)) l →
              forallb (fun kv => number_free (snd kv)) l = true →
              l ≠ [] →
              ∀ fuel rest,
                (list_sum (List.map (fun kv => S (size (snd kv))) l) <= fuel)%nat →
                N.succ depth + fold_right N.max 0 (List.map (fun kv => height (snd kv)) l)
                <= maxNestingDepth →
                parse_members fuel (N.succ depth) (render_members l ++ c_rbrace :: rest)
                = Some (List.map (fun kv => (coerce (fst kv), coerce_value (snd kv))) l, rest))
      as Hmembers.
    { clear. induction l as [|[k x] l IHl]; [done|].
      intros HP Hnf _ fuel rest Hfuel Hdepth.
      apply Forall_cons in HP as [Hx HP]. cbn [snd] in Hx.
      cbn [forallb snd] in Hnf. apply andb_true_iff in Hnf as [Hnfx Hnf].
      cbn [List.map list_sum fold_right snd fst] in Hfuel, Hdepth |- *.
      pose proof (N.le_max_l (height x)
                    (fold_right N.max 0 (List.map (fun kv => height (snd kv)) l))).
      pose proof (N.le_max_r (height x)
                    (fold_right N.max 0 (List.map (fun kv => height (snd kv)) l))).
      destruct fuel as [|fuel]; [simpl in Hfuel; lia|].
      destruct (unquote_appendString k) as (body & Hk & Hbody).
      cbn [parse_members].
      destruct l as [|[k' y] l].
      - cbn [render_members]. rewrite Hk. rewrite <- !app_assoc. simpl app.
        change (skip_ws (c_quote :: ?r)) with (c_quote :: r). cbv iota.
        change (c_quote =? c_quote) with true. cbv iota.
        rewrite Hbody. cbn [mbind option_bind].
        change (skip_ws (c_colon :: ?r)) with (c_colon :: r). cbv iota.
        change (c_colon =? c_colon) with true. cbv iota.
        rewrite Hx; [|done|unfold list_sum in *; cbn [List.map fold_right snd] in *; lia|lia].
        reflexivity.
      - change (render_members ((k, x) :: (k', y) :: l))
          with (appendString k ++ c_colon :: render x ++ c_comma :: render_members ((k', y) :: l)).
        remember (render_members ((k', y) :: l)) as tail eqn:Htail.
        rewrite Hk. rewrite <- !app_assoc. simpl app. rewrite <- !app_assoc. simpl app.
        change (skip_ws (c_quote :: ?r)) with (c_quote :: r). cbv iota.
        change (c_quote =? c_quote) with true. cbv iota.
        rewrite Hbody. cbn [mbind option_bind].
        change (skip_ws (c_colon :: ?r)) with (c_colon :: r). cbv iota.
        change (c_colon =? c_colon) with true. cbv iota.
        rewrite Hx; [|done|unfold list_sum in *; cbn [List.map fold_right snd] in *; lia|lia].
        cbn [mbind option_bind].
        change (skip_ws (c_comma :: ?r)) with (c_comma :: r).
        cbv iota. change (c_comma =? c_comma) with true. cbv iota.
        subst tail.
        rewrite IHl; [reflexivity|done|done|done|unfold list_sum in *; cbn [List.map fold_right snd] in *; lia|lia]. }
    specialize (Hmembers ((k, x) :: members) IH Hnf ltac:(done) fuel rest).
    destruct (unquote_appendString k) as (body & Hk & _).
    assert (∃ tl, render_members ((k, x) :: members) = c_quote :: tl) as [tl Hre].
    { destruct members as [|[k' y] l]; cbn [render_members]; rewrite Hk; by eexists. }
    rewrite Hre in *. simpl app in *.
    rewrite parse_value_object; [|lia].
    rewrite Hmembers; [reflexivity|unfold list_sum in *; cbn [List.map fold_right snd] in *; lia|lia].
Qed.

(** Parsing an encoding as a whole text. *)
Lemma length_render_size v : number_free v = true → (size v <= length (render v))%nat.
Proof.
  induction v as [| b | lit | s | elems IH | members IH] using value_ind_nested;
    intros Hnf.
  - simpl. lia.
  - destruct b; simpl; lia.
  - done.
  - simpl. lia.
  - rewrite render_array. cbn [size number_free] in *. simpl length. rewrite length_app.
    simpl length.
    assert (list_sum (List.map (fun x => S (size x)) elems) <= S (length (render_elems elems)))%nat;
      [|lia].
    induction elems as [|x [|y l] IHl]; [simpl; lia| |].
    + apply Forall_cons in IH as [Hx _]. cbn [forallb] in Hnf.
      apply andb_true_iff in Hnf as [Hnfx _]. specialize (Hx Hnfx).
      unfold list_sum. cbn [List.map fold_right render_elems]. lia.
    + apply Forall_cons in IH as [Hx IH]. cbn [forallb] in Hnf.
      apply andb_true_iff in Hnf as [Hnfx Hnf]. specialize (Hx Hnfx).
      specialize (IHl IH Hnf).
      change (render_elems (x :: y :: l)) with (render x ++ c_comma :: render_elems (y :: l)).
      rewrite length_app. unfold list_sum in *. cbn [List.map fold_right length] in *. lia.
  - rewrite render_object. cbn [size number_free] in *. simpl length. rewrite length_app.
    simpl length.
    assert (list_sum (List.map (fun kv => S (size (snd kv))) members)
            <= S (length (render_members members)))%nat; [|lia].
    induction members as [|[k x] [|[k' y] l] IHl]; [simpl; lia| |].
    + apply Forall_cons in IH as [Hx _]. cbn [forallb snd] in Hnf.
      apply andb_true_iff in Hnf as [Hnfx _]. specialize (Hx Hnfx). cbn [snd] in Hx.
      cbn [render_members]. rewrite length_app. unfold list_sum.
      cbn [List.map fold_right snd length]. lia.
    + apply Forall_cons in IH as [Hx IH]. cbn [forallb snd] in Hnf.
      apply andb_true_iff in Hnf as [Hnfx Hnf]. specialize (Hx Hnfx). cbn [snd] in Hx.
      specialize (IHl IH Hnf).
      change (render_members ((k, x) :: (k', y) :: l))
        with (appendString k ++ c_colon :: render x ++ c_comma :: render_members ((k', y) :: l)).
      rewrite length_app. cbn [length]. rewrite length_app.
      unfold list_sum in *. cbn [List.map fold_right snd length] in *. lia.
Qed.

Theorem parse_render v :
  number_free v = true →
  height v <= maxNestingDepth →
  parse (render v) = Some (coerce_value v).
Proof.
  intros Hnf Hh. unfold parse.
  rewrite <- (app_nil_r (render v)) at 2.
  rewrite parse_value_render; [reflexivity|done| |lia].
  pose proof (length_render_size v Hnf). lia.
Qed.
End Parse.

(** ** Commands: encoding and decoding *)

Section CommandRoundTrip.
Import utf8 json decode wire Coerce.

Lemma string_of_bytes_of_string s : string_of_bytes (bytes_of_string s) = s.
Proof.
  unfold string_of_bytes, bytes_of_string.
  rewrite List.map_map.
  rewrite (List.map_ext _ id) by apply ascii_N_embedding.
  rewrite List.map_id. apply string_of_list_ascii_of_string.
Qed.

(** Valid UTF-8 is left as it is. *)
Lemma coerce_loop_valid n :
  ∀ src, (length src <= n)%nat → Valid_loop n src = true → coerce_loop n src = src.
Proof.
  induction n as [|n IH]; intros src Hlen Hvalid.
  { destruct src; [done|simpl in Hlen; lia]. }
  destruct src as [|b src]; [done|].
  simpl in Hlen. cbn [Valid_loop coerce_loop] in *.
  unfold RuneSelf in *.
  destruct (N.ltb_spec b 128) as [Hb|Hb].
  - rewrite IH; [done|lia|done].
  - destruct (DecodeRune_cases b src Hb)
      as [Hd|(c & bs & rest' & Hsplit & Hbs & Hdec & _)].
    + rewrite Hd in Hvalid. done.
    + rewrite Hsplit, Hdec in *.
      assert (length bs <> 1)%nat as Hne by lia.
      apply Nat.eqb_neq in Hne. rewrite Hne, ?andb_false_r in *.
      rewrite take_app_length, drop_app_length in *.
      rewrite IH; [done| |done].
      apply (f_equal (@length N)) in Hsplit.
      rewrite length_app in Hsplit. simpl in Hsplit. lia.
Qed.

Lemma coerce_valid s : ValidString s = true → coerce s = s.
Proof.
  intros H. unfold coerce, coerce_bytes.
  rewrite coerce_loop_valid; [apply string_of_bytes_of_string|lia|exact H].
Qed.

Lemma map_coerce_valid l : forallb ValidString l = true → List.map coerce l = l.
Proof.
  induction l as [|s l IH]; [done|].
  cbn [forallb]. intros [Hs Hl]%andb_true_iff.
  cbn [List.map]. by rewrite coerce_valid, IH.
Qed.

(** The instruction list as an array, and back. *)
Lemma into_elems_strings l old :
  into_elems "" into_string (List.map JString l) old = Some l.
Proof.
  revert old. induction l as [|s l IH]; intros old; [done|].
  cbn [List.map into_elems into_string]. cbn [mbind option_bind].
  by rewrite IH.
Qed.

Lemma coerce_value_strings l :
  List.map coerce_value (List.map JString l) = List.map JString (List.map coerce l).
Proof. rewrite !List.map_map. reflexivity. Qed.

Lemma number_free_strings l : forallb number_free (List.map JString l) = true.
Proof. induction l; [done|]. simpl. done. Qed.

Lemma height_strings l : fold_right N.max 0 (List.map height (List.map JString l)) = 0.
Proof. induction l as [|s l IH]; [done|]. cbn [List.map fold_right height]. rewrite IH. done. Qed.

Lemma number_free_PoppitCommand c : number_free (PoppitCommand_to_json c) = true.
Proof.
  destruct c as [repo branch ty dir [cmds|] [md|]]; cbn; rewrite ?number_free_strings; done.
Qed.

Lemma height_PoppitCommand c : height (PoppitCommand_to_json c) <= maxNestingDepth.
Proof.
  destruct c as [repo branch ty dir [cmds|] [md|]];
    cbn [PoppitCommand_to_json height fold_right List.map app snd
         PoppitCommand.Repo PoppitCommand.Branch PoppitCommand.Type_ PoppitCommand.Dir
         PoppitCommand.Commands PoppitCommand.Metadata CommandMetadata_to_json];
    rewrite ?height_strings; unfold maxNestingDepth; lia.
Qed.

Lemma into_PoppitCommand_coerced c :
  into_PoppitCommand (coerce_value (PoppitCommand_to_json c)) PoppitCommand.zero
  = Some (coerce_PoppitCommand c).
Proof.
  destruct c as [repo branch ty dir [cmds|] [md|]];
    unfold PoppitCommand_to_json, coerce_PoppitCommand;
    cbn [coerce_value List.map app fst snd
         PoppitCommand.Repo PoppitCommand.Branch PoppitCommand.Type_ PoppitCommand.Dir
         PoppitCommand.Commands PoppitCommand.Metadata CommandMetadata_to_json
         CommandMetadata.Channel CommandMetadata.Ts];
    rewrite ?coerce_value_strings;
    change (coerce "repo") with "repo"; change (coerce "branch") with "branch";
    change (coerce "type") with "type"; change (coerce "dir") with "dir";
    change (coerce "commands") with "commands"; change (coerce "metadata") with "metadata";
    change (coerce "channel") with "channel"; change (coerce "ts") with "ts";
    unfold into_PoppitCommand, into_struct, PoppitCommand.zero;
    cbn [fold_left fst snd];
    repeat (match goal with
            | |- context [find_field ?names ?k] =>
              let r := eval vm_compute in (find_field names k) in
              change (find_field names k) with r
            end);
    cbn [mbind option_bind set_PoppitCommand into_string into_nilable_slice into_pointer
         String.eqb Ascii.eqb Bool.eqb fmap option_fmap option_map default];
    rewrite ?into_elems_strings; reflexivity.
Qed.

(** Decoding the encoding of a command gives the coerced command. *)
Theorem Unmarshal_Marshal_PoppitCommand c :
  Unmarshal_PoppitCommand (Marshal_PoppitCommand c) = Some (coerce_PoppitCommand c).
Proof.
  unfold Unmarshal_PoppitCommand, Unmarshal, Marshal_PoppitCommand.
  rewrite parse_render;
    [|apply number_free_PoppitCommand|apply height_PoppitCommand].
  apply into_PoppitCommand_coerced.
Qed.

End CommandRoundTrip.

(** ** Valid UTF-8: what the decoder produces *)

Section ValidUTF8.
Import utf8 json decode wire Coerce ExhaustRunes Validity.

Lemma forallb_from_iter f lo n :
  snd (N.iter n (forallb_step f) (true, lo)) = lo + n
  ∧ (fst (N.iter n (forallb_step f) (true, lo)) = true →
     ∀ x, lo <= x → x < lo + n → f x = true).
Proof.
  induction n as [|n IH] using N.peano_ind.
  { split; [simpl; lia|]. intros _ x ? ?. lia. }
  rewrite N.iter_succ. destruct IH as [Hpos Hall].
  destruct (N.iter n (forallb_step f) (true, lo)) as [ok pos].
  simpl in Hpos, Hall |- *. subst pos.
  split; [lia|].
  intros [Hok Hhere]%andb_true_iff x Hlo Hhi.
  destruct (N.eq_dec x (lo + n)) as [->|Hne]; [done|].
  apply Hall; [done|done|lia].
Qed.

Lemma forallb_from_spec f lo n x :
  forallb_from f lo n = true → lo <= x → x < lo + n → f x = true.
Proof. intros H. by apply forallb_from_iter. Qed.

(** The fuel of [Valid_loop] does not matter once it covers the input. *)
Lemma Valid_loop_fuel n :
  ∀ m p, (length p <= n)%nat → (length p <= m)%nat → Valid_loop n p = Valid_loop m p.
Proof.
  induction n as [|n IH]; intros m p Hn Hm.
  { destruct p; [|simpl in Hn; lia]. by destruct m. }
  destruct p as [|b p]; [by destruct m|].
  destruct m as [|m]; [simpl in Hm; lia|].
  simpl in Hn, Hm. cbn [Valid_loop].
  unfold RuneSelf. destruct (N.ltb_spec b 128) as [Hb|Hb]; [apply IH; lia|].
  destruct (DecodeRune_cases b p Hb) as [Hd|(c & bs & rest' & Hsplit & Hbs & Hdec & _)].
  { by rewrite Hd. }
  rewrite Hsplit, Hdec.
  destruct (length bs =? 1)%nat; [done|].
  apply (f_equal (@length N)) in Hsplit. rewrite length_app in Hsplit. simpl in Hsplit.
  rewrite drop_app_length. apply IH; lia.
Qed.

Lemma Valid_ascii b t : b < 128 → Valid (b :: t) = Valid t.
Proof.
  intros Hb. unfold Valid. cbn [length Valid_loop]. unfold RuneSelf.
  by destruct (N.ltb_spec b 128); [|lia].
Qed.

Lemma Valid_multi bs c t :
  (2 <= length bs)%nat →
  Forall (fun b => 128 <= b < 256) bs →
  (∀ t, DecodeRune (bs ++ t) = (c, length bs)) →
  Valid (bs ++ t) = Valid t.
Proof.
  intros Hlen Hhigh Hdec. unfold Valid.
  destruct bs as [|b bs]; [simpl in Hlen; lia|].
  apply Forall_cons in Hhigh as [Hb _].
  pose proof (Hdec t) as Hd. simpl app in Hd |- *.
  cbn [length Valid_loop]. unfold RuneSelf.
  destruct (N.ltb_spec b 128); [lia|].
  rewrite Hd.
  destruct (Nat.eqb_spec (length (b :: bs)) 1); [lia|].
  change (b :: bs ++ t) with ((b :: bs) ++ t).
  rewrite drop_app_length.
  apply Valid_loop_fuel; [rewrite length_app|]; lia.
Qed.

(** What [EncodeRune] writes decodes again, whatever follows. *)
Lemma EncodeRune_cases r :
  (r < 128 ∧ EncodeRune r = [r])
  ∨ ∃ c, (2 <= length (EncodeRune r))%nat
         ∧ Forall (fun b => 128 <= b < 256) (EncodeRune r)
         ∧ ∀ t, DecodeRune (EncodeRune r ++ t) = (c, length (EncodeRune r)).
Proof.
  destruct (N.lt_ge_cases r 128) as [Hr|Hr].
  { left. split; [done|]. by apply EncodeRune_ascii. }
  right.
  assert (∃ r', 128 <= r' ∧ r' <= MaxRune ∧ EncodeRune r = EncodeRune r') as (r' & Hlo & Hhi & ->).
  { destruct (N.le_gt_cases r MaxRune) as [Hmax|Hmax]; [by exists r|].
    exists RuneError. split; [unfold RuneError; lia|]. split; [unfold RuneError, MaxRune; lia|].
    unfold EncodeRune.
    destruct (N.leb_spec r 127); [lia|].
    destruct (N.leb_spec r 2047); [unfold MaxRune in Hmax; lia|].
    destruct (N.ltb_spec MaxRune r); [|lia]. reflexivity. }
  assert (encodes_well r' = true) as Hwell.
  { destruct (N.lt_ge_cases r' 65536) as [Hsmall|Hbig].
    - apply (forallb_from_spec _ _ _ r' check_encode_small_ok Hlo). lia.
    - by apply encodes_well_four. }
  unfold encodes_well in Hwell.
  apply andb_true_iff in Hwell as [[Hlen Hsize]%andb_true_iff Hhigh].
  apply Nat.leb_le in Hlen. apply Nat.eqb_eq in Hsize.
  assert (Forall (fun b => 128 <= b < 256) (EncodeRune r')) as Hbounds.
  { apply Forall_forall. intros b Hb. rewrite forallb_forall in Hhigh.
    specialize (Hhigh b ltac:(by apply list_elem_of_In)).
    apply andb_true_iff in Hhigh as [?%N.leb_le ?%N.ltb_lt]. done. }
  destruct (EncodeRune r') as [|b0 rest] eqn:Henc; [simpl in Hlen; lia|].
  apply Forall_cons in Hbounds as [Hb0 Hrest].
  destruct (DecodeRune_cases b0 rest ltac:(lia))
    as [Hd|(c & bs & rest' & Hsplit & Hbs & Hdec & _ & _)].
  { rewrite Hd in Hsize. simpl in Hsize, Hlen. lia. }
  exists c. split; [done|]. split; [by constructor|].
  assert (rest' = []) as ->.
  { rewrite Hsplit, Hdec in Hsize. simpl in Hsize.
    rewrite length_app in Hsize. destruct rest'; [done|simpl in Hsize; lia]. }
  rewrite app_nil_r in Hsplit. rewrite Hsplit. exact Hdec.
Qed.

Lemma Valid_EncodeRune r t : Valid (EncodeRune r ++ t) = Valid t.
Proof.
  destruct (EncodeRune_cases r) as [[Hr ->]|(c & Hlen & Hhigh & Hdec)].
  - by apply Valid_ascii.
  - by apply (Valid_multi _ c).
Qed.

Lemma Valid_small p : Valid p = true → Forall (fun b => b < 256) p.
Proof.
  remember (length p) as n eqn:Hn. revert p Hn.
  induction n as [n IH] using lt_wf_ind. intros p -> Hvalid.
  destruct p as [|b p]; [constructor|].
  destruct (N.lt_ge_cases b 128) as [Hb|Hb].
  - rewrite Valid_ascii in Hvalid by done.
    constructor; [lia|]. apply (IH (length p)); [simpl; lia|done|done].
  - destruct (DecodeRune_cases b p Hb)
      as [Hd|(c & bs & rest' & Hsplit & Hbs & Hdec & _ & Hhigh)].
    + unfold Valid in Hvalid. cbn [length Valid_loop] in Hvalid.
      unfold RuneSelf in Hvalid. destruct (N.ltb_spec b 128); [lia|].
      by rewrite Hd in Hvalid.
    + rewrite Hsplit in *. rewrite (Valid_multi _ c) in Hvalid by (done || lia).
      apply Forall_app. split.
      * eapply Forall_impl; [exact Hhigh|]. simpl. intros; lia.
      * apply (IH (length rest')); [rewrite length_app; lia|done|done].
Qed.

Lemma bytes_of_string_of_bytes p :
  Forall (fun b => b < 256) p → bytes_of_string (string_of_bytes p) = p.
Proof.
  intros H. unfold bytes_of_string, string_of_bytes.
  rewrite list_ascii_of_string_of_list_ascii, List.map_map.
  induction H as [|b p Hb _ IH]; [done|].
  cbn [List.map]. by rewrite N_ascii_embedding, IH.
Qed.

Lemma ValidString_of_bytes p : Valid p = true → ValidString (string_of_bytes p) = true.
Proof.
  intros H. unfold ValidString.
  by rewrite bytes_of_string_of_bytes by by apply Valid_small.
Qed.

(** What the decoder reads from a string literal is valid UTF-8. *)
Lemma unquote_loop_valid fuel :
  ∀ s t rest, unquote_loop fuel s = Some (t, rest) → Valid t = true.
Proof.
  induction fuel as [|fuel IH]; intros s t rest H; [done|].
  cbn [unquote_loop] in H.
  destruct s as [|c r]; [done|].
  destruct (c =? c_quote); [by injection H as <- <-|].
  destruct (c =? c_bslash).
  - destruct r as [|e r']; [done|].
    destruct (e =? c_u).
    + destruct (getu4 _) as [rr|]; [|done].
      destruct (utf16.IsSurrogate rr).
      * destruct (negb _).
        -- destruct (unquote_loop fuel _) as [[t' rest']|] eqn:Hrec; [|done].
           injection H as <- <-. rewrite Valid_EncodeRune. by eapply IH.
        -- destruct (unquote_loop fuel _) as [[t' rest']|] eqn:Hrec; [|done].
           injection H as <- <-.
           change (Valid (EncodeRune RuneError ++ t') = true).
           rewrite Valid_EncodeRune. by eapply IH.
      * destruct (unquote_loop fuel _) as [[t' rest']|] eqn:Hrec; [|done].
        injection H as <- <-. rewrite Valid_EncodeRune. by eapply IH.
    + destruct (unescape e) as [b|] eqn:He; [|done].
      destruct (unquote_loop fuel _) as [[t' rest']|] eqn:Hrec; [|done].
      injection H as <- <-. rewrite Valid_ascii; [by eapply IH|].
      unfold unescape in He.
      repeat match type of He with
             | context [if ?x then _ else _] => destruct x eqn:?
             end; try done; injection He as <-; try lia.
      apply orb_true_iff in Heqb0 as [Hq|Hq].
      * apply orb_true_iff in Hq as [->%N.eqb_eq| ->%N.eqb_eq]; done.
      * apply N.eqb_eq in Hq as ->. done.
  - destruct (c <? 32); [done|].
    unfold RuneSelf in H. destruct (N.ltb_spec c 128).
    + destruct (unquote_loop fuel _) as [[t' rest']|] eqn:Hrec; [|done].
      injection H as <- <-. rewrite Valid_ascii by done. by eapply IH.
    + destruct (DecodeRune (c :: r)) as [rr size].
      destruct (unquote_loop fuel _) as [[t' rest']|] eqn:Hrec; [|done].
      injection H as <- <-. rewrite Valid_EncodeRune. by eapply IH.
Qed.

Lemma unquote_valid s t rest : unquote s = Some (t, rest) → ValidString t = true.
Proof.
  unfold unquote. intros H.
  destruct (unquote_loop _ s) as [[t' rest']|] eqn:Hloop; [|done].
  injection H as <- <-. apply ValidString_of_bytes. by eapply unquote_loop_valid.
Qed.

(** Every string of a parsed tree is valid UTF-8. *)
Local Ltac parse_cases :=
  repeat first
    [ done
    | progress simplify_option_eq
    | match goal with p : _ * _ |- _ => destruct p end
    | case_match ].

Lemma parse_valid fuel :
  (∀ d s v r, parse_value fuel d s = Some (v, r) → strings_valid v = true)
  ∧ (∀ d s vs r, parse_elements fuel d s = Some (vs, r) → forallb strings_valid vs = true)
  ∧ (∀ d s ms r, parse_members fuel d s = Some (ms, r) →
       forallb (fun kv => ValidString (fst kv) && strings_valid (snd kv)) ms = true).
Proof.
  induction fuel as [|fuel (IHv & IHe & IHm)]; [done|].
  split; [|split].
  - intros d s v r H. cbn [parse_value] in H.
    parse_cases; cbn [strings_valid].
    + by eapply IHm.
    + by eapply IHe.
    + by eapply unquote_valid.
  - intros d s vs r H. cbn [parse_elements] in H.
    parse_cases; cbn [forallb]; apply andb_true_iff; split; try done;
      try (by eapply IHv); by eapply IHe.
  - intros d s ms r H. cbn [parse_members] in H.
    parse_cases; cbn [forallb fst snd]; rewrite !andb_true_iff;
      (split; [split|]); try done;
      try (by eapply unquote_valid); try (by eapply IHv); by eapply IHm.
Qed.

End ValidUTF8.

(** ** The commands of the pipeline survive the round trip *)

Section ResolvedBranch.
Import utf8 json decode wire Coerce Validity.

Lemma parse_strings_valid data v : parse data = Some v → strings_valid v = true.
Proof.
  unfold parse. intros H.
  destruct (parse_value _ 0 data) as [[v' rest]|] eqn:Hv; [|done].
  simpl in H. destruct (skip_ws rest); [|done]. injection H as <-.
  by eapply parse_valid.
Qed.

Lemma into_string_valid v old s :
  strings_valid v = true → ValidString old = true →
  into_string v old = Some s → ValidString s = true.
Proof. destruct v; simpl; intros; simplify_eq; done. Qed.

(** A property of a struct that every field assignment keeps is kept by
    decoding a whole object into the struct. *)
Lemma into_struct_invariant {T : Type} (P : T → Prop) names set v old x :
  (∀ f v x x', strings_valid v = true → P x → set f v x = Some x' → P x') →
  strings_valid v = true → P old →
  into_struct names set v old = Some x → P x.
Proof.
  intros Hset Hv Hold. unfold into_struct.
  destruct v as [| | | | |members]; try done; [by intros [= <-]|].
  cbn [strings_valid] in Hv.
  assert (∀ acc : option T,
            (∀ t, acc = Some t → P t) →
            fold_left (fun acc kv =>
                         t ← acc;
                         match find_field names (fst kv) with
                         | Some f => set f (snd kv) t
                         | None => Some t
                         end) members acc = Some x → P x) as Hfold.
  { induction members as [|[k w] members IH]; intros acc Hacc; cbn [fold_left].
    - intros ->. by apply Hacc.
    - cbn [forallb fst snd] in Hv. apply andb_true_iff in Hv as [[_ Hw]%andb_true_iff Hv].
      apply IH; [done|].
      intros t Ht. destruct acc as [t0|]; [|done]. cbn [mbind option_bind fst snd] in Ht.
      destruct (find_field names k) as [f|].
      + eapply Hset; [exact Hw|by apply Hacc|exact Ht].
      + injection Ht as <-. by apply Hacc. }
  apply Hfold. intros t [= <-]. exact Hold.
Qed.




Lemma ValidString_append_ascii a b :
  Forall (fun c => c < 128) (bytes_of_string a) →
  ValidString (a +:+ b) = ValidString b.
Proof.
  induction a as [|c a IH]; [done|].
  intros [Hc Ha]%Forall_cons. unfold ValidString in *.
  change (bytes_of_string (String c a +:+ b))
    with (N_of_ascii c :: bytes_of_string (a +:+ b)).
  rewrite Valid_ascii by done. by apply IH.
Qed.


End ResolvedBranch.





(** * Further properties of the program *)

(** ** Handlers and loops only append *)

Section AppendOnly.

Lemma extends_refl w : extends w w.
Proof. repeat split; done. Qed.

Lemma extends_trans w1 w2 w3 : extends w1 w2 → extends w2 w3 → extends w1 w3.
Proof.
  intros (Hl & Hlog & Hcalls & Hlists) (Hl' & Hlog' & Hcalls' & Hlists').
  split; [congruence|].
  split; [etrans; [exact Hlog|exact Hlog']|].
  split; [etrans; [exact Hcalls|exact Hcalls']|].
  intros key. etrans; [apply Hlists|apply Hlists'].
Qed.

Lemma appends_ret {A : Type} (x : A) : appends (ret x).
Proof. intros w. apply extends_refl. Qed.

Lemma appends_bind {A B : Type} (m : M A) (k : A → M B) :
  appends m → (∀ x, appends (k x)) → appends (m ≫= k).
Proof.
  intros Hm Hk w. unfold mbind, M_bind, bind.
  specialize (Hm w). destruct (m w) as [x w1]. simpl in Hm.
  eapply extends_trans; [exact Hm|apply Hk].
Qed.

Lemma appends_logAt level format : appends (logAt level format).
Proof.
  intros w. unfold logAt. destruct (_ <=? _); [|apply extends_refl].
  repeat split; try done. simpl. by apply prefix_app_r.
Qed.

Lemma appends_RPush key payload : appends (RPush key payload).
Proof.
  intros w. unfold RPush, Redis_RPush. simpl.
  repeat split; try done; simpl.
  - by apply prefix_app_r.
  - intros key'. destruct (hd true _); [|done].
    destruct (decide (key = key')) as [->|Hne].
    + rewrite lookup_insert_eq. simpl. by apply prefix_app_r.
    + by rewrite lookup_insert_ne.
Qed.

Local Ltac appends_tac :=
  repeat first
    [ apply appends_logAt
    | apply appends_RPush
    | apply appends_ret
    | apply appends_bind
    | match goal with |- ∀ _, appends _ => intro end
    | progress unfold logError, logInfo, logDebug, logWarn
    | match goal with
      | |- appends (match ?x with _ => _ end) => destruct x
      | |- appends (if ?x then _ else _) => destruct x
      | |- appends (let '(_, _) := ?x in _) => destruct x
      end ].

Lemma appends_publishSlackReaction channel ts reaction remove config :
  appends (publishSlackReaction channel ts reaction remove config).
Proof. unfold publishSlackReaction. appends_tac. Qed.

Lemma appends_publishPoppitCommand cmd config :
  appends (publishPoppitCommand cmd config).
Proof. unfold publishPoppitCommand. appends_tac. Qed.

Lemma appends_processReactionEvent payload slackClient config allowedRepos :
  appends (processReactionEvent payload slackClient config allowedRepos).
Proof.
  unfold processReactionEvent.
  repeat first
    [ apply appends_publishSlackReaction | apply appends_publishPoppitCommand
    | progress appends_tac ].
Qed.

Lemma appends_processCommandOutput payload config :
  appends (processCommandOutput payload config).
Proof.
  unfold processCommandOutput.
  repeat first
    [ apply appends_publishSlackReaction | apply appends_publishPoppitCommand
    | progress appends_tac ].
Qed.

End AppendOnly.

(** ** The handlers, with their log *)

Section Logging.

Lemma logged_nil w : logged [] w = w.
Proof. destruct w. unfold logged, visible. simpl. by rewrite app_nil_r. Qed.

Lemma logged_logged l1 l2 w : logged l2 (logged l1 w) = logged (l1 ++ l2) w.
Proof.
  unfold logged, visible. simpl. by rewrite List.filter_app, app_assoc.
Qed.

Lemma logged_pushed lines key payload w :
  logged lines (pushed key payload w) = pushed key payload (logged lines w).
Proof. reflexivity. Qed.

Lemma exec_logAt level format w :
  exec (logAt level format) w = logged [(level, format)] w.
Proof.
  unfold exec, logAt, logged, visible. simpl.
  destruct (_ <=? _); simpl; [done|]. destruct w. simpl. by rewrite app_nil_r.
Qed.

Lemma exec_seq {A B : Type} (m : M A) (k : M B) w :
  exec (m;; k) w = exec k (exec m w).
Proof. apply exec_bind. Qed.

Lemma exec_log_outcome (err : option error) l1 f1 l2 f2 w :
  exec (match err with Some _ => logAt l1 f1 | None => logAt l2 f2 end) w
  = logged [if err is Some _ then (l1, f1) else (l2, f2)] w.
Proof. destruct err; apply exec_logAt. Qed.

Lemma publishSlackReaction_run channel ts reaction remove config w :
  publishSlackReaction channel ts reaction remove config w
  = (if hd true (redis_script (redis w)) then None
     else Some "failed to push to Redis list: redis: connection refused",
     pushed (Config.RedisReactionList config)
       (wire.Marshal_SlackReaction (SlackReaction.mk reaction channel ts remove)) w).
Proof.
  unfold publishSlackReaction, mbind, M_bind, bind, RPush, Redis_RPush, pushed.
  simpl. by destruct (hd true _).
Qed.

Lemma publishPoppitCommand_run cmd config w :
  publishPoppitCommand cmd config w
  = (if hd true (redis_script (redis w)) then None
     else Some "failed to push to Redis list: redis: connection refused",
     pushed (Config.RedisListName config) (wire.Marshal_PoppitCommand cmd) w).
Proof.
  unfold publishPoppitCommand, mbind, M_bind, bind, RPush, Redis_RPush, pushed.
  simpl. by destruct (hd true _).
Qed.

(** The run of the two publishes of an accepted reaction, with its log. *)
Lemma deploy_run metadata config channel ts w :
  exec (err ← publishSlackReaction channel ts GearReaction false config;
        match err with
        | Some _ => logError "Error publishing gear reaction: %v"
        | None => logInfo "Published gear reaction for channel %s, message %s"
        end;;
        let poppitCmd := createPoppitCommand metadata config channel ts in
        err ← publishPoppitCommand poppitCmd config;
        match err with
        | Some _ => logError "Error publishing Poppit command: %v"
        | None => logInfo "Successfully published Poppit command for %s branch %s"
        end) w
  = logged
      [ if hd true (redis_script (redis w))
        then (INFO, "Published gear reaction for channel %s, message %s")
        else (ERROR, "Error publishing gear reaction: %v");
        if hd true (tl (redis_script (redis w)))
        then (INFO, "Successfully published Poppit command for %s branch %s")
        else (ERROR, "Error publishing Poppit command: %v") ]
      (pushed (Config.RedisListName config)
         (wire.Marshal_PoppitCommand (createPoppitCommand metadata config channel ts))
         (pushed (Config.RedisReactionList config)
            (wire.Marshal_SlackReaction (SlackReaction.mk GearReaction channel ts false))
            w)).
Proof.
  rewrite exec_bind, publishSlackReaction_run. cbn [fst snd].
  rewrite exec_seq. unfold logError, logInfo. rewrite exec_log_outcome.
  cbv zeta. rewrite exec_bind, publishPoppitCommand_run. cbn [fst snd].
  rewrite exec_log_outcome.
  rewrite <- logged_pushed, logged_logged.
  match goal with
  | |- context [redis_script (redis (logged ?l (pushed ?k ?p w)))] =>
    change (redis_script (redis (logged l (pushed k p w))))
      with (tl (redis_script (redis w)))
  end.
  destruct (hd true (redis_script (redis w))),
           (hd true (tl (redis_script (redis w)))); reflexivity.
Qed.

(** The whole of [processReactionEvent]: what it offers to the log and what
    it pushes, gate by gate. *)
Lemma processReactionEvent_run payload slackClient config allowedRepos w :
  exec (processReactionEvent payload slackClient config allowedRepos) w
  = match wire.Unmarshal_ReactionEvent (bytes_of_string payload) with
    | None => logged [(ERROR, "Error parsing reaction event: %v")] w
    | Some event =>
      let ev := ReactionEvent.Event event in
      let channel := ReactionEvent.Channel (ReactionEvent.Item ev) in
      let ts := ReactionEvent.Ts (ReactionEvent.Item ev) in
      if negb (String.eqb (ReactionEvent.Reaction ev) RocketReaction) then
        logged [(DEBUG, "Ignoring reaction: %s (not %s)")] w
      else if negb (String.eqb (ReactionEvent.Item_Type (ReactionEvent.Item ev)) "message")
      then logged [(DEBUG, "Ignoring item type: %s (not message)")] w
      else if fromBot event then
        logged [(INFO, "Ignoring %s reaction from bot user %s on message %s in channel %s")] w
      else
        match getMessageMetadata slackClient channel ts with
        | (_, Some err) =>
          logged [(INFO, "Processing %s reaction on message %s in channel %s");
                  (ERROR, "Error getting message metadata: %v")] w
        | (None, None) =>
          logged [(INFO, "Processing %s reaction on message %s in channel %s");
                  (DEBUG, "No PR metadata found in message, skipping")] w
        | (Some metadata, None) =>
          if isRepoAllowed (PRMetadata.Repository metadata) allowedRepos then
            logged
              [ (INFO, "Processing %s reaction on message %s in channel %s");
                (INFO, "Found PR metadata: %s #%d (branch: %s)");
                if hd true (redis_script (redis w))
                then (INFO, "Published gear reaction for channel %s, message %s")
                else (ERROR, "Error publishing gear reaction: %v");
                if hd true (tl (redis_script (redis w)))
                then (INFO, "Successfully published Poppit command for %s branch %s")
                else (ERROR, "Error publishing Poppit command: %v") ]
              (pushed (Config.RedisListName config)
                 (wire.Marshal_PoppitCommand
                    (createPoppitCommand metadata config channel ts))
                 (pushed (Config.RedisReactionList config)
                    (wire.Marshal_SlackReaction
                       (SlackReaction.mk GearReaction channel ts false))
                    w))
          else
            logged [(INFO, "Processing %s reaction on message %s in channel %s");
                    (INFO, "Found PR metadata: %s #%d (branch: %s)");
                    (INFO, "Repository %s is not in the allowed list, ignoring reaction")] w
        end
    end.
Proof.
  unfold processReactionEvent, logError, logDebug, logInfo.
  destruct (wire.Unmarshal_ReactionEvent _) as [event|]; [|apply exec_logAt].
  cbv zeta.
  destruct (negb (String.eqb (ReactionEvent.Reaction _) _)); [apply exec_logAt|].
  destruct (negb (String.eqb (ReactionEvent.Item_Type _) _)); [apply exec_logAt|].
  destruct (fromBot event); [apply exec_logAt|].
  rewrite exec_seq, exec_logAt.
  destruct (getMessageMetadata _ _ _) as [[metadata|] [err|]];
    try (rewrite exec_logAt; apply logged_logged).
  rewrite exec_seq, exec_logAt, logged_logged.
  destruct (isRepoAllowed _ _); simpl negb; cbv iota.
  - pose proof (deploy_run metadata config) as H.
    unfold logError, logInfo in H. rewrite H.
    rewrite !logged_pushed, logged_logged. reflexivity.
  - rewrite exec_logAt. apply logged_logged.
Qed.

(** The whole of [processCommandOutput]. *)
Lemma processCommandOutput_run payload config w :
  exec (processCommandOutput payload config) w
  = match wire.Unmarshal_CommandOutput (bytes_of_string payload) with
    | None => logged [(ERROR, "Error parsing command output: %v")] w
    | Some output =>
      if negb (String.eqb (CommandOutput.Type_ output) VibeDeployType) then
        logged [(DEBUG, "Ignoring command output type: %s (not %s)")] w
      else if negb (String.eqb (CommandOutput.Command output) DeploymentCommand) then
        logged [(DEBUG, "Ignoring command: %s (not %s)")] w
      else
        match CommandOutput.Metadata output with
        | None =>
          logged [(WARN, "Command output missing metadata (channel and timestamp required), cannot send reaction")] w
        | Some md =>
          let channel := CommandMetadata.Channel md in
          let ts := CommandMetadata.Ts md in
          logged
            [ (INFO, "Processing completion for %s in channel %s, message %s");
              if hd true (redis_script (redis w))
              then (INFO, "Removed gear reaction for channel %s, message %s")
              else (ERROR, "Error removing gear reaction: %v");
              if hd true (tl (redis_script (redis w)))
              then (INFO, "Successfully published rocket reaction for channel %s, message %s")
              else (ERROR, "Error publishing rocket reaction: %v") ]
            (pushed (Config.RedisReactionList config)
               (wire.Marshal_SlackReaction (SlackReaction.mk RocketReaction channel ts false))
               (pushed (Config.RedisReactionList config)
                  (wire.Marshal_SlackReaction (SlackReaction.mk GearReaction channel ts true))
                  w))
        end
    end.
Proof.
  unfold processCommandOutput, logError, logDebug, logInfo, logWarn.
  destruct (wire.Unmarshal_CommandOutput _) as [output|]; [|apply exec_logAt].
  destruct (negb (String.eqb (CommandOutput.Type_ _) _)); [apply exec_logAt|].
  destruct (negb (String.eqb (CommandOutput.Command _) _)); [apply exec_logAt|].
  destruct (CommandOutput.Metadata output) as [md|]; [|apply exec_logAt].
  cbv zeta. rewrite exec_seq, exec_logAt.
  rewrite exec_bind, publishSlackReaction_run. cbn [fst snd].
  rewrite exec_seq, exec_log_outcome.
  rewrite exec_bind, publishSlackReaction_run. cbn [fst snd].
  rewrite exec_log_outcome.
  rewrite <- !logged_pushed, !logged_logged.
  repeat match goal with
  | |- context [redis_script (redis (logged ?l (pushed ?k ?p ?w0)))] =>
    change (redis_script (redis (logged l (pushed k p w0))))
      with (tl (redis_script (redis w0)))
  | |- context [redis_script (redis (logged ?l ?w0))] =>
    change (redis_script (redis (logged l w0))) with (redis_script (redis w0))
  end.
  rewrite !logged_pushed.
  destruct (hd true (redis_script (redis w))),
           (hd true (tl (redis_script (redis w)))); reflexivity.
Qed.

End Logging.

Section Traces.

Lemma new_lines_logged lines w0 w :
  log_lines w0 = log_lines w → currentLogLevel w0 = currentLogLevel w →
  new_lines w (logged lines w0) = visible (currentLogLevel w) lines.
Proof.
  intros Hlog Hlvl. unfold new_lines, logged. simpl.
  rewrite Hlog, Hlvl. by rewrite drop_app_length.
Qed.

Lemma visible_ERROR level lines format :
  (ERROR, format) ∈ visible level lines ↔ (ERROR, format) ∈ lines.
Proof.
  unfold visible. rewrite !list_elem_of_In, filter_In. simpl.
  split; [by intros [? _]|]. intros H. split; [done|].
  by destruct level.
Qed.

Lemma visible_quiet level lines :
  Forall (fun line => LogLevel_rank (fst line) < LogLevel_rank level) lines →
  visible level lines = [].
Proof.
  induction 1 as [|line lines H _ IH]; [done|].
  unfold visible in *. simpl. rewrite IH.
  apply N.ltb_lt in H. rewrite N.ltb_antisym in H.
  apply negb_true_iff in H. by rewrite H.
Qed.

End Traces.

Local Ltac find_line :=
  repeat first [apply list_elem_of_here | apply list_elem_of_further].

Local Ltac no_line H :=
  repeat (apply elem_of_cons in H as [H|H]; [discriminate H|]);
  by apply elem_of_nil in H.

(** X1.  [processReactionEvent] writes a line at the ERROR level exactly when
    something failed: the payload did not decode, or the event passed the
    filters and then either the metadata lookup ended in an error or, the
    repository being allowed, one of the two pushes failed.  The current log
    level does not matter: no level hides these lines. *)
Theorem X1_processReactionEvent_logs_errors
    (payload : string) (slackClient : slack.Client) (config : Config.t)
    (allowedRepos : option (gmap string bool)) (w : World) :
  let w' := exec (processReactionEvent payload slackClient config allowedRepos) w in
  (∃ format, (ERROR, format) ∈ new_lines w w')
  ↔ wire.Unmarshal_ReactionEvent (bytes_of_string payload) = None
    ∨ ∃ event,
        let item := ReactionEvent.Item (ReactionEvent.Event event) in
        wire.Unmarshal_ReactionEvent (bytes_of_string payload) = Some event
        ∧ ReactionEvent.Reaction (ReactionEvent.Event event) = "rocket"
        ∧ ReactionEvent.Item_Type item = "message"
        ∧ fromBot event = false
        ∧ match getMessageMetadata slackClient (ReactionEvent.Channel item)
                  (ReactionEvent.Ts item) with
          | (_, Some _) => True
          | (None, None) => False
          | (Some metadata, None) =>
            isRepoAllowed (PRMetadata.Repository metadata) allowedRepos = true
            ∧ (hd true (redis_script (redis w)) = false
               ∨ hd true (tl (redis_script (redis w))) = false)
          end.
Proof.
  intros w'. subst w'. rewrite processReactionEvent_run.
  destruct (wire.Unmarshal_ReactionEvent _) as [event|] eqn:Hdec.
  2:{ rewrite new_lines_logged by done. split; [by left|]. intros _.
      eexists. apply visible_ERROR. apply list_elem_of_here. }
  cbv zeta.
  assert (∀ lines, (∃ format, (ERROR, format) ∈ new_lines w (logged lines w))
                   ↔ ∃ format, (ERROR, format) ∈ lines) as Hplain.
  { intros lines. rewrite new_lines_logged by done.
    split; intros [f Hf]; exists f; [by apply visible_ERROR in Hf|].
    by apply visible_ERROR. }
  destruct (String.eqb (ReactionEvent.Reaction _) _) eqn:Hre; simpl negb; cbv iota.
  2:{ rewrite Hplain. apply String.eqb_neq in Hre.
      split.
      - intros [f Hf]. no_line Hf.
      - intros [?|(event' & [= <-] & Hre' & _)]; done. }
  destruct (String.eqb (ReactionEvent.Item_Type _) _) eqn:Hty; simpl negb; cbv iota.
  2:{ rewrite Hplain. apply String.eqb_neq in Hty.
      split.
      - intros [f Hf]. no_line Hf.
      - intros [?|(event' & [= <-] & _ & Hty' & _)]; done. }
  apply String.eqb_eq in Hre, Hty.
  destruct (fromBot event) eqn:Hbot.
  { rewrite Hplain. split.
    - intros [f Hf]. no_line Hf.
    - intros [?|(event' & [= <-] & _ & _ & Hbot' & _)]; [done|congruence]. }
  destruct (getMessageMetadata _ _ _) as [[metadata|] [err|]] eqn:Hmd.
  - rewrite Hplain. split; [intros _|intros _; eexists; find_line].
    right. exists event. by rewrite Hmd.
  - destruct (isRepoAllowed _ _) eqn:Hallow.
    + rewrite new_lines_logged by done.
      split.
      * intros [f Hf%visible_ERROR]. right. exists event. rewrite Hmd.
        repeat split; try done.
        destruct (hd true (redis_script (redis w))); [|by left].
        destruct (hd true (tl (redis_script (redis w)))); [|by right].
        no_line Hf.
      * intros [?|(event' & [= <-] & _ & _ & _ & H)]; [done|].
        rewrite Hmd in H. destruct H as [_ [H|H]]; rewrite H;
          eexists; apply visible_ERROR; find_line.
    + rewrite Hplain. split.
      * intros [f Hf]. no_line Hf.
      * intros [?|(event' & [= <-] & _ & _ & _ & H)]; [done|].
        rewrite Hmd in H. destruct H as [? _]. congruence.
  - rewrite Hplain. split; [intros _|intros _; eexists; find_line].
    right. exists event. by rewrite Hmd.
  - rewrite Hplain. split.
    + intros [f Hf]. no_line Hf.
    + intros [?|(event' & [= <-] & _ & _ & _ & H)]; [done|].
      by rewrite Hmd in H.
Qed.

Lemma X1_witness :
  ∃ format,
    (ERROR, format)
    ∈ new_lines Sample.world_redis_down
        (exec (processReactionEvent Sample.rocket_payload Sample.pr_slack Sample.config None)
              Sample.world_redis_down).
Proof.
  apply (X1_processReactionEvent_logs_errors Sample.rocket_payload Sample.pr_slack
           Sample.config None Sample.world_redis_down).
  right. exists Sample.rocket_event.
  repeat split; try (vm_compute; reflexivity). by left.
Defined.

Lemma processCommandOutput_error_lines
    (payload : string) (config : Config.t) (w : World) :
  let w' := exec (processCommandOutput payload config) w in
  (∃ format, (ERROR, format) ∈ new_lines w w')
  ↔ wire.Unmarshal_CommandOutput (bytes_of_string payload) = None
    ∨ ∃ output md,
        wire.Unmarshal_CommandOutput (bytes_of_string payload) = Some output
        ∧ CommandOutput.Type_ output = "vibe-deploy"
        ∧ CommandOutput.Command output = "docker compose up -d"
        ∧ CommandOutput.Metadata output = Some md
        ∧ (hd true (redis_script (redis w)) = false
           ∨ hd true (tl (redis_script (redis w))) = false).
Proof.
  intros w'. subst w'. rewrite processCommandOutput_run.
  destruct (wire.Unmarshal_CommandOutput _) as [output|] eqn:Hdec.
  2:{ rewrite new_lines_logged by done. split; [by left|]. intros _.
      eexists. apply visible_ERROR. apply list_elem_of_here. }
  assert (∀ lines, (∃ format, (ERROR, format) ∈ new_lines w (logged lines w))
                   ↔ ∃ format, (ERROR, format) ∈ lines) as Hplain.
  { intros lines. rewrite new_lines_logged by done.
    split; intros [f Hf]; exists f; [by apply visible_ERROR in Hf|].
    by apply visible_ERROR. }
  destruct (String.eqb (CommandOutput.Type_ _) _) eqn:Hty; simpl negb; cbv iota.
  2:{ rewrite Hplain. apply String.eqb_neq in Hty. split.
      - intros [f Hf]. no_line Hf.
      - intros [?|(output' & md & [= <-] & Hty' & _)]; done. }
  destruct (String.eqb (CommandOutput.Command _) _) eqn:Hcmd; simpl negb; cbv iota.
  2:{ rewrite Hplain. apply String.eqb_neq in Hcmd. split.
      - intros [f Hf]. no_line Hf.
      - intros [?|(output' & md & [= <-] & _ & Hcmd' & _)]; done. }
  apply String.eqb_eq in Hty, Hcmd.
  destruct (CommandOutput.Metadata output) as [md|] eqn:Hmd.
  2:{ rewrite Hplain. split.
      - intros [f Hf]. no_line Hf.
      - intros [?|(output' & md & [= <-] & _ & _ & Hmd' & _)]; [done|congruence]. }
  cbv zeta. rewrite new_lines_logged by done. split.
  - intros [f Hf%visible_ERROR]. right. exists output, md.
    repeat split; try done.
    destruct (hd true (redis_script (redis w))); [|by left].
    destruct (hd true (tl (redis_script (redis w)))); [|by right].
    no_line Hf.
  - intros [?|(output' & md' & _ & _ & _ & _ & [H|H])]; [done| |];
      rewrite H; eexists; apply visible_ERROR; find_line.
Qed.

(** X2.  [processCommandOutput] writes a line at the ERROR level exactly when
    the payload did not decode or, for a matching notice with a correlation
    block, one of the two pushes failed.  A matching notice without a
    correlation block is a warning, not an error: it leaves Redis alone and
    writes one line, at the WARN level, which only the log level ERROR
    hides. *)
Theorem X2_processCommandOutput_logs_errors
    (payload : string) (config : Config.t) (w : World) :
  let w' := exec (processCommandOutput payload config) w in
  ((∃ format, (ERROR, format) ∈ new_lines w w')
   ↔ wire.Unmarshal_CommandOutput (bytes_of_string payload) = None
     ∨ ∃ output md,
         wire.Unmarshal_CommandOutput (bytes_of_string payload) = Some output
         ∧ CommandOutput.Type_ output = "vibe-deploy"
         ∧ CommandOutput.Command output = "docker compose up -d"
         ∧ CommandOutput.Metadata output = Some md
         ∧ (hd true (redis_script (redis w)) = false
            ∨ hd true (tl (redis_script (redis w))) = false))
  ∧ (∀ output,
       wire.Unmarshal_CommandOutput (bytes_of_string payload) = Some output →
       CommandOutput.Type_ output = "vibe-deploy" →
       CommandOutput.Command output = "docker compose up -d" →
       CommandOutput.Metadata output = None →
       redis w' = redis w
       ∧ new_lines w w'
         = match currentLogLevel w with
           | ERROR => []
           | _ => [(WARN, "Command output missing metadata (channel and timestamp required), cannot send reaction")]
           end).
Proof.
  intros w'. split; [apply processCommandOutput_error_lines|].
  intros output Hdec Hty Hcmd Hmd. subst w'.
  rewrite processCommandOutput_run, Hdec, Hty, Hcmd, Hmd.
  rewrite !String.eqb_refl. cbn [negb].
  split; [reflexivity|].
  rewrite new_lines_logged by done.
  by destruct (currentLogLevel w).
Qed.

Lemma X2_witness :
  (∃ format,
     (ERROR, format)
     ∈ new_lines Sample.world_redis_down
         (exec (processCommandOutput Sample.notice_payload Sample.config)
               Sample.world_redis_down))
  ∧ new_lines Sample.world
      (exec (processCommandOutput Scenario.bare_notice_payload Sample.config) Sample.world)
    = [(WARN, "Command output missing metadata (channel and timestamp required), cannot send reaction")].
Proof.
  split.
  - destruct (X2_processCommandOutput_logs_errors Sample.notice_payload Sample.config
                Sample.world_redis_down) as [Herr _].
    apply Herr.
    right. exists Sample.notice, (CommandMetadata.mk "C1" "100.1").
    repeat split; try (vm_compute; reflexivity). by left.
  - destruct (X2_processCommandOutput_logs_errors Scenario.bare_notice_payload Sample.config
                Sample.world) as [_ Hwarn].
    destruct (Hwarn Scenario.bare_notice) as [_ Hlines];
      [vm_compute; reflexivity|reflexivity|reflexivity|reflexivity|].
    exact Hlines.
Defined.

(** X3.  At the log level INFO, WARN or ERROR, an event that is not a rocket
    or is not on a message leaves the world exactly as it was: nothing is
    pushed and nothing is logged.  The same holds for a completion notice of
    another type or of another instruction. *)
Theorem X3_ignored_input_is_silent
    (payload : string) (slackClient : slack.Client) (config : Config.t)
    (allowedRepos : option (gmap string bool)) (w : World) :
  currentLogLevel w ≠ DEBUG →
  (∀ event,
     wire.Unmarshal_ReactionEvent (bytes_of_string payload) = Some event →
     ReactionEvent.Reaction (ReactionEvent.Event event) ≠ "rocket"
     ∨ ReactionEvent.Item_Type (ReactionEvent.Item (ReactionEvent.Event event)) ≠ "message" →
     exec (processReactionEvent payload slackClient config allowedRepos) w = w)
  ∧ (∀ output,
       wire.Unmarshal_CommandOutput (bytes_of_string payload) = Some output →
       CommandOutput.Type_ output ≠ "vibe-deploy"
       ∨ CommandOutput.Command output ≠ "docker compose up -d" →
       exec (processCommandOutput payload config) w = w).
Proof.
  intros Hlvl.
  assert (∀ format, logged [(DEBUG, format)] w = w) as Hquiet.
  { intros format. rewrite <- (logged_nil w) at 2. unfold logged. f_equal. f_equal.
    apply visible_quiet. constructor; [|constructor]. simpl.
    destruct (currentLogLevel w); [done|..]; reflexivity. }
  split.
  - intros event Hdec Hno. rewrite processReactionEvent_run, Hdec. cbv zeta.
    destruct (String.eqb (ReactionEvent.Reaction _) _) eqn:Hre; [|apply Hquiet].
    destruct (String.eqb (ReactionEvent.Item_Type _) _) eqn:Hty; [|apply Hquiet].
    apply String.eqb_eq in Hre, Hty. by destruct Hno.
  - intros output Hdec Hno. rewrite processCommandOutput_run, Hdec.
    destruct (String.eqb (CommandOutput.Type_ _) _) eqn:Hty; [|apply Hquiet].
    destruct (String.eqb (CommandOutput.Command _) _) eqn:Hcmd; [|apply Hquiet].
    apply String.eqb_eq in Hty, Hcmd. by destruct Hno.
Qed.

Lemma X3_witness :
  exec (processReactionEvent Scenario.thumbsup_payload Sample.pr_slack Sample.config None)
       Sample.world
  = Sample.world
  ∧ exec (processCommandOutput Scenario.build_notice_payload Sample.config) Sample.world
    = Sample.world.
Proof.
  split.
  - destruct (X3_ignored_input_is_silent Scenario.thumbsup_payload Sample.pr_slack
                Sample.config None Sample.world) as [H _]; [discriminate|].
    apply (H Scenario.thumbsup_event); [vm_compute; reflexivity|].
    left. discriminate.
  - destruct (X3_ignored_input_is_silent Scenario.build_notice_payload Sample.pr_slack
                Sample.config None Sample.world) as [_ H]; [discriminate|].
    apply (H Scenario.build_notice); [vm_compute; reflexivity|].
    right. discriminate.
Defined.

Lemma last_logged_ERROR lines format w :
  last (log_lines (logged (lines ++ [(ERROR, format)]) w)) = Some (ERROR, format).
Proof.
  unfold logged, visible. cbn [log_lines].
  rewrite List.filter_app, app_assoc. cbn [List.filter fst].
  replace (LogLevel_rank _ <=? LogLevel_rank ERROR) with true.
  - apply last_snoc.
  - by destruct (currentLogLevel _).
Qed.

(** X4.  No rollback.  When, for an accepted reaction, the push of the gear
    succeeds and the push of the command fails, the gear stays queued at the
    end of the reaction list, no other list changes, so no command is queued,
    and the last line of the log is the error of the command push. *)
Theorem X4_failed_command_push_keeps_gear
    (payload : string) (event : ReactionEvent.t) (metadata : PRMetadata.t)
    (slackClient : slack.Client) (config : Config.t)
    (allowedRepos : option (gmap string bool)) (w : World) (rest : list bool) :
  let item := ReactionEvent.Item (ReactionEvent.Event event) in
  let channel := ReactionEvent.Channel item in
  let ts := ReactionEvent.Ts item in
  wire.Unmarshal_ReactionEvent (bytes_of_string payload) = Some event →
  ReactionEvent.Reaction (ReactionEvent.Event event) = "rocket" →
  ReactionEvent.Item_Type item = "message" →
  fromBot event = false →
  getMessageMetadata slackClient channel ts = (Some metadata, None) →
  isRepoAllowed (PRMetadata.Repository metadata) allowedRepos = true →
  redis_script (redis w) = true :: false :: rest →
  let w' := exec (processReactionEvent payload slackClient config allowedRepos) w in
  redis_lists (redis w')
  = <[Config.RedisReactionList config :=
        default [] (redis_lists (redis w) !! Config.RedisReactionList config)
        ++ [wire.Marshal_SlackReaction (SlackReaction.mk "gear" channel ts false)]]>
      (redis_lists (redis w))
  ∧ last (log_lines w') = Some (ERROR, "Error publishing Poppit command: %v").
Proof.
  intros item channel ts. subst item channel ts.
  intros Hdec Hre Hty Hbot Hmd Hallow Hscript w'. subst w'.
  rewrite processReactionEvent_run, Hdec. cbv zeta.
  rewrite Hre, Hty, Hbot, Hmd, Hallow.
  rewrite !String.eqb_refl. simpl negb. cbv iota.
  rewrite Hscript. split.
  - unfold logged, pushed, Redis_RPush. simpl. by rewrite Hscript.
  - cbn [hd tl]. apply (last_logged_ERROR [_; _; _]).
Qed.

Lemma X4_witness :
  let w' := exec (processReactionEvent Sample.rocket_payload Sample.pr_slack
                    Sample.config None)
                 (Scenario.world_with INFO [true; false]) in
  redis_lists (redis w')
  = <["slack_reactions" :=
        [wire.Marshal_SlackReaction (SlackReaction.mk "gear" "C1" "100.1" false)]]> ∅
  ∧ last (log_lines w') = Some (ERROR, "Error publishing Poppit command: %v").
Proof.
  apply (X4_failed_command_push_keeps_gear Sample.rocket_payload Sample.rocket_event
           Sample.pr_metadata Sample.pr_slack Sample.config None
           (Scenario.world_with INFO [true; false]) []);
    vm_compute; reflexivity.
Defined.

Lemma visible_DEBUG lines : visible DEBUG lines = lines.
Proof.
  unfold visible. induction lines as [|[l f] lines IH]; [done|].
  cbn [List.filter]. rewrite IH. by destruct l.
Qed.

(** X5.  When the gear removal of a matching notice fails and the rocket push
    succeeds, the rocket is queued all the same, alone: the message will
    carry the rocket and keep its gear.  The error of the first push is
    logged and the second push is still tried. *)
Theorem X5_failed_gear_removal_still_announces
    (payload : string) (output : CommandOutput.t) (md : CommandMetadata.t)
    (config : Config.t) (w : World) (rest : list bool) :
  wire.Unmarshal_CommandOutput (bytes_of_string payload) = Some output →
  CommandOutput.Type_ output = "vibe-deploy" →
  CommandOutput.Command output = "docker compose up -d" →
  CommandOutput.Metadata output = Some md →
  redis_script (redis w) = false :: true :: rest →
  let w' := exec (processCommandOutput payload config) w in
  redis_lists (redis w')
  = <[Config.RedisReactionList config :=
        default [] (redis_lists (redis w) !! Config.RedisReactionList config)
        ++ [wire.Marshal_SlackReaction
              (SlackReaction.mk "rocket" (CommandMetadata.Channel md)
                 (CommandMetadata.Ts md) false)]]>
      (redis_lists (redis w))
  ∧ (ERROR, "Error removing gear reaction: %v") ∈ new_lines w w'.
Proof.
  intros Hdec Hty Hcmd Hmd Hscript w'. subst w'.
  rewrite processCommandOutput_run, Hdec, Hty, Hcmd, Hmd.
  rewrite !String.eqb_refl. simpl negb. cbv iota zeta.
  rewrite Hscript. split.
  - unfold logged, pushed, Redis_RPush. simpl. by rewrite Hscript.
  - rewrite new_lines_logged by done. apply visible_ERROR. cbn [hd tl].
    apply list_elem_of_further, list_elem_of_here.
Qed.

Lemma X5_witness :
  let w' := exec (processCommandOutput Sample.notice_payload Sample.config)
                 (Scenario.world_with INFO [false; true]) in
  redis_lists (redis w')
  = <["slack_reactions" :=
        [wire.Marshal_SlackReaction (SlackReaction.mk "rocket" "C1" "100.1" false)]]> ∅
  ∧ (ERROR, "Error removing gear reaction: %v")
    ∈ new_lines (Scenario.world_with INFO [false; true]) w'.
Proof.
  apply (X5_failed_gear_removal_still_announces Sample.notice_payload Sample.notice
           (CommandMetadata.mk "C1" "100.1") Sample.config
           (Scenario.world_with INFO [false; true]) []);
    vm_compute; reflexivity.
Defined.

(** X6.  The member [event.type] of a reaction event is never looked at: two
    decoded events that agree on the user, the reaction, the item and the
    authorizations leave the same world, whatever their types say. *)
Theorem X6_event_type_is_ignored
    (payload1 payload2 : string) (event1 event2 : ReactionEvent.t)
    (slackClient : slack.Client) (config : Config.t)
    (allowedRepos : option (gmap string bool)) (w : World) :
  wire.Unmarshal_ReactionEvent (bytes_of_string payload1) = Some event1 →
  wire.Unmarshal_ReactionEvent (bytes_of_string payload2) = Some event2 →
  ReactionEvent.User (ReactionEvent.Event event1)
  = ReactionEvent.User (ReactionEvent.Event event2) →
  ReactionEvent.Reaction (ReactionEvent.Event event1)
  = ReactionEvent.Reaction (ReactionEvent.Event event2) →
  ReactionEvent.Item (ReactionEvent.Event event1)
  = ReactionEvent.Item (ReactionEvent.Event event2) →
  ReactionEvent.Authorizations event1 = ReactionEvent.Authorizations event2 →
  exec (processReactionEvent payload1 slackClient config allowedRepos) w
  = exec (processReactionEvent payload2 slackClient config allowedRepos) w.
Proof.
  intros Hdec1 Hdec2 Huser Hre Hitem Hauth.
  rewrite !processReactionEvent_run, Hdec1, Hdec2. cbv zeta.
  unfold fromBot. by rewrite Huser, Hre, Hitem, Hauth.
Qed.

Lemma X6_witness :
  exec (processReactionEvent Scenario.removed_payload Sample.pr_slack Sample.config None)
       Sample.world
  = exec (processReactionEvent Sample.rocket_payload Sample.pr_slack Sample.config None)
         Sample.world.
Proof.
  apply (X6_event_type_is_ignored Scenario.removed_payload Sample.rocket_payload
           Scenario.removed_event Sample.rocket_event);
    vm_compute; reflexivity.
Defined.

Section Levels.

Variables (w : World) (level : LogLevel).
Hypothesis Hdebug : currentLogLevel w = DEBUG.

Lemma level_filters_logged lines (f : World → World) :
  (∀ w0, log_lines (f w0) = log_lines w0) →
  (∀ w0, currentLogLevel (f w0) = currentLogLevel w0) →
  (∀ w0, redis (f (with_level level w0)) = redis (f w0)) →
  redis (logged lines (f (with_level level w))) = redis (logged lines (f w))
  ∧ new_lines (with_level level w) (logged lines (f (with_level level w)))
    = visible level (new_lines w (logged lines (f w))).
Proof.
  intros Hlog Hlvl Hredis. split; [apply Hredis|].
  rewrite !new_lines_logged by (rewrite ?Hlog, ?Hlvl; done).
  by rewrite Hdebug, visible_DEBUG.
Qed.

End Levels.

(** X7.  The log level only filters.  Running a handler at any level pushes
    what it pushes at the DEBUG level, with the same outcomes, and logs
    the lines it logs at the DEBUG level that the level lets through. *)
Theorem X7_log_level_only_filters
    (payload : string) (slackClient : slack.Client) (config : Config.t)
    (allowedRepos : option (gmap string bool)) (w : World) (level : LogLevel) :
  currentLogLevel w = DEBUG →
  let wl := with_level level w in
  let onReaction := exec (processReactionEvent payload slackClient config allowedRepos) in
  let onOutput := exec (processCommandOutput payload config) in
  (redis (onReaction wl) = redis (onReaction w)
   ∧ new_lines wl (onReaction wl) = visible level (new_lines w (onReaction w)))
  ∧ (redis (onOutput wl) = redis (onOutput w)
     ∧ new_lines wl (onOutput wl) = visible level (new_lines w (onOutput w))).
Proof.
  intros Hdebug wl onReaction onOutput. subst wl onReaction onOutput.
  pose proof (λ lines, level_filters_logged w level Hdebug lines (λ w0, w0)) as Hplain.
  split.
  - rewrite !processReactionEvent_run.
    destruct (wire.Unmarshal_ReactionEvent _) as [event|]; [|by apply Hplain].
    cbv zeta.
    destruct (negb (String.eqb (ReactionEvent.Reaction _) _)); [by apply Hplain|].
    destruct (negb (String.eqb (ReactionEvent.Item_Type _) _)); [by apply Hplain|].
    destruct (fromBot event); [by apply Hplain|].
    destruct (getMessageMetadata _ _ _) as [[metadata|] [err|]]; try by apply Hplain.
    destruct (isRepoAllowed _ _); [|by apply Hplain].
    cbn [redis with_level].
    match goal with
    | |- context [logged ?lines (pushed ?k2 ?p2 (pushed ?k1 ?p1 w))] =>
      by apply (level_filters_logged w level Hdebug lines
                  (λ w0, pushed k2 p2 (pushed k1 p1 w0)))
    end.
  - rewrite !processCommandOutput_run.
    destruct (wire.Unmarshal_CommandOutput _) as [output|]; [|by apply Hplain].
    destruct (negb (String.eqb (CommandOutput.Type_ _) _)); [by apply Hplain|].
    destruct (negb (String.eqb (CommandOutput.Command _) _)); [by apply Hplain|].
    destruct (CommandOutput.Metadata output) as [md|]; [|by apply Hplain].
    cbv zeta. cbn [redis with_level].
    match goal with
    | |- context [logged ?lines (pushed ?k2 ?p2 (pushed ?k1 ?p1 w))] =>
      by apply (level_filters_logged w level Hdebug lines
                  (λ w0, pushed k2 p2 (pushed k1 p1 w0)))
    end.
Qed.

Lemma X7_witness :
  let w := Scenario.world_with DEBUG [] in
  let onReaction :=
    exec (processReactionEvent Scenario.thumbsup_payload Sample.pr_slack Sample.config None) in
  redis (onReaction (with_level ERROR w)) = redis (onReaction w)
  ∧ new_lines (with_level ERROR w) (onReaction (with_level ERROR w))
    = visible ERROR (new_lines w (onReaction w)).
Proof.
  intros w onReaction.
  destruct (X7_log_level_only_filters Scenario.thumbsup_payload Sample.pr_slack
              Sample.config None w ERROR) as [H _]; [reflexivity|].
  exact H.
Defined.

(** X8.  The handlers touch only their own lists: [processReactionEvent]
    leaves every list but the reaction list and the command list as it was,
    and [processCommandOutput] every list but the reaction list, so it never
    queues a command. *)
Theorem X8_handlers_touch_only_their_lists
    (payload : string) (slackClient : slack.Client) (config : Config.t)
    (allowedRepos : option (gmap string bool)) (w : World) (key : string) :
  key ≠ Config.RedisReactionList config →
  (key ≠ Config.RedisListName config →
   redis_lists (redis (exec (processReactionEvent payload slackClient config allowedRepos) w))
     !! key
   = redis_lists (redis w) !! key)
  ∧ redis_lists (redis (exec (processCommandOutput payload config) w)) !! key
    = redis_lists (redis w) !! key.
Proof.
  intros Hrl. split.
  - intros Hln.
    destruct (processReactionEvent_cases slackClient config allowedRepos payload w)
      as [->|(event & metadata & _ & _ & _ & _ & _ & _ & ->)]; [done|].
    rewrite !Redis_RPush_lists_other; done.
  - rewrite processCommandOutput_run.
    destruct (wire.Unmarshal_CommandOutput _) as [output|]; [|done].
    destruct (negb (String.eqb (CommandOutput.Type_ _) _)); [done|].
    destruct (negb (String.eqb (CommandOutput.Command _) _)); [done|].
    destruct (CommandOutput.Metadata output) as [md|]; [|done].
    cbv zeta. cbn [redis logged pushed].
    rewrite !Redis_RPush_lists_other; done.
Qed.

Lemma X8_witness :
  redis_lists (redis (exec (processReactionEvent Sample.rocket_payload Sample.pr_slack
                              Sample.config None) Sample.world)) !! "audit"
  = redis_lists (redis Sample.world) !! "audit"
  ∧ redis_lists (redis (exec (processCommandOutput Sample.notice_payload Sample.config)
                             Sample.world)) !! "poppit-commands"
    = redis_lists (redis Sample.world) !! "poppit-commands".
Proof.
  split.
  - destruct (X8_handlers_touch_only_their_lists Sample.rocket_payload Sample.pr_slack
                Sample.config None Sample.world "audit") as [H _]; [discriminate|].
    apply H. discriminate.
  - destruct (X8_handlers_touch_only_their_lists Sample.notice_payload Sample.pr_slack
                Sample.config None Sample.world "poppit-commands") as [_ H];
      [discriminate|].
    exact H.
Defined.

(** X9.  Of the seven completion notices of one deployment, the executor
    echoing type, correlation block and instruction, only the notice of the
    sixth instruction, [docker compose up -d], makes [processCommandOutput]
    push anything; whatever the branch is called, checking it out is not
    taken for the go-live. *)
Theorem X9_only_the_deploy_instruction_announces
    (metadata : PRMetadata.t) (config : Config.t) (channel ts : string)
    (i : nat) (instruction payload : string) (output : CommandOutput.t) (w : World) :
  let cmd := createPoppitCommand metadata config channel ts in
  default [] (PoppitCommand.Commands cmd) !! i = Some instruction →
  wire.Unmarshal_CommandOutput (bytes_of_string payload) = Some output →
  CommandOutput.Type_ output = PoppitCommand.Type_ cmd →
  CommandOutput.Command output = instruction →
  CommandOutput.Metadata output = PoppitCommand.Metadata cmd →
  redis_calls (redis (exec (processCommandOutput payload config) w))
  = redis_calls (redis w)
    ++ if bool_decide (i = 5%nat) then
         [mkRPush (Config.RedisReactionList config)
            (wire.Marshal_SlackReaction (SlackReaction.mk "gear" channel ts true))
            (hd true (redis_script (redis w)));
          mkRPush (Config.RedisReactionList config)
            (wire.Marshal_SlackReaction (SlackReaction.mk "rocket" channel ts false))
            (hd true (tl (redis_script (redis w))))]
       else [].
Proof.
  intros cmd Hi Hdec Hty Hcmd Hmd. subst cmd.
  rewrite processCommandOutput_run, Hdec, Hty, Hcmd, Hmd.
  cbn [createPoppitCommand PoppitCommand.Type_ PoppitCommand.Metadata
       PoppitCommand.Commands default] in *.
  change (String.eqb VibeDeployType VibeDeployType) with true.
  cbn [negb].
  assert (∀ (hit : bool) lines (w1 : World),
            hit = false →
            redis_calls (redis (if negb hit then logged lines w else w1))
            = redis_calls (redis w) ++ []) as Hskip.
  { intros hit lines w1 ->. cbn [negb redis logged]. by rewrite app_nil_r. }
  destruct i as [|[|[|[|[|[|[|i]]]]]]]; cbn [lookup list_lookup] in Hi;
    try discriminate Hi; injection Hi as <-;
    try (rewrite bool_decide_eq_false_2 by lia; by apply Hskip).
  rewrite bool_decide_eq_true_2 by done.
  change (String.eqb DeploymentCommand DeploymentCommand) with true.
  cbn [negb CommandMetadata.Channel CommandMetadata.Ts].
  cbn [redis logged pushed]. rewrite two_pushes_calls. reflexivity.
Qed.

Lemma X9_witness :
  redis_calls (redis (exec (processCommandOutput Scenario.build_notice_payload Sample.config)
                           Sample.world))
  = []
  ∧ length (redis_calls (redis (exec (processCommandOutput Sample.notice_payload
                                        Sample.config) Sample.world)))
    = 2%nat.
Proof.
  split.
  - apply (X9_only_the_deploy_instruction_announces Sample.pr_metadata Sample.config
             "C1" "100.1" 3 "docker compose build" Scenario.build_notice_payload
             Scenario.build_notice Sample.world);
      vm_compute; reflexivity.
  - rewrite (X9_only_the_deploy_instruction_announces Sample.pr_metadata Sample.config
               "C1" "100.1" 5 "docker compose up -d" Sample.notice_payload
               Sample.notice Sample.world);
      vm_compute; reflexivity.
Defined.

(** X10.  One deployment, end to end.  An accepted reaction followed by the
    matching notice of its command leaves four pushes, in this order: the
    gear added, the command queued, the gear removed, the rocket added; the
    three reaction mutations are for the channel and ts of the event.  When
    every push succeeds and the two lists are distinct, the reaction list
    has gained exactly these three mutations. *)
Theorem X10_deployment_from_reaction_to_rocket
    (payload notice : string) (event : ReactionEvent.t) (metadata : PRMetadata.t)
    (output : CommandOutput.t)
    (slackClient : slack.Client) (config : Config.t)
    (allowedRepos : option (gmap string bool)) (w : World) :
  let item := ReactionEvent.Item (ReactionEvent.Event event) in
  let channel := ReactionEvent.Channel item in
  let ts := ReactionEvent.Ts item in
  let cmd := createPoppitCommand metadata config channel ts in
  let RL := Config.RedisReactionList config in
  let mutation reaction remove :=
    wire.Marshal_SlackReaction (SlackReaction.mk reaction channel ts remove) in
  wire.Unmarshal_ReactionEvent (bytes_of_string payload) = Some event →
  ReactionEvent.Reaction (ReactionEvent.Event event) = "rocket" →
  ReactionEvent.Item_Type item = "message" →
  fromBot event = false →
  getMessageMetadata slackClient channel ts = (Some metadata, None) →
  isRepoAllowed (PRMetadata.Repository metadata) allowedRepos = true →
  wire.Unmarshal_CommandOutput (bytes_of_string notice) = Some output →
  CommandOutput.Type_ output = PoppitCommand.Type_ cmd →
  CommandOutput.Command output = "docker compose up -d" →
  CommandOutput.Metadata output = PoppitCommand.Metadata cmd →
  let w' := exec (processCommandOutput notice config)
              (exec (processReactionEvent payload slackClient config allowedRepos) w) in
  rp_request <$> redis_calls (redis w')
  = (rp_request <$> redis_calls (redis w))
    ++ [ (RL, mutation "gear" false);
         (Config.RedisListName config, wire.Marshal_PoppitCommand cmd);
         (RL, mutation "gear" true);
         (RL, mutation "rocket" false) ]
  ∧ (redis_script (redis w) = [] → RL ≠ Config.RedisListName config →
     redis_lists (redis w') !! RL
     = Some (default [] (redis_lists (redis w) !! RL)
             ++ [mutation "gear" false; mutation "gear" true; mutation "rocket" false])).
Proof.
  intros item channel ts cmd RL mutation. subst item channel ts cmd RL mutation.
  intros Hdec Hre Hty Hbot Hmd Hallow Hndec Hnty Hncmd Hnmd w'. subst w'.
  rewrite processCommandOutput_run, Hndec, Hnty, Hncmd, Hnmd.
  rewrite processReactionEvent_run, Hdec. cbv zeta.
  rewrite Hre, Hty, Hbot, Hmd, Hallow.
  cbn [createPoppitCommand PoppitCommand.Type_ PoppitCommand.Metadata
       CommandMetadata.Channel CommandMetadata.Ts].
  rewrite !String.eqb_refl. cbn [negb].
  cbn [redis logged pushed]. split.
  - rewrite two_pushes_requests, two_pushes_requests.
    rewrite <- app_assoc. reflexivity.
  - intros Hscript Hne.
    unfold Redis_RPush. rewrite Hscript. cbn [hd tl snd redis_script redis_lists].
    repeat first [rewrite lookup_insert_eq
                 |rewrite lookup_insert_ne by (by apply not_eq_sym)
                 |progress cbn [default]].
    unfold id. rewrite <- !app_assoc. reflexivity.
Qed.

Lemma X10_witness :
  let mutation reaction remove :=
    wire.Marshal_SlackReaction (SlackReaction.mk reaction "C1" "100.1" remove) in
  redis_lists
    (redis (exec (processCommandOutput Sample.notice_payload Sample.config)
              (exec (processReactionEvent Sample.rocket_payload Sample.pr_slack
                       Sample.config None) Sample.world)))
    !! "slack_reactions"
  = Some [mutation "gear" false; mutation "gear" true; mutation "rocket" false].
Proof.
  destruct (X10_deployment_from_reaction_to_rocket Sample.rocket_payload Sample.notice_payload
              Sample.rocket_event Sample.pr_metadata Sample.notice Sample.pr_slack
              Sample.config None Sample.world) as [_ H];
    [vm_compute; reflexivity..|].
  apply H; [reflexivity|discriminate].
Defined.

(** ** Reaction mutations on the wire *)

Section Mutations.
Import json wire Coerce.

Lemma parse_Marshal_SlackReaction r :
  parse (Marshal_SlackReaction r) = Some (coerce_value (SlackReaction_to_json r)).
Proof.
  unfold Marshal_SlackReaction. apply parse_render.
  - by destruct r as [? ? ? []].
  - by destruct r as [? ? ? []].
Qed.

End Mutations.

(** X11.  The wire form of a reaction mutation.  What [publishSlackReaction]
    pushes is a JSON object with the members reaction, channel and ts, in
    this order; the member remove is there, and true, only for a removal:
    an addition has no such member.  Texts arrive with their invalid UTF-8
    replaced, so unchanged when they are valid. *)
Theorem X11_reaction_mutation_wire_form (r : SlackReaction.t) :
  json.parse (wire.Marshal_SlackReaction r)
  = Some (json.JObject
            ([("reaction", json.JString (Coerce.coerce (SlackReaction.Reaction r)));
              ("channel", json.JString (Coerce.coerce (SlackReaction.Channel r)));
              ("ts", json.JString (Coerce.coerce (SlackReaction.Ts r)))]
             ++ if SlackReaction.Remove r then [("remove", json.JBool true)] else [])).
Proof.
  rewrite parse_Marshal_SlackReaction. by destruct r as [? ? ? []].
Qed.

(** X12.  Reaction mutations with valid UTF-8 texts are told apart by their
    payloads: mutations that differ in the reaction, the channel, the ts or
    the removal flag have different payloads.  So the removal of a gear is
    never read as its addition. *)
Theorem X12_distinct_mutations_have_distinct_payloads (r1 r2 : SlackReaction.t) :
  utf8.ValidString (SlackReaction.Reaction r1) = true →
  utf8.ValidString (SlackReaction.Channel r1) = true →
  utf8.ValidString (SlackReaction.Ts r1) = true →
  utf8.ValidString (SlackReaction.Reaction r2) = true →
  utf8.ValidString (SlackReaction.Channel r2) = true →
  utf8.ValidString (SlackReaction.Ts r2) = true →
  r1 ≠ r2 →
  wire.Marshal_SlackReaction r1 ≠ wire.Marshal_SlackReaction r2.
Proof.
  intros Hr1 Hc1 Ht1 Hr2 Hc2 Ht2 Hne Heq. apply Hne. clear Hne.
  apply (f_equal json.parse) in Heq. rewrite !parse_Marshal_SlackReaction in Heq.
  destruct r1 as [re1 ch1 ts1 rm1], r2 as [re2 ch2 ts2 rm2]. simpl in *.
  rewrite !coerce_valid in Heq by done.
  destruct rm1, rm2; simplify_eq; reflexivity.
Qed.

Lemma X12_witness :
  wire.Marshal_SlackReaction (SlackReaction.mk "gear" "C1" "100.1" false)
  ≠ wire.Marshal_SlackReaction (SlackReaction.mk "gear" "C1" "100.1" true).
Proof.
  apply X12_distinct_mutations_have_distinct_payloads;
    try (vm_compute; reflexivity).
  discriminate.
Defined.

(** ** Loading the allowlist *)

Section Loading.

Lemma loadAllowedRepos_run yaml_Unmarshal fs configPath w :
  let result := fst (loadAllowedRepos yaml_Unmarshal fs configPath w) in
  let w' := snd (loadAllowedRepos yaml_Unmarshal fs configPath w) in
  (is_Some (snd result) ↔ allowlist_unusable yaml_Unmarshal fs configPath)
  ∧ (is_Some (snd result) → fst result = None ∧ w' = w)
  ∧ (configPath = "" → fst result = None)
  ∧ redis w' = redis w
  ∧ currentLogLevel w' = currentLogLevel w.
Proof.
  intros result w'. subst result w'. unfold loadAllowedRepos, logInfo, allowlist_unusable.
  assert (∀ l f (x : option (gmap string bool) * option error),
            (logAt l f;; ret x) w = (x, logged [(l, f)] w)) as Hlog.
  { intros l f x. rewrite <- exec_logAt.
    unfold exec, mbind, M_bind, bind. by destruct (logAt l f w) as [[] ?]. }
  destruct (String.eqb configPath "") eqn:Hpath.
  { apply String.eqb_eq in Hpath. rewrite Hlog. cbn [fst snd].
    split; [|done].
    split; [by intros [? [=]]|]. by intros [? _]. }
  apply String.eqb_neq in Hpath.
  unfold os.Stat_IsNotExist, os.ReadFile.
  destruct (fs configPath) as [|err|data] eqn:Hfs.
  - rewrite Hlog. cbn [fst snd].
    split; [|done].
    split; [by intros [? [=]]|]. by intros [_ [[? [=]]|(? & ? & ? & [=] & _)]].
  - cbn [fst snd ret]. split; [|done]. split; [|done]. intros _.
    split; [done|]. left. by exists err.
  - destruct (yaml_Unmarshal data) as [cfg [err|]] eqn:Hyaml.
    + cbn [fst snd ret]. split; [|done]. split; [|done]. intros _.
      split; [done|]. right. by exists data, cfg, err.
    + cbv zeta. rewrite Hlog. cbn [fst snd].
      split; [|done].
      split; [by intros [? [=]]|].
      intros [_ [[? [=]]|(? & ? & ? & [= <-] & Hy)]]. rewrite Hyaml in Hy. done.
Qed.

(** What [loadAllowedRepos] returns does not depend on the world. *)
Lemma loadAllowedRepos_result yaml_Unmarshal fs configPath w1 w2 :
  fst (loadAllowedRepos yaml_Unmarshal fs configPath w1)
  = fst (loadAllowedRepos yaml_Unmarshal fs configPath w2).
Proof.
  unfold loadAllowedRepos, logInfo.
  assert (∀ l f (x : option (gmap string bool) * option error) w,
            fst ((logAt l f;; ret x) w) = x) as Hlog.
  { intros l f x w. unfold mbind, M_bind, bind. by destruct (logAt l f w) as [[] ?]. }
  destruct (String.eqb configPath ""); [by rewrite !Hlog|].
  destruct (os.Stat_IsNotExist fs configPath); [by rewrite !Hlog|].
  destruct (os.ReadFile fs configPath) as [data [err|]]; [done|].
  destruct (yaml_Unmarshal data) as [cfg [err|]]; [done|].
  cbv zeta. by rewrite !Hlog.
Qed.

End Loading.

(** X13.  [loadAllowedRepos] fails exactly when the path is set and names
    something that is there but cannot be read, or a file that the YAML
    decoder rejects.  A failure comes with no set, and leaves the world as it
    was: not a line is logged.  Redis is never touched. *)
Theorem X13_loadAllowedRepos_failures
    (yaml_Unmarshal : yaml_decoder) (fs : os.FileSystem) (configPath : string)
    (w : World) :
  let result := fst (loadAllowedRepos yaml_Unmarshal fs configPath w) in
  let w' := snd (loadAllowedRepos yaml_Unmarshal fs configPath w) in
  (is_Some (snd result)
   ↔ configPath ≠ ""
     ∧ ((∃ err, fs configPath = os.Unreadable err)
        ∨ ∃ data cfg err, fs configPath = os.File data
                          ∧ yaml_Unmarshal data = (cfg, Some err)))
  ∧ (is_Some (snd result) → fst result = None ∧ w' = w)
  ∧ redis w' = redis w.
Proof.
  intros result w'. subst result w'.
  destruct (loadAllowedRepos_run yaml_Unmarshal fs configPath w)
    as (Herr & Hnone & _ & Hredis & _).
  split; [exact Herr|]. split; [exact Hnone|exact Hredis].
Qed.

Lemma X13_witness :
  fst (fst (loadAllowedRepos SampleFiles.yaml_Unmarshal Scenario.locked_fs
              "/etc/vibedeploy/allowed.yaml" Sample.world)) = None
  ∧ snd (loadAllowedRepos SampleFiles.yaml_Unmarshal Scenario.locked_fs
           "/etc/vibedeploy/allowed.yaml" Sample.world) = Sample.world.
Proof.
  destruct (X13_loadAllowedRepos_failures SampleFiles.yaml_Unmarshal Scenario.locked_fs
              "/etc/vibedeploy/allowed.yaml" Sample.world) as (Hiff & Hfail & _).
  apply Hfail, Hiff. split; [discriminate|]. left. by eexists.
Defined.

(** X14.  The set that [loadAllowedRepos] builds from a file that reads and
    decodes permits exactly the repositories listed in the file. *)
Theorem X14_loaded_allowlist_permits_the_listed
    (yaml_Unmarshal : yaml_decoder) (fs : os.FileSystem) (configPath : string)
    (data : list N) (cfg : AllowedReposConfig.t) (w : World) :
  configPath ≠ "" →
  fs configPath = os.File data →
  yaml_Unmarshal data = (cfg, None) →
  ∃ allowedRepos,
    fst (loadAllowedRepos yaml_Unmarshal fs configPath w) = (Some allowedRepos, None)
    ∧ ∀ repo, isRepoAllowed repo (Some allowedRepos) = true
              ↔ repo ∈ AllowedReposConfig.AllowedRepos cfg.
Proof.
  intros Hpath Hfs Hyaml. unfold loadAllowedRepos, logInfo.
  apply String.eqb_neq in Hpath. rewrite Hpath.
  unfold os.Stat_IsNotExist, os.ReadFile. rewrite Hfs, Hyaml. cbv zeta.
  eexists. split.
  - unfold mbind, M_bind, bind. destruct (logAt _ _ w) as [[] ?]. reflexivity.
  - apply isRepoAllowed_loaded.
Qed.

Lemma X14_witness :
  ∃ allowedRepos,
    fst (loadAllowedRepos Scenario.yaml_two Scenario.listing_fs
           "/etc/vibedeploy/allowed.yaml" Sample.world)
    = (Some allowedRepos, None)
    ∧ ∀ repo, isRepoAllowed repo (Some allowedRepos) = true
              ↔ repo ∈ ["org/app"; "org/api"].
Proof.
  apply (X14_loaded_allowlist_permits_the_listed Scenario.yaml_two Scenario.listing_fs
           "/etc/vibedeploy/allowed.yaml"
           (bytes_of_string "allowed_repos: [org/app, org/api]")
           (AllowedReposConfig.mk ["org/app"; "org/api"]) Sample.world);
    [discriminate|reflexivity|reflexivity].
Defined.

(** X15.  The set built from a list of repositories depends only on which
    repositories are listed: not on their order, nor on repetitions. *)
Theorem X15_allowlist_order_and_repetition_do_not_matter (repos1 repos2 : list string) :
  (∀ repo, repo ∈ repos1 ↔ repo ∈ repos2) →
  repos_to_map repos1 = repos_to_map repos2.
Proof.
  intros Hsame. apply map_eq. intros repo. rewrite !repos_to_map_lookup.
  specialize (Hsame repo). repeat case_bool_decide; naive_solver.
Qed.

Lemma X15_witness :
  repos_to_map ["org/app"; "org/api"; "org/app"] = repos_to_map ["org/api"; "org/app"].
Proof.
  apply X15_allowlist_order_and_repetition_do_not_matter.
  intros repo. rewrite !elem_of_cons. rewrite !elem_of_nil. tauto.
Defined.

(** ** Log levels and configuration *)

Section Upper.
Import strings.

Lemma upper_byte_idemp c : upper_byte (upper_byte c) = upper_byte c.
Proof. by destruct c as [[] [] [] [] [] [] [] []]. Qed.

Lemma upper_byte_ascii c :
  (N_of_ascii (upper_byte c) <? utf8.RuneSelf) = (N_of_ascii c <? utf8.RuneSelf).
Proof. by destruct c as [[] [] [] [] [] [] [] []]. Qed.

Lemma isASCII_cons c s :
  isASCII (String c s) = (N_of_ascii c <? utf8.RuneSelf) && isASCII s.
Proof. reflexivity. Qed.

Lemma isASCII_upper s : isASCII (map_bytes upper_byte s) = isASCII s.
Proof.
  induction s as [|c s IH]; [done|].
  cbn [map_bytes]. by rewrite !isASCII_cons, upper_byte_ascii, IH.
Qed.

Lemma map_upper_idemp s :
  map_bytes upper_byte (map_bytes upper_byte s) = map_bytes upper_byte s.
Proof.
  induction s as [|c s IH]; [done|].
  cbn [map_bytes]. by rewrite upper_byte_idemp, IH.
Qed.

Lemma ToUpper_idemp unicode_upper s :
  isASCII s = true →
  ToUpper unicode_upper (ToUpper unicode_upper s) = ToUpper unicode_upper s.
Proof.
  intros H. unfold ToUpper. rewrite H, isASCII_upper, H. apply map_upper_idemp.
Qed.

End Upper.

(** X16.  [parseLogLevel] on ASCII text looks only at the upper-case form of
    the text: a spelling of a level name in any mix of cases gives that
    level, every other text gives INFO, and upper-casing the text first
    changes nothing.  In particular it reads back what [String] writes. *)
Theorem X16_parseLogLevel_reads_any_case
    (unicode_upper : string → string) (level : string) :
  strings.isASCII level = true →
  let upper := strings.map_bytes strings.upper_byte level in
  (∀ l, upper = LogLevel_String l → parseLogLevel unicode_upper level = l)
  ∧ ((∀ l, upper ≠ LogLevel_String l) → parseLogLevel unicode_upper level = INFO)
  ∧ parseLogLevel unicode_upper (strings.ToUpper unicode_upper level)
    = parseLogLevel unicode_upper level
  ∧ ∀ l, parseLogLevel unicode_upper (LogLevel_String l) = l.
Proof.
  intros Hascii upper. subst upper.
  split; [|split; [|split]].
  - intros l Hl. unfold parseLogLevel, strings.ToUpper. rewrite Hascii, Hl.
    by destruct l.
  - intros Hno. unfold parseLogLevel, strings.ToUpper. rewrite Hascii.
    destruct (String.eqb_spec (strings.map_bytes strings.upper_byte level) "DEBUG") as [H|_];
      [by destruct (Hno DEBUG)|].
    destruct (String.eqb_spec (strings.map_bytes strings.upper_byte level) "INFO") as [H|_];
      [done|].
    destruct (String.eqb_spec (strings.map_bytes strings.upper_byte level) "WARN") as [H|_];
      [by destruct (Hno WARN)|].
    destruct (String.eqb_spec (strings.map_bytes strings.upper_byte level) "ERROR") as [H|_];
      [by destruct (Hno ERROR)|done].
  - unfold parseLogLevel. by rewrite ToUpper_idemp.
  - by intros [].
Qed.

Lemma X16_witness :
  parseLogLevel (fun s => s) "wArN" = WARN.
Proof.
  destruct (X16_parseLogLevel_reads_any_case (fun s => s) "wArN") as [H _]; [reflexivity|].
  apply H. reflexivity.
Defined.

Lemma getEnv_default env key defaultValue :
  defaultValue ≠ "" → getEnv env key defaultValue ≠ "".
Proof.
  intros Hd. unfold getEnv.
  destruct (String.eqb_spec (env key) "") as [H|H]; done.
Qed.

Lemma getEnv_unset env key defaultValue :
  env key = "" → getEnv env key defaultValue = defaultValue.
Proof. intros H. unfold getEnv. by rewrite H. Qed.

Lemma getEnv_set env key defaultValue :
  env key ≠ "" → getEnv env key defaultValue = env key.
Proof. intros H%String.eqb_neq. unfold getEnv. by rewrite H. Qed.

(** X17.  Whatever the environment holds, the configuration that [loadConfig]
    returns names a Redis address, a base directory, two channels and two
    lists that are not empty: a variable set to the empty text counts as
    not set.  The token, the password and the allowlist path are the
    variables as they are.  Without LOG_LEVEL the level is INFO. *)
Theorem X17_loadConfig_fills_in_defaults (unicode_upper : string → string) (env : environ) :
  let config := loadConfig unicode_upper env in
  Config.RedisAddr config ≠ ""
  ∧ Config.BaseDir config ≠ ""
  ∧ Config.RedisPubSub config ≠ ""
  ∧ Config.RedisListName config ≠ ""
  ∧ Config.RedisOutputChannel config ≠ ""
  ∧ Config.RedisReactionList config ≠ ""
  ∧ Config.SlackToken config = env "SLACK_BOT_TOKEN"
  ∧ Config.RedisPassword config = env "REDIS_PASSWORD"
  ∧ Config.AllowedReposConfig config = env "ALLOWED_REPOS_CONFIG"
  ∧ (env "LOG_LEVEL" = "" → Config.LogLevel config = INFO)
  ∧ (env "REDIS_LIST_NAME" = "" → env "REDIS_REACTION_LIST" = "" →
     Config.RedisListName config ≠ Config.RedisReactionList config).
Proof.
  intros config. subst config. unfold loadConfig. cbn -[getEnv parseLogLevel].
  assert (∀ key, getEnv env key "" = env key) as Hplain.
  { intros key. unfold getEnv. by destruct (String.eqb_spec (env key) "") as [->|]. }
  repeat split; try (by apply getEnv_default); try apply Hplain.
  - intros H. by rewrite getEnv_unset.
  - intros H1 H2. by rewrite !getEnv_unset.
Qed.

Lemma X17_witness :
  Config.LogLevel (loadConfig (fun s => s) Scenario.empty_env) = INFO
  ∧ Config.RedisListName (loadConfig (fun s => s) Scenario.empty_env)
    ≠ Config.RedisReactionList (loadConfig (fun s => s) Scenario.empty_env).
Proof.
  destruct (X17_loadConfig_fills_in_defaults (fun s => s) Scenario.empty_env)
    as (_ & _ & _ & _ & _ & _ & _ & _ & _ & Hlevel & Hnames).
  split; [by apply Hlevel|by apply Hnames].
Defined.

(** ** The loops *)

Section Loops.

Lemma appends_listenForCommandOutput_loop config rounds :
  appends (listenForCommandOutput_loop config rounds).
Proof.
  induction rounds as [|[|[payload|]] rounds IH]; cbn [listenForCommandOutput_loop].
  - apply appends_ret.
  - apply appends_logAt.
  - apply appends_bind; [apply appends_logAt|]. intros _.
    apply appends_bind; [apply appends_processCommandOutput|]. by intros _.
  - exact IH.
Qed.

Lemma appends_main_loop slackClient config allowedRepos rounds :
  appends (main_loop slackClient config allowedRepos rounds).
Proof.
  induction rounds as [|[|[payload|]] rounds IH]; cbn [main_loop].
  - apply appends_ret.
  - apply appends_logAt.
  - apply appends_bind; [apply appends_logAt|]. intros _.
    apply appends_bind; [apply appends_processReactionEvent|]. by intros _.
  - exact IH.
Qed.

(** What one notice adds to the calls. *)
Lemma processCommandOutput_calls payload config w :
  ∃ new,
    redis_calls (redis (exec (processCommandOutput payload config) w))
    = redis_calls (redis w) ++ new
    ∧ length new = (if announces payload then 2 else 0)%nat
    ∧ Forall (fun c => rp_key c = Config.RedisReactionList config) new.
Proof.
  rewrite processCommandOutput_redis. unfold announces.
  destruct (wire.Unmarshal_CommandOutput _) as [output|];
    [|exists []; by rewrite app_nil_r].
  destruct (String.eqb (CommandOutput.Type_ _) _);
    [|exists []; by rewrite app_nil_r].
  destruct (String.eqb (CommandOutput.Command _) _);
    [|exists []; by rewrite app_nil_r].
  destruct (CommandOutput.Metadata output) as [md|];
    [|exists []; by rewrite app_nil_r].
  cbn [negb andb]. rewrite two_pushes_calls. eexists. split; [reflexivity|].
  split; [done|]. by repeat constructor.
Qed.

(** What one reaction event adds to the calls. *)
Lemma processReactionEvent_calls payload slackClient config allowedRepos w :
  ∃ new,
    redis_calls (redis (exec (processReactionEvent payload slackClient config allowedRepos) w))
    = redis_calls (redis w) ++ new
    ∧ (rp_key <$> new)
      = if deploys slackClient allowedRepos payload
        then [Config.RedisReactionList config; Config.RedisListName config]
        else [].
Proof.
  rewrite processReactionEvent_redis. unfold deploys.
  destruct (wire.Unmarshal_ReactionEvent _) as [event|];
    [|exists []; by rewrite app_nil_r].
  cbv zeta.
  destruct (String.eqb (ReactionEvent.Reaction _) _);
    [|exists []; by rewrite app_nil_r].
  destruct (String.eqb (ReactionEvent.Item_Type _) _);
    [|exists []; by rewrite app_nil_r].
  destruct (fromBot event); [exists []; by rewrite app_nil_r|].
  cbn [negb andb].
  destruct (getMessageMetadata _ _ _) as [[metadata|] [err|]];
    try (exists []; by rewrite app_nil_r).
  destruct (isRepoAllowed _ _); [|exists []; by rewrite app_nil_r].
  rewrite two_pushes_calls. eexists. split; [reflexivity|done].
Qed.

End Loops.

(** X18.  The listener, over any run of its loop: it only ever pushes to the
    reaction list, two pushes for each go-live notice with a correlation
    block that was delivered before the context was done, and nothing for
    any other delivery.  What is delivered after the cancellation is not
    handled. *)
Theorem X18_listener_pushes_twice_per_go_live
    (config : Config.t) (rounds : list delivery) (w : World) :
  ∃ new,
    redis_calls (redis (exec (listenForCommandOutput config rounds) w))
    = redis_calls (redis w) ++ new
    ∧ length new = (2 * length (List.filter announces (served rounds)))%nat
    ∧ Forall (fun c => rp_key c = Config.RedisReactionList config) new.
Proof.
  unfold listenForCommandOutput, logInfo. rewrite exec_seq.
  rewrite <- (exec_logAt_redis INFO "Subscribed to Redis channel: %s" w).
  generalize (exec (logAt INFO "Subscribed to Redis channel: %s") w). clear w.
  induction rounds as [|[|[payload|]] rounds IH]; intros w;
    cbn [listenForCommandOutput_loop served List.filter].
  - exists []. by rewrite app_nil_r.
  - exists []. unfold logInfo. rewrite exec_logAt_redis. by rewrite app_nil_r.
  - unfold logDebug. rewrite !exec_seq.
    destruct (IH (exec (processCommandOutput payload config)
                    (exec (logAt DEBUG "Received command output message from channel: %s") w)))
      as (new2 & -> & Hlen2 & Hkeys2).
    destruct (processCommandOutput_calls payload config
                (exec (logAt DEBUG "Received command output message from channel: %s") w))
      as (new1 & -> & Hlen1 & Hkeys1).
    rewrite exec_logAt_redis. exists (new1 ++ new2).
    split; [by rewrite app_assoc|]. split; [|by apply Forall_app].
    rewrite length_app, Hlen1, Hlen2.
    destruct (announces payload); cbn [length]; lia.
  - apply IH.
Qed.

(** X19.  The main loop, over any run of it: the keys of its pushes are, for
    each delivered event that passes every gate, the reaction list and then
    the command list, and nothing for any other delivery; so as many commands
    are queued as reactions were accepted before the context was done. *)
Theorem X19_main_loop_pushes_per_accepted_reaction
    (slackClient : slack.Client) (config : Config.t)
    (allowedRepos : option (gmap string bool)) (rounds : list delivery) (w : World) :
  ∃ new,
    redis_calls (redis (exec (main_loop slackClient config allowedRepos rounds) w))
    = redis_calls (redis w) ++ new
    ∧ (rp_key <$> new)
      = mjoin ((fun _ => [Config.RedisReactionList config; Config.RedisListName config])
               <$> List.filter (deploys slackClient allowedRepos) (served rounds)).
Proof.
  revert w.
  induction rounds as [|[|[payload|]] rounds IH]; intros w;
    cbn [main_loop served List.filter].
  - exists []. by rewrite app_nil_r.
  - exists []. unfold logInfo. rewrite exec_logAt_redis. by rewrite app_nil_r.
  - unfold logDebug. rewrite !exec_seq.
    destruct (IH (exec (processReactionEvent payload slackClient config allowedRepos)
                    (exec (logAt DEBUG "Received message from channel: %s") w)))
      as (new2 & -> & Hkeys2).
    destruct (processReactionEvent_calls payload slackClient config allowedRepos
                (exec (logAt DEBUG "Received message from channel: %s") w))
      as (new1 & -> & Hkeys1).
    rewrite exec_logAt_redis. exists (new1 ++ new2).
    split; [by rewrite app_assoc|].
    rewrite fmap_app, Hkeys1, Hkeys2.
    destruct (deploys _ _ payload); reflexivity.
  - apply IH.
Qed.

(** X20.  Nothing is ever taken back.  Each handler and each loop, whatever it
    is given, leaves the log level alone and only adds at the end: lines to
    the log, calls to the calls of [RPush], payloads to the Redis lists. *)
Theorem X20_handlers_and_loops_only_append
    (payload : string) (slackClient : slack.Client) (config : Config.t)
    (allowedRepos : option (gmap string bool)) (rounds : list delivery) (w : World) :
  extends w (exec (processReactionEvent payload slackClient config allowedRepos) w)
  ∧ extends w (exec (processCommandOutput payload config) w)
  ∧ extends w (exec (main_loop slackClient config allowedRepos rounds) w)
  ∧ extends w (exec (listenForCommandOutput config rounds) w).
Proof.
  split; [apply appends_processReactionEvent|].
  split; [apply appends_processCommandOutput|].
  split; [apply appends_main_loop|].
  unfold listenForCommandOutput.
  apply appends_bind; [apply appends_logAt|]. intros _.
  apply appends_listenForCommandOutput_loop.
Qed.

(** ** The start of main *)

Section Startup.

Lemma getEnv_plain env key : getEnv env key "" = env key.
Proof. unfold getEnv. by destruct (String.eqb_spec (env key) "") as [->|]. Qed.

End Startup.

(** X21.  The start of [main].  It ends in [log.Fatal] exactly when the token
    is missing, the allowlist file is there but cannot be used, or Redis does
    not answer the ping.  Otherwise the loops get the configuration of the
    environment, the client made from its token and the allowlist that
    [loadAllowedRepos] returns for the configured path, which is nil when no
    path is configured.  Either way nothing is pushed, and the log level is
    from then on the one read from LOG_LEVEL. *)
Theorem X21_main_startup_outcomes
    (unicode_upper : string → string) (env : environ)
    (yaml_Unmarshal : yaml_decoder) (fs : os.FileSystem)
    (Ping : option error) (slack_New : string → slack.Client) (w : World) :
  let run := main_startup unicode_upper env yaml_Unmarshal fs Ping slack_New w in
  ((∃ msg, fst run = Fatal msg)
   ↔ env "SLACK_BOT_TOKEN" = ""
     ∨ allowlist_unusable yaml_Unmarshal fs (env "ALLOWED_REPOS_CONFIG")
     ∨ is_Some Ping)
  ∧ (∀ config allowedRepos slackClient,
       fst run = Ready config allowedRepos slackClient →
       config = loadConfig unicode_upper env
       ∧ slackClient = slack_New (env "SLACK_BOT_TOKEN")
       ∧ (∀ w0, fst (loadAllowedRepos yaml_Unmarshal fs (env "ALLOWED_REPOS_CONFIG") w0)
                = (allowedRepos, None))
       ∧ (env "ALLOWED_REPOS_CONFIG" = "" → allowedRepos = None))
  ∧ redis (snd run) = redis w
  ∧ currentLogLevel (snd run)
    = parseLogLevel unicode_upper (getEnv env "LOG_LEVEL" "INFO").
Proof.
  intros run.
  assert (run = main_startup unicode_upper env yaml_Unmarshal fs Ping slack_New w)
    as Hrun by done.
  clearbody run. unfold main_startup in Hrun.
  assert (Config.SlackToken (loadConfig unicode_upper env) = env "SLACK_BOT_TOKEN")
    as Htoken by apply getEnv_plain.
  assert (Config.AllowedReposConfig (loadConfig unicode_upper env)
          = env "ALLOWED_REPOS_CONFIG") as Hpath by apply getEnv_plain.
  assert (Config.LogLevel (loadConfig unicode_upper env)
          = parseLogLevel unicode_upper (getEnv env "LOG_LEVEL" "INFO")) as Hlvl by done.
  cbv zeta in Hrun.
  set (config := loadConfig unicode_upper env) in *.
  unfold mbind, M_bind, bind in Hrun.
  cbn [setLogLevel] in Hrun. rewrite Htoken, Hpath in Hrun.
  set (w0 := mkWorld (Config.LogLevel config) (log_lines w) (redis w)) in Hrun.
  destruct (String.eqb_spec (env "SLACK_BOT_TOKEN") "") as [Hempty|Hset].
  { subst run. cbn [fst snd ret]. split; [|done]. split; [by left|by eexists]. }
  destruct (loadAllowedRepos_run yaml_Unmarshal fs (env "ALLOWED_REPOS_CONFIG") w0)
    as (Herr & Hnone & Hunset & Hredis & Hlevel).
  pose proof (fun w0' => loadAllowedRepos_result yaml_Unmarshal fs
                           (env "ALLOWED_REPOS_CONFIG") w0' w0) as Hload.
  destruct (loadAllowedRepos yaml_Unmarshal fs (env "ALLOWED_REPOS_CONFIG") w0)
    as [[allowedRepos err] w1].
  cbn [fst snd] in *.
  destruct err as [e|].
  { subst run. cbn [fst snd ret].
    split; [|split; [by intros ? ? ? [=]|split; [by rewrite Hredis|by rewrite Hlevel]]].
    split; [intros _|by eexists]. right. left. apply Herr. by eexists. }
  assert (¬ allowlist_unusable yaml_Unmarshal fs (env "ALLOWED_REPOS_CONFIG")) as Hok.
  { intros H. apply Herr in H. by destruct H. }
  destruct Ping as [e|].
  { subst run. cbn [fst snd ret].
    split; [|split; [by intros ? ? ? [=]|split; [by rewrite Hredis|by rewrite Hlevel]]].
    split; [intros _|by eexists]. right. right. by eexists. }
  unfold logInfo in Hrun.
  pose proof (exec_logAt INFO "Connected to Redis at %s" w1) as E2.
  unfold exec in E2.
  destruct (logAt INFO "Connected to Redis at %s" w1) as [[] w2].
  pose proof (exec_logAt INFO "Subscribed to Redis channel: %s (log level: %s)" w2) as E3.
  unfold exec in E3.
  destruct (logAt INFO "Subscribed to Redis channel: %s (log level: %s)" w2) as [[] w3].
  cbn [snd] in E2, E3. subst run w3 w2. cbn [fst snd ret].
  split; [|split; [|split]].
  - split.
    + by intros [msg [=]].
    + intros [H|[H|[? [=]]]]; done.
  - intros config' allowed' client' [= <- <- <-]. done.
  - exact Hredis.
  - by rewrite <- Hlvl.
Qed.

Lemma X21_witness :
  (∃ msg, fst (main_startup (fun s => s) Scenario.empty_env SampleFiles.yaml_Unmarshal
                 SampleFiles.fs None (fun _ => Sample.pr_slack) Sample.world)
          = Fatal msg)
  ∧ (∀ config allowedRepos slackClient,
       fst (main_startup (fun s => s) Scenario.env SampleFiles.yaml_Unmarshal
              SampleFiles.fs None (fun _ => Sample.pr_slack) Sample.world)
       = Ready config allowedRepos slackClient →
       allowedRepos = None)
  ∧ (∀ config allowedRepos slackClient,
       fst (main_startup (fun s => s) Scenario.env_with_allowlist Scenario.yaml_two
              Scenario.listing_fs None (fun _ => Sample.pr_slack) Sample.world)
       = Ready config allowedRepos slackClient →
       allowedRepos = Some (repos_to_map ["org/app"; "org/api"])).
Proof.
  split; [|split].
  - destruct (X21_main_startup_outcomes (fun s => s) Scenario.empty_env
                SampleFiles.yaml_Unmarshal SampleFiles.fs None (fun _ => Sample.pr_slack)
                Sample.world) as (Hfatal & _).
    apply Hfatal. by left.
  - intros config allowedRepos slackClient Hready.
    destruct (X21_main_startup_outcomes (fun s => s) Scenario.env
                SampleFiles.yaml_Unmarshal SampleFiles.fs None (fun _ => Sample.pr_slack)
                Sample.world) as (_ & H & _).
    destruct (H config allowedRepos slackClient Hready) as (_ & _ & _ & Hnil).
    by apply Hnil.
  - intros config allowedRepos slackClient Hready.
    destruct (X21_main_startup_outcomes (fun s => s) Scenario.env_with_allowlist
                Scenario.yaml_two Scenario.listing_fs None (fun _ => Sample.pr_slack)
                Sample.world) as (_ & H & _).
    destruct (H config allowedRepos slackClient Hready) as (_ & _ & Hload & _).
    specialize (Hload Sample.world).
    by injection Hload as <-.
Defined.

(** ** Texts decoded from JSON are valid UTF-8 *)

Section DecodedTexts.
Import utf8 json decode wire Coerce Validity.

Lemma Unmarshal_invariant {T : Type} (P : T → Prop) names set zero data x :
  (∀ f v x x', strings_valid v = true → P x → set f v x = Some x' → P x') →
  P zero →
  Unmarshal (into_struct names set) zero data = Some x → P x.
Proof.
  intros Hset Hzero. unfold Unmarshal. intros H.
  destruct (parse data) as [v|] eqn:Hparse; [|done]. simpl in H.
  eapply (into_struct_invariant P); [exact Hset| |exact Hzero|exact H].
  by eapply parse_strings_valid.
Qed.

Lemma set_item_valid f v x x' :
  strings_valid v = true → item_valid x → set_item f v x = Some x' → item_valid x'.
Proof.
  intros Hv [Hch Hts]. destruct x as [ty ch ts]. unfold set_item, item_valid in *.
  cbn [ReactionEvent.Channel ReactionEvent.Ts] in *. intros Hset.
  repeat case_match; simplify_option_eq; try done;
    cbn [ReactionEvent.Channel ReactionEvent.Ts]; split; try done;
    (eapply into_string_valid; [exact Hv| |eassumption]; done).
Qed.

Lemma set_event_valid f v x x' :
  strings_valid v = true → item_valid (ReactionEvent.Item x) →
  set_event f v x = Some x' → item_valid (ReactionEvent.Item x').
Proof.
  intros Hv Hx. destruct x as [ty us re it]. unfold set_event.
  cbn [ReactionEvent.Item] in *. intros Hset.
  repeat case_match; simplify_option_eq; try done.
  cbn [ReactionEvent.Item].
  eapply (into_struct_invariant item_valid); [exact set_item_valid|exact Hv|exact Hx|].
  eassumption.
Qed.

Lemma set_ReactionEvent_valid f v x x' :
  strings_valid v = true →
  item_valid (ReactionEvent.Item (ReactionEvent.Event x)) →
  set_ReactionEvent f v x = Some x' →
  item_valid (ReactionEvent.Item (ReactionEvent.Event x')).
Proof.
  intros Hv Hx. destruct x as [ev auths]. unfold set_ReactionEvent.
  cbn [ReactionEvent.Event] in *. intros Hset.
  repeat case_match; simplify_option_eq; try done.
  cbn [ReactionEvent.Event].
  eapply (into_struct_invariant (fun e => item_valid (ReactionEvent.Item e)));
    [exact set_event_valid|exact Hv|exact Hx|eassumption].
Qed.

(** The channel and the ts of a decoded reaction event are valid UTF-8. *)
Lemma Unmarshal_ReactionEvent_valid data event :
  Unmarshal_ReactionEvent data = Some event →
  item_valid (ReactionEvent.Item (ReactionEvent.Event event)).
Proof.
  apply (Unmarshal_invariant
           (fun x => item_valid (ReactionEvent.Item (ReactionEvent.Event x))));
    [exact set_ReactionEvent_valid|by split].
Qed.

Lemma set_CommandMetadata_valid f v x x' :
  strings_valid v = true → block_valid x → set_CommandMetadata f v x = Some x' →
  block_valid x'.
Proof.
  intros Hv [Hch Hts]. destruct x as [ch ts]. unfold set_CommandMetadata, block_valid in *.
  cbn [CommandMetadata.Channel CommandMetadata.Ts] in *. intros Hset.
  repeat case_match; simplify_option_eq; try done;
    cbn [CommandMetadata.Channel CommandMetadata.Ts]; split; try done;
    (eapply into_string_valid; [exact Hv| |eassumption]; done).
Qed.

Lemma set_CommandOutput_valid f v x x' :
  strings_valid v = true →
  (∀ md, CommandOutput.Metadata x = Some md → block_valid md) →
  set_CommandOutput f v x = Some x' →
  ∀ md, CommandOutput.Metadata x' = Some md → block_valid md.
Proof.
  intros Hv Hx. destruct x as [md0 ty cmd out]. unfold set_CommandOutput.
  cbn [CommandOutput.Metadata] in *. intros Hset.
  repeat case_match; simplify_option_eq; try done.
  cbn [CommandOutput.Metadata]. intros md ->.
  match goal with
  | H : into_pointer _ _ _ _ = Some (Some md) |- _ => rename H into Hptr
  end.
  unfold into_pointer in Hptr. destruct v; try done.
  destruct (into_CommandMetadata _ _) as [m|] eqn:Hm; [|done].
  injection Hptr as <-.
  eapply (into_struct_invariant block_valid); [exact set_CommandMetadata_valid|exact Hv| |exact Hm].
  destruct md0 as [m0|]; [by apply Hx|by split].
Qed.

(** The correlation block of a decoded notice is valid UTF-8. *)
Lemma Unmarshal_CommandOutput_valid data output md :
  Unmarshal_CommandOutput data = Some output →
  CommandOutput.Metadata output = Some md → block_valid md.
Proof.
  intros H. revert md.
  refine (Unmarshal_invariant
            (fun x => ∀ md, CommandOutput.Metadata x = Some md → block_valid md)
            _ _ _ data output set_CommandOutput_valid _ H).
  done.
Qed.

Lemma set_PRMetadata_valid f v x x' :
  strings_valid v = true →
  ValidString (PRMetadata.Repository x) = true ∧ ValidString (PRMetadata.Branch x) = true →
  set_PRMetadata f v x = Some x' →
  ValidString (PRMetadata.Repository x') = true ∧ ValidString (PRMetadata.Branch x') = true.
Proof.
  intros Hv [Hr Hb]. destruct x as [n repo url author branch action].
  unfold set_PRMetadata. cbn [PRMetadata.Repository PRMetadata.Branch] in *.
  intros Hset.
  repeat case_match; simplify_option_eq; try done;
    cbn [PRMetadata.Repository PRMetadata.Branch]; split; try done;
    (eapply into_string_valid; [exact Hv| |eassumption]; done).
Qed.

(** The repository and the branch of resolved metadata are valid UTF-8. *)
Lemma getMessageMetadata_valid slackClient channel ts metadata err :
  getMessageMetadata slackClient channel ts = (Some metadata, err) →
  ValidString (PRMetadata.Repository metadata) = true
  ∧ ValidString (PRMetadata.Branch metadata) = true.
Proof.
  unfold getMessageMetadata.
  destruct (slackClient _) as [history [e|]]; [done|].
  destruct (slack.Messages history) as [|message ?]; [done|].
  destruct (slack.EventPayload _) as [|kv payload]; [done|].
  destruct (Unmarshal_PRMetadata _) as [md|] eqn:Hdec; [|done].
  destruct (_ || _); [done|].
  intros [= <- <-].
  refine (Unmarshal_invariant
            (fun x => ValidString (PRMetadata.Repository x) = true
                      ∧ ValidString (PRMetadata.Branch x) = true)
            _ _ _ _ md set_PRMetadata_valid _ Hdec).
  by split.
Qed.

End DecodedTexts.

(** X22.  The command of the pipeline survives JSON whole.  When the base
    directory is ASCII, the command synthesized for a decoded event and its
    resolved metadata decodes from its payload to exactly itself: repo,
    branch, type, dir, the instructions and the correlation block, since every
    text in it was itself decoded from JSON. *)
Theorem X22_pipeline_command_decodes_to_itself
    (payload : string) (event : ReactionEvent.t) (metadata : PRMetadata.t)
    (slackClient : slack.Client) (config : Config.t) :
  let item := ReactionEvent.Item (ReactionEvent.Event event) in
  let channel := ReactionEvent.Channel item in
  let ts := ReactionEvent.Ts item in
  wire.Unmarshal_ReactionEvent (bytes_of_string payload) = Some event →
  getMessageMetadata slackClient channel ts = (Some metadata, None) →
  Forall (fun b => b < 128) (bytes_of_string (Config.BaseDir config)) →
  let cmd := createPoppitCommand metadata config channel ts in
  wire.Unmarshal_PoppitCommand (wire.Marshal_PoppitCommand cmd) = Some cmd.
Proof.
  intros item channel ts Hdec Hmd Hbase cmd.
  rewrite Unmarshal_Marshal_PoppitCommand. f_equal.
  destruct (Unmarshal_ReactionEvent_valid _ _ Hdec) as [Hch Hts].
  destruct (getMessageMetadata_valid _ _ _ _ _ Hmd) as [Hrepo Hbranch].
  subst cmd. unfold createPoppitCommand, Coerce.coerce_PoppitCommand.
  cbn [PoppitCommand.Repo PoppitCommand.Branch PoppitCommand.Type_ PoppitCommand.Dir
       PoppitCommand.Commands PoppitCommand.Metadata fmap option_fmap option_map].
  unfold Coerce.coerce_CommandMetadata.
  cbn [CommandMetadata.Channel CommandMetadata.Ts].
  rewrite (coerce_valid (PRMetadata.Repository metadata)) by done.
  rewrite (coerce_valid (PRMetadata.Branch metadata)) by done.
  rewrite (coerce_valid channel) by done.
  rewrite (coerce_valid ts) by done.
  rewrite (coerce_valid VibeDeployType) by reflexivity.
  rewrite (coerce_valid (Config.BaseDir config +:+ "/" +:+ PRMetadata.Repository metadata)).
  2:{ rewrite ValidString_append_ascii by done.
      rewrite ValidString_append_ascii; [done|]. vm_compute. repeat constructor. }
  rewrite map_coerce_valid; [reflexivity|].
  cbn [forallb]. rewrite ValidString_append_ascii.
  - rewrite Hbranch. reflexivity.
  - vm_compute. repeat constructor.
Qed.

Lemma X22_witness :
  wire.Unmarshal_PoppitCommand
    (wire.Marshal_PoppitCommand
       (createPoppitCommand Sample.pr_metadata Sample.config "C1" "100.1"))
  = Some (createPoppitCommand Sample.pr_metadata Sample.config "C1" "100.1").
Proof.
  apply (X22_pipeline_command_decodes_to_itself Sample.rocket_payload Sample.rocket_event
           Sample.pr_metadata Sample.pr_slack Sample.config).
  - vm_compute. reflexivity.
  - vm_compute. reflexivity.
  - vm_compute. repeat constructor.
Defined.

(** X23.  The reaction mutations of the handlers read back exactly.  The
    channel and ts of a decoded event, and of the correlation block of a
    decoded notice, are valid UTF-8, so the mutations built from them parse
    to objects with that very channel and ts. *)
Theorem X23_mutations_read_back_exactly (payload : string) :
  (∀ event,
     wire.Unmarshal_ReactionEvent (bytes_of_string payload) = Some event →
     let item := ReactionEvent.Item (ReactionEvent.Event event) in
     json.parse (wire.Marshal_SlackReaction
                   (SlackReaction.mk "gear" (ReactionEvent.Channel item)
                      (ReactionEvent.Ts item) false))
     = Some (json.JObject [("reaction", json.JString "gear");
                           ("channel", json.JString (ReactionEvent.Channel item));
                           ("ts", json.JString (ReactionEvent.Ts item))]))
  ∧ (∀ output md,
       wire.Unmarshal_CommandOutput (bytes_of_string payload) = Some output →
       CommandOutput.Metadata output = Some md →
       json.parse (wire.Marshal_SlackReaction
                     (SlackReaction.mk "gear" (CommandMetadata.Channel md)
                        (CommandMetadata.Ts md) true))
       = Some (json.JObject [("reaction", json.JString "gear");
                             ("channel", json.JString (CommandMetadata.Channel md));
                             ("ts", json.JString (CommandMetadata.Ts md));
                             ("remove", json.JBool true)])
       ∧ json.parse (wire.Marshal_SlackReaction
                       (SlackReaction.mk "rocket" (CommandMetadata.Channel md)
                          (CommandMetadata.Ts md) false))
         = Some (json.JObject [("reaction", json.JString "rocket");
                               ("channel", json.JString (CommandMetadata.Channel md));
                               ("ts", json.JString (CommandMetadata.Ts md))])).
Proof.
  split.
  - intros event Hdec item.
    destruct (Unmarshal_ReactionEvent_valid _ _ Hdec) as [Hch Hts].
    rewrite parse_Marshal_SlackReaction.
    unfold wire.SlackReaction_to_json.
    cbn [Coerce.coerce_value List.map app fst snd SlackReaction.Reaction
         SlackReaction.Channel SlackReaction.Ts SlackReaction.Remove].
    fold item. rewrite !coerce_valid by done. reflexivity.
  - intros output md Hdec Hmd.
    destruct (Unmarshal_CommandOutput_valid _ _ _ Hdec Hmd) as [Hch Hts].
    rewrite !parse_Marshal_SlackReaction.
    unfold wire.SlackReaction_to_json.
    cbn [Coerce.coerce_value List.map app fst snd SlackReaction.Reaction
         SlackReaction.Channel SlackReaction.Ts SlackReaction.Remove].
    rewrite !coerce_valid by done. split; reflexivity.
Qed.

Lemma X23_witness :
  json.parse (wire.Marshal_SlackReaction (SlackReaction.mk "gear" "C1" "100.1" false))
  = Some (json.JObject [("reaction", json.JString "gear");
                        ("channel", json.JString "C1");
                        ("ts", json.JString "100.1")])
  ∧ json.parse (wire.Marshal_SlackReaction (SlackReaction.mk "rocket" "C1" "100.1" false))
    = Some (json.JObject [("reaction", json.JString "rocket");
                          ("channel", json.JString "C1");
                          ("ts", json.JString "100.1")]).
Proof.
  split.
  - destruct (X23_mutations_read_back_exactly Sample.rocket_payload) as [H _].
    apply (H Sample.rocket_event). vm_compute. reflexivity.
  - destruct (X23_mutations_read_back_exactly Sample.notice_payload) as [_ H].
    destruct (H Sample.notice (CommandMetadata.mk "C1" "100.1")) as [_ Hrocket];
      [vm_compute; reflexivity|reflexivity|].
    exact Hrocket.
Defined.

(** ** The order of the entries of a map *)

Section MapOrder.
Import json.

Lemma leb_trans s1 s2 s3 :
  String.leb s1 s2 = true → String.leb s2 s3 = true → String.leb s1 s3 = true.
Proof.
  unfold String.leb.
  revert s2 s3. induction s1 as [|c1 s1 IH]; intros [|c2 s2] [|c3 s3]; simpl; try done.
  unfold Ascii.compare.
  destruct (N.compare_spec (N_of_ascii c1) (N_of_ascii c2)) as [E12|L12|G12];
    destruct (N.compare_spec (N_of_ascii c2) (N_of_ascii c3)) as [E23|L23|G23];
    try done.
  - rewrite E12, E23. rewrite N.compare_refl. apply IH.
  - intros _ _. rewrite E12. by apply N.compare_lt_iff in L23 as ->.
  - intros _ _. rewrite <- E23. by apply N.compare_lt_iff in L12 as ->.
  - intros _ _. assert (N_of_ascii c1 < N_of_ascii c3) as H by lia.
    by apply N.compare_lt_iff in H as ->.
Qed.

Lemma insert_sorted_comm x y l :
  fst x ≠ fst y →
  insert_sorted x (insert_sorted y l) = insert_sorted y (insert_sorted x l).
Proof.
  intros Hne. induction l as [|c l IH]; cbn [insert_sorted].
  - destruct (String.leb (fst x) (fst y)) eqn:Hxy, (String.leb (fst y) (fst x)) eqn:Hyx;
      try done.
    + destruct Hne. by apply String.leb_antisym.
    + destruct (String.leb_total (fst x) (fst y)); congruence.
  - destruct (String.leb (fst x) (fst c)) eqn:Hxc, (String.leb (fst y) (fst c)) eqn:Hyc;
      cbn [insert_sorted]; rewrite ?Hxc, ?Hyc.
    + destruct (String.leb (fst x) (fst y)) eqn:Hxy, (String.leb (fst y) (fst x)) eqn:Hyx;
        try done.
      * destruct Hne. by apply String.leb_antisym.
      * destruct (String.leb_total (fst x) (fst y)); congruence.
    + destruct (String.leb (fst y) (fst x)) eqn:Hyx; [|done].
      rewrite (leb_trans _ _ _ Hyx Hxc) in Hyc. done.
    + destruct (String.leb (fst x) (fst y)) eqn:Hxy; [|done].
      rewrite (leb_trans _ _ _ Hxy Hyc) in Hxc. done.
    + by rewrite IH.
Qed.

Lemma sort_members_perm l1 l2 :
  l1 ≡ₚ l2 → NoDup (fst <$> l1) → sort_members l1 = sort_members l2.
Proof.
  unfold sort_members.
  induction 1 as [|x l1 l2 Hperm IH|x y l|l1 l2 l3 H12 IH12 H23 IH23]; intros Hnd.
  - done.
  - cbn [fold_right]. rewrite IH; [done|]. by apply NoDup_cons in Hnd as [_ ?].
  - cbn [fold_right]. apply insert_sorted_comm.
    cbn [fmap list_fmap] in Hnd. apply NoDup_cons in Hnd as [Hin _].
    intros Heq. apply Hin. rewrite <- Heq. apply list_elem_of_here.
  - rewrite IH12 by done. apply IH23.
    by rewrite <- H12.
Qed.

Lemma Marshal_map_perm l1 l2 :
  l1 ≡ₚ l2 → NoDup (fst <$> l1) → wire.Marshal_map l1 = wire.Marshal_map l2.
Proof.
  intros Hperm Hnd. unfold wire.Marshal_map. cbn [sort_keys]. f_equal. f_equal.
  apply sort_members_perm.
  - by apply Permutation_map.
  - rewrite <- list_fmap_compose.
    by replace (fst ∘ (fun kv : string * value => (fst kv, sort_keys (snd kv))))
      with (fst : string * value → string) by done.
Qed.

End MapOrder.

(** X24.  The resolver reads the metadata of the first message as a map: its
    answer is the same for two answers of the chat API whose first messages
    carry the same entries under distinct keys, in whatever order; the event
    type of the metadata and the further messages play no part. *)
Theorem X24_resolver_ignores_map_order
    (slackClient1 slackClient2 : slack.Client) (channel ts : string)
    (history1 history2 : slack.GetConversationHistoryResponse)
    (message1 message2 : slack.Message) (rest1 rest2 : list slack.Message) :
  let params := slack.mkParams channel ts true 1%Z true in
  slackClient1 params = (history1, None) →
  slackClient2 params = (history2, None) →
  slack.Messages history1 = message1 :: rest1 →
  slack.Messages history2 = message2 :: rest2 →
  slack.EventPayload (slack.Metadata message1)
    ≡ₚ slack.EventPayload (slack.Metadata message2) →
  NoDup (fst <$> slack.EventPayload (slack.Metadata message1)) →
  getMessageMetadata slackClient1 channel ts = getMessageMetadata slackClient2 channel ts.
Proof.
  intros params H1 H2 Hm1 Hm2 Hperm Hnd. subst params.
  unfold getMessageMetadata. rewrite H1, H2, Hm1, Hm2.
  pose proof (Marshal_map_perm _ _ Hperm Hnd) as Hsame.
  destruct (slack.EventPayload (slack.Metadata message1)) as [|kv1 p1],
           (slack.EventPayload (slack.Metadata message2)) as [|kv2 p2].
  - done.
  - by apply Permutation_nil_cons in Hperm.
  - symmetry in Hperm. by apply Permutation_nil_cons in Hperm.
  - by rewrite Hsame.
Qed.

Lemma X24_witness :
  getMessageMetadata
    (Sample.slack_with [("repository", json.JString "org/app");
                        ("pr_number", json.JNumber (bytes_of_string "42"));
                        ("branch", json.JString "feat/x")])
    "C1" "100.1"
  = getMessageMetadata Sample.pr_slack "C1" "100.1".
Proof.
  eapply X24_resolver_ignores_map_order; try reflexivity.
  - apply perm_swap.
  - cbn [fmap list_fmap slack.EventPayload slack.Metadata fst].
    repeat (apply NoDup_cons; split;
            [intros H; repeat (apply elem_of_cons in H as [H|H]; [discriminate H|]);
             by apply elem_of_nil in H|]).
    apply NoDup_nil_2.
Defined.
